(** * pytorch-widedeep: tabular residual network, attention layers and
      TabTransformer -- a shallow embedding of the model-construction and
      forward-pass code.

    The repository assembles layers of a tensor library into named
    architectures.  The embedding keeps the repository's own code (the
    constructors with their configuration checks, the attributes they
    compute, the wiring of the forward passes) and reads every layer of the
    tensor library through its documented contract: a tensor is described
    by its shape, a layer constructor accepts its arguments or raises, a
    layer call either yields the shape of its output or raises.  A module
    is read in the mode it has after construction, the training mode, in
    which batch normalisation wants more than one value per channel.  What
    a layer computes stays outside, with two exceptions: the index range of
    an embedding table, which the input of a tabular model has to respect,
    and the tensor operations of the residual block and of the context
    attention, which are kept abstract so that what is returned can be
    stated for any reading of them.  The parameters and the buffers of a
    layer (the running statistics of a batch normalisation among them) are
    the layer's own state and are not tensors of the model.  Sizes and
    counts are natural numbers, Python integers where the code computes
    with them before a layer is built, and dropout rates are rationals. *)

From stdpp Require Import base option list gmap strings pretty.
From Stdlib Require Import Ascii QArith.

Open Scope string_scope.
Open Scope list_scope.
Open Scope nat_scope.

(** ** Python-level preliminaries *)

Module Py.

(** The exceptions that the modelled code can raise. *)
Inductive exn :=
| ValueError | AssertionError | ZeroDivisionError | IndexError | KeyError
| TypeError | RuntimeError | AttributeError | UnboundLocalError.

(** A call either raises or returns. *)
Definition result (A : Type) : Type := (exn + A)%type.

Definition ret {A} (a : A) : result A := inr a.
Definition raise {A} (e : exn) : result A := inl e.
Definition bind {A B} (m : result A) (k : A -> result B) : result B :=
  match m with
  | inl e => inl e
  | inr a => k a
  end.

(** Code that also updates a state [S] (the record of the layers built so
    far during construction, or a store of tensors): the state reached is
    kept when the call raises. *)
Definition st (S A : Type) : Type := S -> result A * S.

Definition sret {S A} (a : A) : st S A := fun s => (inr a, s).
Definition sraise {S A} (e : exn) : st S A := fun s => (inl e, s).
Definition sbind {S A B} (m : st S A) (k : A -> st S B) : st S B :=
  fun s => match m s with
           | (inl e, s') => (inl e, s')
           | (inr a, s') => k a s'
           end.
Definition lift {S A} (r : result A) : st S A := fun s => (r, s).

(** [l[i]] for a non-negative index. *)
Definition getitem {A} (l : list A) (i : nat) : result A :=
  match l !! i with
  | Some a => ret a
  | None => raise IndexError
  end.

(** [l[-1]]. *)
Definition getlast {A} (l : list A) : result A :=
  match last l with
  | Some a => ret a
  | None => raise IndexError
  end.

(** [a % b] and [a // b] on non-negative integers. *)
Definition mod_ (a b : nat) : result nat :=
  if decide (b = 0) then raise ZeroDivisionError else ret (a `mod` b).
Definition floordiv (a b : nat) : result nat :=
  if decide (b = 0) then raise ZeroDivisionError else ret (a `div` b).

(** [a % b] and [a // b] on Python integers of either sign: the quotient
    is rounded down and the remainder has the sign of the divisor. *)
Definition int_mod (a b : Z) : result Z :=
  if decide (b = 0%Z) then raise ZeroDivisionError else ret (a `mod` b)%Z.
Definition int_floordiv (a b : Z) : result Z :=
  if decide (b = 0%Z) then raise ZeroDivisionError else ret (a `div` b)%Z.

(** [c in s] for a character [c] and a string [s]. *)
Fixpoint contains (c : Ascii.ascii) (s : string) : bool :=
  match s with
  | EmptyString => false
  | String c' s' => if Ascii.eqb c c' then true else contains c s'
  end.

(** [assert c]. *)
Definition assert_ (c : bool) : result unit :=
  if c then ret tt else raise AssertionError.

(** [range(a, b)]. *)
Definition range (a b : nat) : list nat := seq a (b - a).

(** [p > 0.0] on rationals. *)
Definition Qgtb (p q : Q) : bool := negb (Qle_bool p q).

End Py.

Import Py.

Declare Scope py_scope.
Delimit Scope py_scope with py.
Notation "'let*' x ':=' m 'in' k" := (bind m (fun x => k))
  (at level 10, x pattern, m at level 100, k at level 200) : py_scope.
Notation "'let+' x ':=' m 'in' k" := (sbind m (fun x => k))
  (at level 10, x pattern, m at level 100, k at level 200) : py_scope.
Open Scope py_scope.

(** A [for] loop whose body updates an accumulator and may raise. *)
Fixpoint for_ {S A X} (xs : list X) (body : X -> A -> st S A) (acc : A)
  : st S A :=
  match xs with
  | [] => sret acc
  | x :: xs' => let+ acc' := body x acc in for_ xs' body acc'
  end.

(** ** The tensor library's layers *)

Module nn.

Record Linear := mkLinear
  { in_features : nat; out_features : nat; bias : bool }.
Record BatchNorm1d := mkBatchNorm1d { num_features : nat }.
Record Dropout := mkDropout { p : Q }.
Record Embedding := mkEmbedding
  { num_embeddings : nat; embedding_dim : nat; padding_idx : option nat }.

(** The layers that stand in an [nn.Sequential] built by this code: the
    input layers of the residual network and the resize module of a block
    are a linear layer followed by a batch normalisation. *)
Inductive Layer :=
| ALinear (l : Linear)
| ABatchNorm1d (b : BatchNorm1d).

(** An [nn.Sequential]: named modules in insertion order. *)
Definition Sequential (M : Type) : Type := list (string * M).

(** [add_module name m]: a module registered under an existing name takes
    that module's place, a new name is appended. *)
Fixpoint add_module {M} (s : Sequential M) (name : string) (m : M)
  : Sequential M :=
  match s with
  | [] => [(name, m)]
  | (n, m') :: s' =>
      if decide (n = name) then (n, m) :: s'
      else (n, m') :: add_module s' name m
  end.

(** What a constructor call leaves behind: one entry per layer built. *)
Inductive built :=
| BLinear (l : Linear)
| BBatchNorm1d (b : BatchNorm1d)
| BDropout (d : Dropout)
| BLeakyReLU
| BEmbedding (e : Embedding).

Definition ctor (A : Type) : Type := st (list built) A.

Definition record {A} (b : built) (a : A) : ctor A :=
  fun log => (inr a, log ++ [b]).

(** A size handed to a layer constructor: a Python integer, or a float
    holding an integral value (what [np.sum] returns on an empty list). *)
Inductive num :=
| Int (n : nat)
| Float (n : nat).

Definition num_val (x : num) : nat :=
  match x with
  | Int n => n
  | Float n => n
  end.

(** [x + n] for an integer [n]: the sum is a float when [x] is. *)
Definition num_add (x : num) (n : nat) : num :=
  match x with
  | Int m => Int (m + n)
  | Float m => Float (m + n)
  end.

(** [nn.Linear(i, o)]: the weight cannot be allocated with a float size. *)
Definition new_Linear (i : num) (o : nat) (b : bool) : ctor Linear :=
  match i with
  | Int i => record (BLinear (mkLinear i o b)) (mkLinear i o b)
  | Float _ => sraise TypeError
  end.

(** [nn.Linear(i, o)] for Python integers of either sign: a tensor cannot
    be created with a negative dimension. *)
Definition new_Linear_int (i o : Z) (b : bool) : ctor Linear :=
  if decide (0 <= i /\ 0 <= o)%Z
  then new_Linear (Int (Z.to_nat i)) (Z.to_nat o) b
  else sraise RuntimeError.

Definition new_BatchNorm1d (n : nat) : ctor BatchNorm1d :=
  record (BBatchNorm1d (mkBatchNorm1d n)) (mkBatchNorm1d n).

(** A rate that [nn.Dropout] accepts. *)
Definition dropout_rate (p : Q) : Prop := (0 <= p <= 1)%Q.

(** [nn.Dropout(p)]: "dropout probability has to be between 0 and 1". *)
Definition new_Dropout (q : Q) : ctor Dropout :=
  if Qle_bool 0 q && Qle_bool q 1
  then record (BDropout (mkDropout q)) (mkDropout q)
  else sraise ValueError.
Definition new_LeakyReLU : ctor unit := record BLeakyReLU tt.
Definition new_Embedding (n d : nat) (pad : option nat) : ctor Embedding :=
  record (BEmbedding (mkEmbedding n d pad)) (mkEmbedding n d pad).

(** [nn.ModuleDict(d)] registers every module of [d] under its key, and
    [add_module] refuses a key that contains a dot. *)
Definition new_ModuleDict {M} (d : gmap string M) : ctor (gmap string M) :=
  if forallb (fun k => negb (contains "."%char k)) (map_to_list d).*1
  then sret d
  else sraise KeyError.

(** The operations on tensors that the residual blocks use, for any
    reading [T] of a tensor (its value, or only its shape). *)
Class TensorOps (T : Type) := {
  t_linear : Linear -> T -> result T;
  t_batch_norm1d : BatchNorm1d -> T -> result T;
  t_leaky_relu : T -> T;
  t_dropout : Dropout -> T -> T;
  (** the value [out] holds after [out += other] *)
  t_iadd : T -> T -> result T;
}.

Definition call_layer {T} `{TensorOps T} (l : Layer) (x : T) : result T :=
  match l with
  | ALinear l => t_linear l x
  | ABatchNorm1d b => t_batch_norm1d b x
  end.

(** Calling an [nn.Sequential]: each module on the result of the one
    before. *)
Fixpoint call_sequential {M T} (call : M -> T -> result T)
  (s : Sequential M) (x : T) : result T :=
  match s with
  | [] => ret x
  | (_, m) :: s' => let* y := call m x in call_sequential call s' y
  end.

End nn.

Import nn.

(** ** Tensors read by their shape *)

Module Shape.

Definition shape : Type := list nat.

(** Splitting a shape into its leading axes and its last axis. *)
Definition split_last (s : shape) : option (shape * nat) :=
  match reverse s with
  | [] => None
  | k :: pre => Some (reverse pre, k)
  end.

(** [nn.Linear]: the last axis goes from [in_features] to
    [out_features], the leading axes are kept. *)
Definition linear (l : Linear) (s : shape) : result shape :=
  match split_last s with
  | Some (pre, k) =>
      if decide (k = in_features l) then ret (pre ++ [out_features l])
      else raise RuntimeError
  | None => raise RuntimeError
  end.

(** [nn.BatchNorm1d] in training mode: [(N, C) -> (N, C)] or
    [(N, C, L) -> (N, C, L)] with [C = num_features].  The layer first
    checks the number of axes, then that there is "more than 1 value per
    channel", then hands the tensor to the library, which checks the
    channels. *)
Definition batch_norm1d (b : BatchNorm1d) (s : shape) : result shape :=
  match s with
  | [n; c] =>
      if decide (n = 1) then raise ValueError
      else if decide (c = num_features b) then ret s else raise RuntimeError
  | [n; c; l] =>
      if decide (n * l = 1) then raise ValueError
      else if decide (c = num_features b) then ret s else raise RuntimeError
  | _ => raise ValueError
  end.

(** Broadcasting of two shapes, aligned on their last axes. *)
Definition broadcast_axis (x y : nat) : option nat :=
  if decide (x = y) then Some x
  else if decide (x = 1) then Some y
  else if decide (y = 1) then Some x
  else None.

Fixpoint broadcast_rev (a b : shape) : option shape :=
  match a, b with
  | [], _ => Some b
  | _, [] => Some a
  | x :: a', y :: b' =>
      match broadcast_axis x y, broadcast_rev a' b' with
      | Some d, Some r => Some (d :: r)
      | _, _ => None
      end
  end.

Definition broadcast (a b : shape) : result shape :=
  match broadcast_rev (reverse a) (reverse b) with
  | Some r => ret (reverse r)
  | None => raise RuntimeError
  end.

(** [out += other]: [other] is broadcast to the shape of [out], which
    cannot change. *)
Definition iadd (out other : shape) : result shape :=
  let* r := broadcast out other in
  if decide (r = out) then ret out else raise RuntimeError.

(** [a * b]. *)
Definition mul (a b : shape) : result shape := broadcast a b.

(** The operations of the residual blocks, on shapes: an activation and
    a dropout keep the shape. *)
#[export] Instance shape_ops : TensorOps shape := {|
  t_linear := linear;
  t_batch_norm1d := batch_norm1d;
  t_leaky_relu := fun s => s;
  t_dropout := fun _ s => s;
  t_iadd := iadd;
|}.

(** [torch.cat(ts, 1)]: a non-empty list of tensors with at least two axes
    that agree on every axis but the second. *)
Definition cat1_two (a b : shape) : result shape :=
  match a, b with
  | n :: c :: r, n' :: c' :: r' =>
      if decide (n = n' /\ r = r') then ret (n :: (c + c') :: r)
      else raise RuntimeError
  | _, _ => raise RuntimeError
  end.

Fixpoint cat1_from (acc : shape) (ts : list shape) : result shape :=
  match ts with
  | [] => ret acc
  | t :: ts' => let* acc' := cat1_two acc t in cat1_from acc' ts'
  end.

Definition cat1 (ts : list shape) : result shape :=
  match ts with
  | [] => raise RuntimeError
  | [_] :: _ | [] :: _ => raise IndexError
  | t :: ts' => cat1_from t ts'
  end.

End Shape.

Import Shape.

(** ** A store of tensors

    The residual block works on tensor objects: a layer call returns a new
    tensor, [nn.LeakyReLU(inplace=True)] and [+=] overwrite the tensor they
    are given.  A reference is a position in the store.  The store holds
    the tensors that are handed from one call to the next; the parameters
    and buffers of the layers are not in it. *)

Module Store.

Section Store.
Context {T : Type}.

Definition heap : Type := list T.
Definition ref : Type := nat.

Definition alloc (v : T) : st heap ref :=
  fun h => (inr (length h), h ++ [v]).

Definition load (r : ref) : st heap T :=
  fun h => match h !! r with
           | Some v => (inr v, h)
           | None => (inl RuntimeError, h)
           end.

Definition store (r : ref) (v : T) : st heap unit :=
  fun h => (inr tt, <[r := v]> h).

(** A call that returns a new tensor. *)
Definition fresh (f : T -> result T) (r : ref) : st heap ref :=
  let+ v := load r in
  let+ v' := lift (f v) in
  alloc v'.

(** A call that overwrites its argument and returns it. *)
Definition inplace (f : T -> T) (r : ref) : st heap ref :=
  let+ v := load r in
  let+ _ := store r (f v) in
  sret r.

(** [out += other]. *)
Definition iadd_ (f : T -> T -> result T) (out other : ref) : st heap ref :=
  let+ a := load out in
  let+ b := load other in
  let+ s := lift (f a b) in
  let+ _ := store out s in
  sret out.

End Store.

End Store.

(** ** tab_resnet.py: BasicBlock *)

Module BasicBlock.

Record t := mk {
  lin1 : Linear;
  bn1 : BatchNorm1d;
  dropout : bool;
  dp : option Dropout;
  lin2 : Linear;
  bn2 : BatchNorm1d;
  resize : option (Sequential Layer);
}.

Definition __init__ (inp out : nat) (dropout : Q)
  (resize : option (Sequential Layer)) : ctor t :=
  let+ lin1 := new_Linear (Int inp) out true in
  let+ bn1 := new_BatchNorm1d out in
  let+ _ := new_LeakyReLU in
  let+ dp :=
    (if Qgtb dropout 0 then
       let+ d := new_Dropout dropout in sret (true, Some d)
     else sret (false, None)) in
  let+ lin2 := new_Linear (Int out) out true in
  let+ bn2 := new_BatchNorm1d out in
  sret {| lin1 := lin1; bn1 := bn1; dropout := dp.1; dp := dp.2;
          lin2 := lin2; bn2 := bn2; resize := resize |}.

Section Forward.
Context {T : Type} `{TensorOps T}.

(** [self.dp(out)]: the attribute exists only when the block was built
    with a positive dropout. *)
Definition call_dp (self : t) (x : T) : result T :=
  match dp self with
  | Some d => ret (t_dropout d x)
  | None => raise AttributeError
  end.

(** [forward], on the store: [x] is the reference the block is called
    with, the result is the reference it returns. *)
Definition forward (self : t) (x : Store.ref) : st (@Store.heap T) Store.ref :=
  let identity := x in
  let+ out := Store.fresh (t_linear (lin1 self)) x in
  let+ out := Store.fresh (t_batch_norm1d (bn1 self)) out in
  let+ out := Store.inplace t_leaky_relu out in
  let+ out :=
    (if dropout self then Store.fresh (call_dp self) out else sret out) in
  let+ out := Store.fresh (t_linear (lin2 self)) out in
  let+ out := Store.fresh (t_batch_norm1d (bn2 self)) out in
  let+ identity :=
    (match resize self with
     | Some r => Store.fresh (call_sequential call_layer r) x
     | None => sret identity
     end) in
  let+ out := Store.iadd_ t_iadd out identity in
  let+ out := Store.inplace t_leaky_relu out in
  sret out.

(** The block in the words of its description: the two linear and
    batch-norm stages, with the optional dropout after the first ... *)
Definition transform (self : t) (x : T) : result T :=
  let* out := t_linear (lin1 self) x in
  let* out := t_batch_norm1d (bn1 self) out in
  let out := t_leaky_relu out in
  let* out := (if dropout self then call_dp self out else ret out) in
  let* out := t_linear (lin2 self) out in
  t_batch_norm1d (bn2 self) out.

(** ... the input itself, or the resized input ... *)
Definition identity_of (self : t) (x : T) : result T :=
  match resize self with
  | Some r => call_sequential call_layer r x
  | None => ret x
  end.

(** ... and [leaky_relu(T(x) + identity)]. *)
Definition residual (self : t) (x : T) : result T :=
  let* out := transform self x in
  let* identity := identity_of self x in
  let* out := t_iadd out identity in
  ret (t_leaky_relu out).

End Forward.

End BasicBlock.

(** ** tab_resnet.py: DenseResnet *)

Module DenseResnet.

(** What [dense_resnet] holds: the two input layers, then the blocks. *)
Inductive module :=
| Prim (l : Layer)
| Block (b : BasicBlock.t).

Record t := mk {
  input_dim : num;
  blocks_dims : list nat;
  dropout : Q;
  dense_resnet : Sequential module;
}.

(** The body of the loop over [range(1, len(blocks_dims))]. *)
Definition add_block (blocks_dims : list nat) (dropout : Q) (i : nat)
  (dense_resnet : Sequential module) : ctor (Sequential module) :=
  let+ prev := lift (getitem blocks_dims (i - 1)) in
  let+ cur := lift (getitem blocks_dims i) in
  let+ resize :=
    (if decide (prev ≠ cur) then
       let+ l := new_Linear (Int prev) cur true in
       let+ b := new_BatchNorm1d cur in
       sret (Some [("0", ALinear l); ("1", ABatchNorm1d b)])
     else sret None) in
  let+ blk := BasicBlock.__init__ prev cur dropout resize in
  sret (add_module dense_resnet ("block_" +:+ pretty (i - 1)) (Block blk)).

Definition __init__ (input_dim : num) (blocks_dims : list nat) (dropout : Q)
  : ctor t :=
  let+ b0 := lift (getitem blocks_dims 0) in
  let+ dense_resnet :=
    (if decide (num_val input_dim ≠ b0) then
       let+ l := new_Linear input_dim b0 true in
       let+ b := new_BatchNorm1d b0 in
       sret [("lin1", Prim (ALinear l)); ("bn1", Prim (ABatchNorm1d b))]
     else sret []) in
  let+ dense_resnet :=
    for_ (range 1 (length blocks_dims)) (add_block blocks_dims dropout)
      dense_resnet in
  sret {| input_dim := input_dim; blocks_dims := blocks_dims;
          dropout := dropout; dense_resnet := dense_resnet |}.

Section Forward.
Context {T : Type} `{TensorOps T}.

Definition call_module (m : module) (x : T) : result T :=
  match m with
  | Prim l => call_layer l x
  | Block b => BasicBlock.residual b x
  end.

Definition forward (self : t) (X : T) : result T :=
  call_sequential call_module (dense_resnet self) X.

End Forward.

End DenseResnet.

(** ** The input of a tabular model: a two-dimensional tensor *)

Module Tensor.

(** The rows of the tensor and the number of its columns. *)
Record t := mk { rows : list (list Q); ncols : nat }.

(** Every row has [ncols] entries. *)
Definition wf (X : t) : Prop := Forall (fun r => length r = ncols X) (rows X).

Definition nrows (X : t) : nat := length (rows X).

(** [X[:, j]]. *)
Definition column (X : t) (j : nat) : result (list Q) :=
  if decide (j < ncols X) then ret (map (fun r => nth j r 0%Q) (rows X))
  else raise IndexError.

(** The shape of [X[:, js]]. *)
Definition columns (X : t) (js : list nat) : result shape :=
  if decide (Forall (fun j => j < ncols X) js) then ret [nrows X; length js]
  else raise IndexError.

(** [.long()]: the fractional part is dropped. *)
Definition trunc (q : Q) : Z := Z.quot (Qnum q) (Zpos (Qden q)).
Definition long (v : list Q) : list Z := map trunc v.

(** Whether [i] is an index into a table of [n] rows. *)
Definition in_table (n : nat) (i : Z) : Prop := (0 <= i < Z.of_nat n)%Z.

(** [nn.Embedding] called on a vector of indices: one row of width
    [embedding_dim] per index, each index within the table. *)
Definition embedding (e : Embedding) (idx : list Z) : result shape :=
  if decide (Forall (in_table (num_embeddings e)) idx)
  then ret [length idx; embedding_dim e]
  else raise IndexError.

End Tensor.

(** [[f(x) for x in xs]], where [f] may raise. *)
Fixpoint comprehension {X A} (f : X -> result A) (xs : list X)
  : result (list A) :=
  match xs with
  | [] => ret []
  | x :: xs' =>
      let* a := f x in
      let* r := comprehension f xs' in
      ret (a :: r)
  end.

(** [d[k]] on a dict. *)
Definition dict_get {V} (d : gmap string V) (k : string) : result V :=
  match d !! k with
  | Some v => ret v
  | None => raise KeyError
  end.

(** [np.sum] of a list of integers: the float [0.0] when the list is
    empty, else an integer (64 bits wide; the sizes of tensor axes, which
    are all that is summed here, stay far below its range). *)
Definition np_sum (l : list nat) : num :=
  match l with
  | [] => Float 0
  | _ => Int (sum_list l)
  end.

(** ** MLP *)

Module MLP.

(** Modelled from the spec: the class [MLP] of
    [pytorch_widedeep.models.tab_mlp], which both tabular models import, is
    not among the sources.  It is built from a list of widths and returns "a
    fixed-width tensor": one dense layer per pair of consecutive widths,
    each taking the last axis from one width to the next.  The docstrings
    of the two tabular models describe its settings: with [batchnorm],
    "batch normalization will be applied to the dense layers", to the last
    of them only with [batchnorm_last]; [linear_first] is "the order of the
    operations in the dense layer.  If True: [LIN -> ACT -> BN -> DP].  If
    False: [BN -> DP -> LIN -> ACT]".  The activation and the dropout keep
    shapes as they are, and nothing is known of a check on them. *)
Record dense := mkdense
  { lin : Linear; bn : option BatchNorm1d; linear_first : bool }.

Record t := mk { d_hidden : list nat; mlp : Sequential dense }.

(** Whether the dense layer that ends at [d_hidden[i]] is normalised. *)
Definition normalised (d_hidden : list nat) (batchnorm batchnorm_last : bool)
  (i : nat) : bool :=
  batchnorm && (negb (bool_decide (i = length d_hidden - 1)) || batchnorm_last).

Definition dense_layer (d_hidden : list nat)
  (batchnorm batchnorm_last linear_first : bool) (i : nat)
  (mlp : Sequential dense) : ctor (Sequential dense) :=
  let+ inp := lift (getitem d_hidden (i - 1)) in
  let+ out := lift (getitem d_hidden i) in
  let+ l := new_Linear (Int inp) out true in
  let+ b :=
    (if normalised d_hidden batchnorm batchnorm_last i then
       let+ b := new_BatchNorm1d (if linear_first then out else inp) in
       sret (Some b)
     else sret None) in
  sret (add_module mlp ("dense_layer_" +:+ pretty (i - 1))
          (mkdense l b linear_first)).

Definition __init__ (d_hidden : list nat) (activation : string) (dropout : Q)
  (batchnorm batchnorm_last linear_first : bool) : ctor t :=
  let+ mlp :=
    for_ (range 1 (length d_hidden))
      (dense_layer d_hidden batchnorm batchnorm_last linear_first) [] in
  sret {| d_hidden := d_hidden; mlp := mlp |}.

Definition call_bn (b : option BatchNorm1d) (X : shape) : result shape :=
  match b with
  | Some b => Shape.batch_norm1d b X
  | None => ret X
  end.

Definition call_dense (d : dense) (X : shape) : result shape :=
  if linear_first d then
    let* X := Shape.linear (lin d) X in call_bn (bn d) X
  else
    let* X := call_bn (bn d) X in Shape.linear (lin d) X.

Definition forward (self : t) (X : shape) : result shape :=
  call_sequential call_dense (mlp self) X.

End MLP.

(** ** tab_resnet.py: TabResnet *)

Module TabResnet.

(** The arguments of the constructor. *)
Record args := mkargs {
  embed_input : list (string * nat * nat);
  column_idx : gmap string nat;
  blocks_dims : list nat;
  blocks_dropout : Q;
  mlp_hidden_dims : option (list nat);
  mlp_activation : string;
  mlp_dropout : Q;
  mlp_batchnorm : bool;
  mlp_batchnorm_last : bool;
  mlp_linear_first : bool;
  embed_dropout : Q;
  continuous_cols : option (list string);
  batchnorm_cont : bool;
  concat_cont_first : bool;
}.

(** The model: the arguments it keeps and the attributes it builds. *)
Record t := mk {
  self_args : args;
  embed_layers : gmap string Embedding;
  embedding_dropout : Dropout;
  norm : option BatchNorm1d;
  tab_resnet : DenseResnet.t;
  tab_resnet_mlp : option MLP.t;
  output_dim : nat;
}.

(** The check on [blocks_dims]. *)
Definition check_blocks_dims (blocks_dims : list nat) : result unit :=
  if decide (length blocks_dims < 2) then raise ValueError else ret tt.

(** One entry of the dict comprehension that is handed to
    [nn.ModuleDict]: a later entry for the same column takes the place of
    an earlier one. *)
Definition add_embed_layer (e : string * nat * nat)
  (layers : gmap string Embedding) : ctor (gmap string Embedding) :=
  let '(col, val, dim) := e in
  let+ layer := new_Embedding (val + 1) dim (Some 0) in
  sret (<["emb_layer_" +:+ col := layer]> layers).

Definition __init__ (a : args) : ctor t :=
  let+ _ := lift (check_blocks_dims (blocks_dims a)) in
  let+ layers := for_ (embed_input a) add_embed_layer ∅ in
  let+ embed_layers := new_ModuleDict layers in
  let+ embedding_dropout := new_Dropout (embed_dropout a) in
  let emb_inp_dim := np_sum (map (fun embed => embed.2) (embed_input a)) in
  let+ cont :=
    (match continuous_cols a with
     | Some cols =>
         let cont_inp_dim := length cols in
         if batchnorm_cont a then
           let+ n := new_BatchNorm1d cont_inp_dim in
           sret (cont_inp_dim, Some n)
         else sret (cont_inp_dim, None)
     | None => sret (0, None)
     end) in
  let cont_inp_dim := cont.1 in
  let+ last_dim := lift (getlast (blocks_dims a)) in
  let dense_resnet_input_dim :=
    if concat_cont_first a then num_add emb_inp_dim cont_inp_dim
    else emb_inp_dim in
  let output_dim :=
    if concat_cont_first a then last_dim else cont_inp_dim + last_dim in
  let+ tab_resnet :=
    DenseResnet.__init__ dense_resnet_input_dim (blocks_dims a)
      (blocks_dropout a) in
  let+ mlp :=
    (match mlp_hidden_dims a with
     | Some hidden =>
         let mlp_input_dim :=
           if concat_cont_first a then last_dim
           else cont_inp_dim + last_dim in
         let mlp_hidden_dims := [mlp_input_dim] ++ hidden in
         let+ m :=
           MLP.__init__ mlp_hidden_dims (mlp_activation a) (mlp_dropout a)
             (mlp_batchnorm a) (mlp_batchnorm_last a) (mlp_linear_first a) in
         let+ out := lift (getlast mlp_hidden_dims) in
         sret (Some m, out)
     | None => sret (None, output_dim)
     end) in
  sret {| self_args := a; embed_layers := embed_layers;
          embedding_dropout := embedding_dropout; norm := cont.2;
          tab_resnet := tab_resnet; tab_resnet_mlp := mlp.1;
          output_dim := mlp.2 |}.

(** [self.norm] and [self.tab_resnet_mlp] exist only when the constructor
    set them. *)
Definition getattr {A} (o : option A) : result A :=
  match o with
  | Some a => ret a
  | None => raise AttributeError
  end.

(** The embedding of one categorical column. *)
Definition embed_column (self : t) (X : Tensor.t) (e : string * nat * nat)
  : result shape :=
  let '(col, _, _) := e in
  let* layer := dict_get (embed_layers self) ("emb_layer_" +:+ col) in
  let* j := dict_get (column_idx (self_args self)) col in
  let* x := Tensor.column X j in
  Tensor.embedding layer (Tensor.long x).

Definition forward (self : t) (X : Tensor.t) : result shape :=
  let a := self_args self in
  let* embed := comprehension (embed_column self X) (embed_input a) in
  let* x := cat1 embed in
  let x := t_dropout (embedding_dropout self) x in
  let* out :=
    (match continuous_cols a with
     | Some cols =>
         let* cont_idx := comprehension (dict_get (column_idx a)) cols in
         let* x_cont := Tensor.columns X cont_idx in
         let* x_cont :=
           (if batchnorm_cont a then
              let* n := getattr (norm self) in Shape.batch_norm1d n x_cont
            else ret x_cont) in
         if concat_cont_first a then
           let* x := cat1 [x; x_cont] in
           DenseResnet.forward (tab_resnet self) x
         else
           let* y := DenseResnet.forward (tab_resnet self) x in
           cat1 [y; x_cont]
     | None => DenseResnet.forward (tab_resnet self) x
     end) in
  match mlp_hidden_dims a with
  | Some _ =>
      let* m := getattr (tab_resnet_mlp self) in MLP.forward m out
  | None => ret out
  end.

End TabResnet.

(** ** Further shape contracts, used by the attention layers and the
       transformer *)

Module ShapeOps.

(** [t.softmax(dim)] for an axis counted from the front. *)
Definition softmax (dim : nat) (s : shape) : result shape :=
  if decide (dim < length s) then ret s else raise IndexError.

(** [t.softmax(dim=-1)]. *)
Definition softmax_last (s : shape) : result shape :=
  match s with
  | [] => raise IndexError
  | _ => ret s
  end.

(** [t.squeeze(dim)]: the axis is dropped when its length is one. *)
Definition squeeze (dim : nat) (s : shape) : result shape :=
  match s !! dim with
  | Some 1 => ret (delete dim s)
  | Some _ => ret s
  | None => raise IndexError
  end.

(** [t.sum(dim)]. *)
Definition sum (dim : nat) (s : shape) : result shape :=
  if decide (dim < length s) then ret (delete dim s) else raise IndexError.

(** [t.chunk(2, dim=-1)]: pieces of [ceil(k / 2)] entries of the last axis
    [k], the last piece shorter when [k] is odd; two empty pieces when
    [k = 0]. *)
Definition chunk2 (s : shape) : result (list shape) :=
  match split_last s with
  | Some (pre, k) =>
      let size := (k + 1) `div` 2 in
      if decide (k = 0) then ret [pre ++ [0]; pre ++ [0]]
      else if decide (k - size = 0) then ret [pre ++ [size]]
      else ret [pre ++ [size]; pre ++ [k - size]]
  | None => raise IndexError
  end.

(** [a, b = ts]. *)
Definition unpack2 {A} (ts : list A) : result (A * A) :=
  match ts with
  | [a; b] => ret (a, b)
  | _ => raise ValueError
  end.

(** [einops.rearrange(t, "b m (h d) -> b h m d", h=h)] for a Python
    integer [h]: the last axis is divided into [h] heads, and there is no
    tensor with a number of heads that is not positive. *)
Definition split_heads (h : Z) (s : shape) : result shape :=
  match s with
  | [b; m; hd] =>
      if decide (0 < h)%Z then
        if decide (hd `mod` Z.to_nat h = 0)
        then ret [b; Z.to_nat h; m; hd `div` Z.to_nat h]
        else raise RuntimeError
      else raise RuntimeError
  | _ => raise RuntimeError
  end.

(** [einops.rearrange(t, "b h s d -> b s (h d)", h=h)]. *)
Definition merge_heads (h : Z) (s : shape) : result shape :=
  match s with
  | [b; h'; s; d] =>
      if decide (Z.of_nat h' = h) then ret [b; s; h' * d]
      else raise RuntimeError
  | _ => raise RuntimeError
  end.

(** The length of an axis that two operands of [einsum] share. *)
Definition shared (x y : nat) : result nat :=
  match broadcast_axis x y with
  | Some d => ret d
  | None => raise RuntimeError
  end.

(** [einsum("b h s d, b h l d -> b h s l", q, k)]. *)
Definition einsum_scores (q k : shape) : result shape :=
  match q, k with
  | [b; h; s; d], [b'; h'; l; d'] =>
      let* b := shared b b' in
      let* h := shared h h' in
      let* _ := shared d d' in
      ret [b; h; s; l]
  | _, _ => raise RuntimeError
  end.

(** [einsum("b h s l, b h l d -> b h s d", w, x)]. *)
Definition einsum_output (w x : shape) : result shape :=
  match w, x with
  | [b; h; s; l], [b'; h'; l'; d] =>
      let* b := shared b b' in
      let* h := shared h h' in
      let* _ := shared l l' in
      ret [b; h; s; d]
  | _, _ => raise RuntimeError
  end.

(** [x[:, 0, :]]. *)
Definition select_first (s : shape) : result shape :=
  match s with
  | [n; f; d] => if decide (f = 0) then raise IndexError else ret [n; d]
  | _ => raise IndexError
  end.

(** [x.flatten(1)]. *)
Definition flatten1 (s : shape) : result shape :=
  match s with
  | n :: (_ :: _) as r => ret [n; foldr Nat.mul 1 r]
  | _ => raise IndexError
  end.

End ShapeOps.

Import ShapeOps.

(** ** _attention_layers.py: ContextAttention *)

(** The operations on tensors that the context attention uses, for any
    reading [T] of a tensor (its value, or only its shape). *)
Class AttnOps (T : Type) := {
  a_linear : Linear -> T -> result T;
  (** the value a tensor holds after [torch.tanh_] *)
  a_tanh : T -> T;
  a_softmax : nat -> T -> result T;
  a_squeeze : nat -> T -> result T;
  a_dropout : Dropout -> T -> T;
  a_mul : T -> T -> result T;
  a_sum : nat -> T -> result T;
}.

(** The operations of the context attention, on shapes. *)
#[export] Instance shape_attn_ops : AttnOps shape := {|
  a_linear := Shape.linear;
  a_tanh := fun s => s;
  a_softmax := softmax;
  a_squeeze := squeeze;
  a_dropout := fun _ s => s;
  a_mul := Shape.mul;
  a_sum := sum;
|}.

Module ContextAttention.

Record t := mk {
  inp_proj : Linear;
  context : Linear;
  dropout : Dropout;
  sum_along_seq : bool;
}.

Definition __init__ (input_dim : nat) (dropout : Q) (sum_along_seq : bool)
  : ctor t :=
  let+ inp_proj := new_Linear (Int input_dim) input_dim true in
  let+ context := new_Linear (Int input_dim) 1 false in
  let+ dropout := new_Dropout dropout in
  sret {| inp_proj := inp_proj; context := context; dropout := dropout;
          sum_along_seq := sum_along_seq |}.

Section Forward.
Context {T : Type} `{AttnOps T}.

(** [forward] returns its output, and with it the tensor that it leaves
    in [self.attn_weights].  [torch.tanh_] overwrites the tensor that the
    projection has just returned, which nothing else refers to. *)
Definition forward (self : t) (X : T) : result (T * T) :=
  let* scores := a_linear (inp_proj self) X in
  let scores := a_tanh scores in
  let* attn_weights := a_linear (context self) scores in
  let* attn_weights := a_softmax 1 attn_weights in
  let* kept := a_squeeze 2 attn_weights in
  let attn_weights := a_dropout (dropout self) attn_weights in
  let* output :=
    (if sum_along_seq self then
       let* weighted := a_mul attn_weights X in a_sum 1 weighted
     else a_mul attn_weights X) in
  ret (output, kept).

(** The layer in the words of its description.  The attention weights:
    one relevance score per position of the sequence, from the context
    vector applied to the projected input, normalised along the sequence
    axis ... *)
Definition attention (self : t) (X : T) : result T :=
  let* projected := a_linear (inp_proj self) X in
  let* scores := a_linear (context self) (a_tanh projected) in
  a_softmax 1 scores.

(** ... the input weighted by them, elementwise ... *)
Definition weighted (self : t) (X : T) : result T :=
  let* w := attention self X in
  a_mul (a_dropout (dropout self) w) X.

(** ... and the combination that the layer returns: the weighted input,
    summed along the sequence axis when [sum_along_seq] is set. *)
Definition combination (self : t) (X : T) : result T :=
  let* wx := weighted self X in
  if sum_along_seq self then a_sum 1 wx else ret wx.

End Forward.

End ContextAttention.

(** ** _attention_layers.py: QueryKeySelfAttention *)

Module QueryKeySelfAttention.

Record t := mk {
  head_dim : Z;
  n_heads : Z;
  qk_proj : Linear;
  dropout : Dropout;
  attn_weights : option shape;
}.

(** [input_dim] and [n_heads] are Python integers: the check and the
    division are made on them as they are given. *)
Definition __init__ (input_dim : Z) (use_bias : bool) (dropout : Q)
  (n_heads : Z) : ctor t :=
  let+ r := lift (int_mod input_dim n_heads) in
  let+ _ := lift (assert_ (bool_decide (r = 0%Z))) in
  let+ head_dim := lift (int_floordiv input_dim n_heads) in
  let+ qk_proj := new_Linear_int input_dim (input_dim * 2) use_bias in
  let+ dropout := new_Dropout dropout in
  sret {| head_dim := head_dim; n_heads := n_heads; qk_proj := qk_proj;
          dropout := dropout; attn_weights := None |}.

Definition forward (self : t) (X : shape) : result (shape * t) :=
  let* qk := Shape.linear (qk_proj self) X in
  let* chunks := chunk2 qk in
  let* (q, k) := unpack2 chunks in
  let* q := split_heads (n_heads self) q in
  let* k := split_heads (n_heads self) k in
  let* x_rearr := split_heads (n_heads self) X in
  let* scores := einsum_scores q k in
  let* attn_weights := softmax_last scores in
  let self' :=
    {| head_dim := head_dim self; n_heads := n_heads self;
       qk_proj := qk_proj self; dropout := dropout self;
       attn_weights := Some attn_weights |} in
  let attn_weights := t_dropout (dropout self) attn_weights in
  let* attn_output := einsum_output attn_weights x_rearr in
  let* output := merge_heads (n_heads self) attn_output in
  ret (output, self').

End QueryKeySelfAttention.

(** ** The base class of the attention-based tabular models *)

Module BaseTabularModelWithAttention.

(** Modelled from the spec: the class [BaseTabularModelWithAttention] of
    [pytorch_widedeep.models.tabular._base_tabular_model], from which
    [TabTransformer] inherits [cat_and_cont_embed], [_get_embeddings],
    [cat_embed_act_fn], [embed_continuous] and [input_dim], is not among the
    sources.  Following the spec, the model takes "a single two-dimensional
    numeric tensor (rows = samples, columns = feature slots indexed by a
    fixed name-to-column mapping)", an embedding is a "lookup mapping a
    discrete category index to a dense numeric vector", "all numeric/shape
    mismatches at computation time are surfaced by the underlying tensor
    library", and [input_dim] is the width of the vector that encodes a
    column.  So the columns are read from the input at the positions that
    [column_idx] gives them; every code of a categorical column is looked
    up in a table that, as the embedding layers of [TabResnet] do, holds
    the codes from [0], the padding, to the number of values declared
    for the column, and becomes a vector of width [input_dim]; the
    continuous columns are normalised, which keeps their shape, and, when
    [embed_continuous] is set, become one such vector each as well. *)
Record t := mk {
  column_idx : gmap string nat;
  cat_embed_input : option (list (string * nat));
  cat_embed_activation : option string;
  continuous_cols : option (list string);
  embed_continuous : bool;
  input_dim : nat;
}.

Definition __init__ (column_idx : gmap string nat)
  (cat_embed_input : option (list (string * nat)))
  (cat_embed_activation : option string)
  (continuous_cols : option (list string)) (embed_continuous : bool)
  (input_dim : nat) : ctor t :=
  sret {| column_idx := column_idx; cat_embed_input := cat_embed_input;
          cat_embed_activation := cat_embed_activation;
          continuous_cols := continuous_cols;
          embed_continuous := embed_continuous; input_dim := input_dim |}.

(** The embedding of one categorical column: [(N, input_dim)]. *)
Definition embed_column (self : t) (X : Tensor.t) (c : string * nat)
  : result shape :=
  let* j := dict_get (column_idx self) c.1 in
  let* x := Tensor.column X j in
  Tensor.embedding (mkEmbedding (c.2 + 1) (input_dim self) (Some 0))
    (Tensor.long x).

(** [cat_and_cont_embed(X)]: the pair [(x_cat, x_cont)], each [None] when
    the model has no column of that kind. *)
Definition cat_and_cont_embed (self : t) (X : Tensor.t)
  : result (option shape * option shape) :=
  let* x_cat :=
    (match cat_embed_input self with
     | Some cats =>
         let* _ := comprehension (embed_column self X) cats in
         ret (Some [Tensor.nrows X; length cats; input_dim self])
     | None => ret None
     end) in
  let* x_cont :=
    (match continuous_cols self with
     | Some cols =>
         let* cont_idx := comprehension (dict_get (column_idx self)) cols in
         let* x := Tensor.columns X cont_idx in
         if embed_continuous self
         then ret (Some [Tensor.nrows X; length cols; input_dim self])
         else ret (Some x)
     | None => ret None
     end) in
  ret (x_cat, x_cont).

(** [cat_embed_act_fn]: an activation keeps the shape. *)
Definition cat_embed_act_fn (self : t) : option (shape -> shape) :=
  match cat_embed_activation self with
  | Some _ => Some (fun s => s)
  | None => None
  end.

(** [_get_embeddings(X)]: the embedded categorical and continuous columns,
    side by side along the second axis. *)
Definition _get_embeddings (self : t) (X : Tensor.t) : result shape :=
  let* (x_cat, x_cont) := cat_and_cont_embed self X in
  match x_cat, x_cont with
  | Some c, Some n => cat1 [c; n]
  | Some c, None => ret c
  | None, Some n => ret n
  | None, None => raise UnboundLocalError
  end.

End BaseTabularModelWithAttention.

(** ** The transformer block *)

Module TransformerEncoder.

(** Modelled from the spec: the class [TransformerEncoder] of
    [pytorch_widedeep.models.tabular.transformers._encoders] is not among
    the sources.  Following the spec, construction rejects "an attention
    head count that does not evenly divide the embedding width", and the
    block is multi-head self-attention over the embedded columns: it
    returns a tensor of the shape of its input, whose last axis is the
    embedding width. *)
Record t := mk { input_dim : nat; n_heads : nat }.

Definition __init__ (input_dim n_heads : nat) (use_qkv_bias : bool)
  (attn_dropout ff_dropout : Q) (activation : string) : ctor t :=
  let+ r := lift (mod_ input_dim n_heads) in
  let+ _ := lift (assert_ (bool_decide (r = 0))) in
  sret {| input_dim := input_dim; n_heads := n_heads |}.

Definition forward (self : t) (X : shape) : result shape :=
  match X with
  | [_; _; d] => if decide (d = input_dim self) then ret X
                 else raise RuntimeError
  | _ => raise RuntimeError
  end.

End TransformerEncoder.

(** ** tab_transformer.py: TabTransformer *)

Module TabTransformer.

(** The arguments of the constructor that the modelled code reads. *)
Record args := mkargs {
  column_idx : gmap string nat;
  cat_embed_input : option (list (string * nat));
  cat_embed_activation : option string;
  continuous_cols : option (list string);
  embed_continuous : bool;
  input_dim : nat;
  n_heads : nat;
  use_qkv_bias : bool;
  n_blocks : nat;
  attn_dropout : Q;
  ff_dropout : Q;
  transformer_activation : string;
  mlp_hidden_dims : option (list nat);
  mlp_activation : string;
  mlp_dropout : Q;
  mlp_batchnorm : bool;
  mlp_batchnorm_last : bool;
  mlp_linear_first : bool;
}.

(** The attributes set before the transformer blocks are built. *)
Record attrs := mkattrs {
  base : BaseTabularModelWithAttention.t;
  self_args : args;
  with_cls_token : bool;
  n_cat : nat;
  n_cont : nat;
}.

Record t := mk {
  self_attrs : attrs;
  transformer_blks : Sequential TransformerEncoder.t;
  transformer_mlp : MLP.t;
  output_dim : nat;
}.

Definition embed_continuous_of (self : attrs) : bool :=
  BaseTabularModelWithAttention.embed_continuous (base self).
Definition input_dim_of (self : attrs) : nat :=
  BaseTabularModelWithAttention.input_dim (base self).

(** The check on feature sets with continuous columns only: the
    condition of the [if], with Python's truth values of integers. *)
Definition only_continuous (self : attrs) : bool :=
  bool_decide (n_cont self ≠ 0) && negb (bool_decide (n_cat self ≠ 0))
  && negb (embed_continuous_of self).

Definition check_only_continuous (self : attrs) : result unit :=
  if only_continuous self then raise ValueError else ret tt.

Definition _compute_attn_output_dim (self : attrs) : nat :=
  if with_cls_token self then
    if embed_continuous_of self then input_dim_of self
    else input_dim_of self + n_cont self
  else if embed_continuous_of self then
    (n_cat self + n_cont self) * input_dim_of self
  else n_cat self * input_dim_of self + n_cont self.

(** The body of the loop over [range(n_blocks)]. *)
Definition add_block (a : args) (i : nat)
  (blks : Sequential TransformerEncoder.t)
  : ctor (Sequential TransformerEncoder.t) :=
  let+ blk :=
    TransformerEncoder.__init__ (input_dim a) (n_heads a) (use_qkv_bias a)
      (attn_dropout a) (ff_dropout a) (transformer_activation a) in
  sret (add_module blks ("transformer_block" +:+ pretty i) blk).

(** [len(c) if c is not None else 0]. *)
Definition len_or_0 {A} (c : option (list A)) : nat :=
  match c with
  | Some l => length l
  | None => 0
  end.

(** [not mlp_hidden_dims]: [None], or the empty list. *)
Definition not_ {A} (c : option (list A)) : bool :=
  match c with
  | Some (_ :: _) => false
  | _ => true
  end.

Definition __init__ (a : args) : ctor t :=
  let+ base :=
    BaseTabularModelWithAttention.__init__ (column_idx a)
      (cat_embed_input a) (cat_embed_activation a) (continuous_cols a)
      (embed_continuous a) (input_dim a) in
  let self :=
    {| base := base; self_args := a;
       with_cls_token := bool_decide (is_Some (column_idx a !! "cls_token"));
       n_cat := len_or_0 (cat_embed_input a);
       n_cont := len_or_0 (continuous_cols a) |} in
  let+ _ := lift (check_only_continuous self) in
  let+ transformer_blks := for_ (range 0 (n_blocks a)) (add_block a) [] in
  let attn_output_dim := _compute_attn_output_dim self in
  let mlp_hidden_dims :=
    if not_ (mlp_hidden_dims a) then
      [attn_output_dim; attn_output_dim * 4; attn_output_dim * 2]
    else [attn_output_dim] ++ default [] (mlp_hidden_dims a) in
  let+ transformer_mlp :=
    MLP.__init__ mlp_hidden_dims (mlp_activation a) (mlp_dropout a)
      (mlp_batchnorm a) (mlp_batchnorm_last a) (mlp_linear_first a) in
  let+ output_dim := lift (getlast mlp_hidden_dims) in
  sret {| self_attrs := self; transformer_blks := transformer_blks;
          transformer_mlp := transformer_mlp; output_dim := output_dim |}.

(** The representation that [forward] hands to the final MLP. *)
Definition attn_output (self : t) (X : Tensor.t) : result shape :=
  let s := self_attrs self in
  let* (x, x_cont) :=
    (if negb (embed_continuous_of s) then
       let* (x_cat, x_cont) :=
         BaseTabularModelWithAttention.cat_and_cont_embed (base s) X in
       let x :=
         match x_cat with
         | Some x_cat =>
             match BaseTabularModelWithAttention.cat_embed_act_fn (base s) with
             | Some act => Some (act x_cat)
             | None => Some x_cat
             end
         | None => None
         end in
       ret (x, x_cont)
     else
       let* x := BaseTabularModelWithAttention._get_embeddings (base s) X in
       ret (Some x, None)) in
  let* x :=
    (match x with
     | Some x => ret x
     | None => raise UnboundLocalError
     end) in
  let* x := call_sequential TransformerEncoder.forward
              (transformer_blks self) x in
  let* x := (if with_cls_token s then select_first x else flatten1 x) in
  match x_cont with
  | Some x_cont =>
      if negb (embed_continuous_of s) then cat1 [x; x_cont] else ret x
  | None => ret x
  end.

Definition forward (self : t) (X : Tensor.t) : result shape :=
  let* x := attn_output self X in
  MLP.forward (transformer_mlp self) x.

End TabTransformer.

(** ** The table of an embedding layer

    [nn.Embedding(num_embeddings, embedding_dim, padding_idx)] holds one
    row per index.  At construction the rows are drawn at random ([init])
    and the row at [padding_idx] is set to zero; the gradient of that row
    is zero, so that a training step leaves it as it is. *)

Module EmbeddingTable.

Abbreviation table := (list (list Q)).

Definition zeros (d : nat) : list Q := replicate d 0%Q.

Definition is_padding (e : Embedding) (i : nat) : bool :=
  bool_decide (padding_idx e = Some i).

(** The table after construction. *)
Definition weight (e : Embedding) (init : nat -> list Q) : table :=
  (fun i => if is_padding e i then zeros (embedding_dim e) else init i)
  <$> seq 0 (num_embeddings e).

(** The vector of one index. *)
Definition lookup (w : table) (i : Z) : result (list Q) :=
  if decide (0 <= i)%Z then getitem w (Z.to_nat i) else raise IndexError.

(** One training step: every row moves by its update, the row at
    [padding_idx] receives none. *)
Definition step (e : Embedding) (update : nat -> list Q -> list Q)
  (w : table) : table :=
  imap (fun i row => if is_padding e i then row else update i row) w.

End EmbeddingTable.

(** ** Configurations and inputs that the tabular models are meant for *)

Module Valid.

(** [TabResnet] "assumes that there are categorical columns"; a column is
    declared once. *)
Definition TabResnet_args (a : TabResnet.args) : Prop :=
  TabResnet.embed_input a ≠ []
  /\ NoDup (map (fun e => e.1.1) (TabResnet.embed_input a)).

(** The column [col] is a column of [X]. *)
Definition has_column (column_idx : gmap string nat) (X : Tensor.t)
  (col : string) : Prop :=
  match column_idx !! col with
  | Some j => j < Tensor.ncols X
  | None => False
  end.

(** The column [col] of [X] holds category codes between [0] and [val]. *)
Definition has_codes (column_idx : gmap string nat) (X : Tensor.t)
  (e : string * nat * nat) : Prop :=
  match column_idx !! e.1.1 with
  | Some j =>
      j < Tensor.ncols X
      /\ Forall (fun r => Tensor.in_table (e.1.2 + 1)
                            (Tensor.trunc (nth j r 0%Q))) (Tensor.rows X)
  | None => False
  end.

(** [X] is an input for a [TabResnet] built from [a]: a two-dimensional
    tensor that has the declared columns, the categorical ones holding
    category codes. *)
Definition TabResnet_input (a : TabResnet.args) (X : Tensor.t) : Prop :=
  Tensor.wf X
  /\ Forall (has_codes (TabResnet.column_idx a) X) (TabResnet.embed_input a)
  /\ Forall (has_column (TabResnet.column_idx a) X)
       (default [] (TabResnet.continuous_cols a)).



End Valid.

(** * The constructed objects in closed form, and examples

    What the constructors return, written without the loops and the
    record of built layers; the notions that the statements below use;
    and small configurations and inputs to run the definitions on. *)

(** The call [m] ends in [r], whatever the state it starts from. *)
Definition yields {S A} (m : st S A) (r : result A) : Prop :=
  forall s, (m s).1 = r.

(** The call [m] never raises [e]. *)
Definition never {S A} (e : exn) (m : st S A) : Prop :=
  forall s, (m s).1 <> inl e.

(** A run that started on the store [h0] agrees with a value computed
    without a store: it returns a tensor that holds the value, the tensors
    of [h0] are as they were; or both raise. *)
Definition agrees {T} (h0 : @Store.heap T) (spec : result T)
  (run : result Store.ref * @Store.heap T) : Prop :=
  match spec with
  | inr v =>
      exists r h', run = (inr r, h') /\ h' !! r = Some v
                   /\ forall i, i < length h0 -> h' !! i = h0 !! i
  | inl e => exists h', run = (inl e, h')
  end.

(** The entry that a loop registers at index [i]: the module [item i]
    under the name [prefix] followed by [i - off]. *)
Definition numbered {M} (prefix : string) (off : nat) (item : nat -> M)
  (i : nat) : string * M :=
  (prefix +:+ pretty (i - off), item i).

(** The block that [BasicBlock(inp, out, dropout, resize)] returns. *)
Definition built_block (inp out : nat) (dropout : Q)
  (resize : option (Sequential Layer)) : BasicBlock.t :=
  {| BasicBlock.lin1 := mkLinear inp out true;
     BasicBlock.bn1 := mkBatchNorm1d out;
     BasicBlock.dropout := Qgtb dropout 0;
     BasicBlock.dp := if Qgtb dropout 0 then Some (mkDropout dropout) else None;
     BasicBlock.lin2 := mkLinear out out true;
     BasicBlock.bn2 := mkBatchNorm1d out;
     BasicBlock.resize := resize |}.

(** The resize module between two widths: present when they differ. *)
Definition resize_for (prev cur : nat) : option (Sequential Layer) :=
  if decide (prev ≠ cur) then
    Some [("0", ALinear (mkLinear prev cur true));
          ("1", ABatchNorm1d (mkBatchNorm1d cur))]
  else None.

(** The module that the loop of [DenseResnet] registers at index [i]. *)
Definition block_at (dims : list nat) (dropout : Q) (i : nat)
  : DenseResnet.module :=
  DenseResnet.Block
    (built_block (dims !!! (i - 1)) (dims !!! i) dropout
       (resize_for (dims !!! (i - 1)) (dims !!! i))).

(** The layers in front of the blocks. *)
Definition stem (d b0 : nat) : Sequential DenseResnet.module :=
  if decide (d ≠ b0) then
    [("lin1", DenseResnet.Prim (ALinear (mkLinear d b0 true)));
     ("bn1", DenseResnet.Prim (ABatchNorm1d (mkBatchNorm1d b0)))]
  else [].

(** The blocks of a [dense_resnet], in order. *)
Definition blocks_of (s : Sequential DenseResnet.module) : list BasicBlock.t :=
  omap (fun nm => match nm.2 with
                  | DenseResnet.Block b => Some b
                  | DenseResnet.Prim _ => None
                  end) s.

(** The [dense_resnet] of a [DenseResnet] built with an integer
    [input_dim]. *)
Definition built_dense_resnet (d : nat) (dims : list nat) (dropout : Q)
  : Sequential DenseResnet.module :=
  stem d (dims !!! 0)
  ++ (numbered "block_" 1 (block_at dims dropout) <$> seq 1 (length dims - 1)).

(** The dense layer of an [MLP] that ends at [d_hidden[i]]. *)
Definition built_dense (d_hidden : list nat)
  (batchnorm batchnorm_last linear_first : bool) (i : nat) : MLP.dense :=
  MLP.mkdense (mkLinear (d_hidden !!! (i - 1)) (d_hidden !!! i) true)
    (if MLP.normalised d_hidden batchnorm batchnorm_last i
     then Some (mkBatchNorm1d (if linear_first then d_hidden !!! i
                               else d_hidden !!! (i - 1)))
     else None)
    linear_first.

(** The [mlp] of an [MLP] built from the widths [d_hidden]. *)
Definition built_mlp (d_hidden : list nat)
  (batchnorm batchnorm_last linear_first : bool) : Sequential MLP.dense :=
  numbered "dense_layer_" 1
    (built_dense d_hidden batchnorm batchnorm_last linear_first)
  <$> seq 1 (length d_hidden - 1).

(** The key of a declared column in [embed_layers]. *)
Definition embed_key (e : string * nat * nat) : string :=
  "emb_layer_" +:+ e.1.1.

(** The layer of a column declared with [val] values and width [dim]. *)
Definition embed_layer_of (e : string * nat * nat) : Embedding :=
  mkEmbedding (e.1.2 + 1) e.2 (Some 0).

(** The dict that the comprehension over [embed_input] leaves. *)
Definition built_embed_layers (l : list (string * nat * nat))
  : gmap string Embedding :=
  foldl (fun m e => <[embed_key e := embed_layer_of e]> m) ∅ l.

(** The number of continuous columns. *)
Definition cont_inp_dim (a : TabResnet.args) : nat :=
  length (default [] (TabResnet.continuous_cols a)).

(** The sum of the embedding widths. *)
Definition emb_inp_dim (a : TabResnet.args) : nat :=
  sum_list (map (fun e => e.2) (TabResnet.embed_input a)).

(** The width that enters the residual network. *)
Definition resnet_input_dim (a : TabResnet.args) : nat :=
  if TabResnet.concat_cont_first a then emb_inp_dim a + cont_inp_dim a
  else emb_inp_dim a.

(** [blocks_dims[-1]]. *)
Definition last_block_dim (a : TabResnet.args) : nat :=
  TabResnet.blocks_dims a !!! (length (TabResnet.blocks_dims a) - 1).

(** The width that leaves the residual network and the continuous
    columns. *)
Definition resnet_output_dim (a : TabResnet.args) : nat :=
  if TabResnet.concat_cont_first a then last_block_dim a
  else cont_inp_dim a + last_block_dim a.

(** [self.norm], set when there are continuous columns to normalise. *)
Definition built_norm (a : TabResnet.args) : option BatchNorm1d :=
  match TabResnet.continuous_cols a with
  | Some cols =>
      if TabResnet.batchnorm_cont a then Some (mkBatchNorm1d (length cols))
      else None
  | None => None
  end.

(** The model that [TabResnet(...)] returns when it returns one for a
    configuration with at least one categorical column. *)
Definition built_TabResnet (a : TabResnet.args) : TabResnet.t :=
  {| TabResnet.self_args := a;
     TabResnet.embed_layers := built_embed_layers (TabResnet.embed_input a);
     TabResnet.embedding_dropout := mkDropout (TabResnet.embed_dropout a);
     TabResnet.norm := built_norm a;
     TabResnet.tab_resnet :=
       DenseResnet.mk (Int (resnet_input_dim a)) (TabResnet.blocks_dims a)
         (TabResnet.blocks_dropout a)
         (built_dense_resnet (resnet_input_dim a) (TabResnet.blocks_dims a)
            (TabResnet.blocks_dropout a));
     TabResnet.tab_resnet_mlp :=
       match TabResnet.mlp_hidden_dims a with
       | Some hidden =>
           Some (MLP.mk (resnet_output_dim a :: hidden)
                   (built_mlp (resnet_output_dim a :: hidden)
                      (TabResnet.mlp_batchnorm a)
                      (TabResnet.mlp_batchnorm_last a)
                      (TabResnet.mlp_linear_first a)))
       | None => None
       end;
     TabResnet.output_dim :=
       match TabResnet.mlp_hidden_dims a with
       | Some hidden => (resnet_output_dim a :: hidden) !!! length hidden
       | None => resnet_output_dim a
       end |}.

(** A model over two categorical columns and one continuous column, and
    an input of two rows. *)
Definition example_args : TabResnet.args :=
  {| TabResnet.embed_input := [("a", 4, 8); ("b", 4, 8)];
     TabResnet.column_idx := <["a" := 0]> (<["b" := 1]> {["e" := 2]});
     TabResnet.blocks_dims := [16; 4];
     TabResnet.blocks_dropout := 0%Q;
     TabResnet.mlp_hidden_dims := None;
     TabResnet.mlp_activation := "relu";
     TabResnet.mlp_dropout := 0%Q;
     TabResnet.mlp_batchnorm := false;
     TabResnet.mlp_batchnorm_last := false;
     TabResnet.mlp_linear_first := false;
     TabResnet.embed_dropout := 0%Q;
     TabResnet.continuous_cols := Some ["e"];
     TabResnet.batchnorm_cont := false;
     TabResnet.concat_cont_first := true |}.

(** Two rows: the codes of the columns [a] and [b], the value of [e]. *)
Definition example_input : Tensor.t :=
  {| Tensor.rows := [[1; 4; 1 # 2]; [0; 2; 3 # 2]]%Q; Tensor.ncols := 3 |}.

(** The first of these rows alone. *)
Definition example_row : Tensor.t :=
  {| Tensor.rows := [[1; 4; 1 # 2]]%Q; Tensor.ncols := 3 |}.

(** A configuration with one continuous column and no categorical one. *)
Definition example_args_continuous : TabResnet.args :=
  {| TabResnet.embed_input := [];
     TabResnet.column_idx := {["e" := 0]};
     TabResnet.blocks_dims := [1; 4];
     TabResnet.blocks_dropout := 0%Q;
     TabResnet.mlp_hidden_dims := None;
     TabResnet.mlp_activation := "relu";
     TabResnet.mlp_dropout := 0%Q;
     TabResnet.mlp_batchnorm := false;
     TabResnet.mlp_batchnorm_last := false;
     TabResnet.mlp_linear_first := false;
     TabResnet.embed_dropout := 0%Q;
     TabResnet.continuous_cols := Some ["e"];
     TabResnet.batchnorm_cont := false;
     TabResnet.concat_cont_first := true |}.

(** The attributes that the constructor sets before it builds the blocks. *)
Definition built_attrs (a : TabTransformer.args) : TabTransformer.attrs :=
  {| TabTransformer.base :=
       BaseTabularModelWithAttention.mk (TabTransformer.column_idx a)
         (TabTransformer.cat_embed_input a)
         (TabTransformer.cat_embed_activation a)
         (TabTransformer.continuous_cols a)
         (TabTransformer.embed_continuous a) (TabTransformer.input_dim a);
     TabTransformer.self_args := a;
     TabTransformer.with_cls_token :=
       bool_decide (is_Some (TabTransformer.column_idx a !! "cls_token"));
     TabTransformer.n_cat :=
       TabTransformer.len_or_0 (TabTransformer.cat_embed_input a);
     TabTransformer.n_cont :=
       TabTransformer.len_or_0 (TabTransformer.continuous_cols a) |}.

(** The widths that the final MLP is built from. *)
Definition mlp_dims (a : TabTransformer.args) : list nat :=
  let attn_output_dim :=
    TabTransformer._compute_attn_output_dim (built_attrs a) in
  if TabTransformer.not_ (TabTransformer.mlp_hidden_dims a) then
    [attn_output_dim; attn_output_dim * 4; attn_output_dim * 2]
  else [attn_output_dim] ++ default [] (TabTransformer.mlp_hidden_dims a).

(** A transformer over two categorical columns and one continuous column
    that is not embedded. *)
Definition example_transformer_args : TabTransformer.args :=
  {| TabTransformer.column_idx := <["a" := 0]> (<["b" := 1]> {["e" := 2]});
     TabTransformer.cat_embed_input := Some [("a", 4); ("b", 4)];
     TabTransformer.cat_embed_activation := None;
     TabTransformer.continuous_cols := Some ["e"];
     TabTransformer.embed_continuous := false;
     TabTransformer.input_dim := 8;
     TabTransformer.n_heads := 2;
     TabTransformer.use_qkv_bias := false;
     TabTransformer.n_blocks := 2;
     TabTransformer.attn_dropout := 0%Q;
     TabTransformer.ff_dropout := 0%Q;
     TabTransformer.transformer_activation := "gelu";
     TabTransformer.mlp_hidden_dims := None;
     TabTransformer.mlp_activation := "relu";
     TabTransformer.mlp_dropout := 0%Q;
     TabTransformer.mlp_batchnorm := false;
     TabTransformer.mlp_batchnorm_last := false;
     TabTransformer.mlp_linear_first := true |}.


(** What its constructor returns: two blocks, and an MLP over the widths
    [17 = 2 * 8 + 1], [68] and [34]. *)
Definition example_transformer : TabTransformer.t :=
  {| TabTransformer.self_attrs := built_attrs example_transformer_args;
     TabTransformer.transformer_blks :=
       [("transformer_block0", TransformerEncoder.mk 8 2);
        ("transformer_block1", TransformerEncoder.mk 8 2)];
     TabTransformer.transformer_mlp :=
       MLP.mk [17; 68; 34]
         [("dense_layer_0", MLP.mkdense (mkLinear 17 68 true) None true);
          ("dense_layer_1", MLP.mkdense (mkLinear 68 34 true) None true)];
     TabTransformer.output_dim := 34 |}.

(** A block with a resize module, called on a tensor of four rows. *)
Definition example_block : BasicBlock.t :=
  {| BasicBlock.lin1 := mkLinear 3 2 true;
     BasicBlock.bn1 := mkBatchNorm1d 2;
     BasicBlock.dropout := false;
     BasicBlock.dp := None;
     BasicBlock.lin2 := mkLinear 2 2 true;
     BasicBlock.bn2 := mkBatchNorm1d 2;
     BasicBlock.resize :=
       Some [("0", ALinear (mkLinear 3 2 true));
             ("1", ABatchNorm1d (mkBatchNorm1d 2))] |}.



(** The configuration [example_args] with the column [a] declared a
    second time, with other sizes. *)
Definition example_args_twice : TabResnet.args :=
  {| TabResnet.embed_input := [("a", 4, 8); ("b", 4, 8); ("a", 9, 2)];
     TabResnet.column_idx := TabResnet.column_idx example_args;
     TabResnet.blocks_dims := [16; 4];
     TabResnet.blocks_dropout := 0%Q;
     TabResnet.mlp_hidden_dims := None;
     TabResnet.mlp_activation := "relu";
     TabResnet.mlp_dropout := 0%Q;
     TabResnet.mlp_batchnorm := false;
     TabResnet.mlp_batchnorm_last := false;
     TabResnet.mlp_linear_first := false;
     TabResnet.embed_dropout := 0%Q;
     TabResnet.continuous_cols := Some ["e"];
     TabResnet.batchnorm_cont := false;
     TabResnet.concat_cont_first := true |}.

(** A configuration whose one categorical column has a dot in its
    name. *)
Definition example_args_dotted : TabResnet.args :=
  {| TabResnet.embed_input := [("a.b", 4, 16)];
     TabResnet.column_idx := {["a.b" := 0]};
     TabResnet.blocks_dims := [16; 4];
     TabResnet.blocks_dropout := 0%Q;
     TabResnet.mlp_hidden_dims := None;
     TabResnet.mlp_activation := "relu";
     TabResnet.mlp_dropout := 0%Q;
     TabResnet.mlp_batchnorm := false;
     TabResnet.mlp_batchnorm_last := false;
     TabResnet.mlp_linear_first := false;
     TabResnet.embed_dropout := 0%Q;
     TabResnet.continuous_cols := None;
     TabResnet.batchnorm_cont := false;
     TabResnet.concat_cont_first := true |}.

(** A [TabTransformer] configuration without any column. *)
Definition example_transformer_args_bare : TabTransformer.args :=
  {| TabTransformer.column_idx := ∅;
     TabTransformer.cat_embed_input := None;
     TabTransformer.cat_embed_activation := None;
     TabTransformer.continuous_cols := None;
     TabTransformer.embed_continuous := false;
     TabTransformer.input_dim := 8;
     TabTransformer.n_heads := 2;
     TabTransformer.use_qkv_bias := false;
     TabTransformer.n_blocks := 1;
     TabTransformer.attn_dropout := 0%Q;
     TabTransformer.ff_dropout := 0%Q;
     TabTransformer.transformer_activation := "gelu";
     TabTransformer.mlp_hidden_dims := None;
     TabTransformer.mlp_activation := "relu";
     TabTransformer.mlp_dropout := 0%Q;
     TabTransformer.mlp_batchnorm := false;
     TabTransformer.mlp_batchnorm_last := false;
     TabTransformer.mlp_linear_first := true |}.

(** The names of the categorical columns are names that [nn.ModuleDict]
    accepts in a key: they hold no dot. *)
Definition TabResnet_names (a : TabResnet.args) : Prop :=
  Forall (fun e => contains "."%char e.1.1 = false) (TabResnet.embed_input a).

(** The number of columns that enters the residual network beside the
    embeddings. *)
Definition cont_first_dim (a : TabResnet.args) : nat :=
  if TabResnet.concat_cont_first a then cont_inp_dim a else 0.

(** The settings of a [TabResnet] that the layers built from them accept:
    dropout rates, and an activation that the MLP supports. *)
Definition TabResnet_settings (a : TabResnet.args) : Prop :=
  dropout_rate (TabResnet.embed_dropout a)
  /\ dropout_rate (TabResnet.blocks_dropout a)
  /\ dropout_rate (TabResnet.mlp_dropout a)
  /\ TabResnet.mlp_activation a ∈ ["tanh"; "relu"; "leaky_relu"; "gelu"].

(** * Verification *)

(** ** Reasoning about calls that update a state *)

Section Outcome.
Context {S : Type}.

Lemma yields_sret {A} (a : A) : yields (S := S) (sret a) (inr a).
Proof. by intros s. Qed.

Lemma yields_lift {A} (r : result A) : yields (S := S) (lift r) r.
Proof. by intros s. Qed.

Lemma yields_bind {A B} (m : st S A) (k : A -> st S B) a r :
  yields m (inr a) -> yields (k a) r -> yields (sbind m k) r.
Proof.
  intros Hm Hk s. unfold sbind. specialize (Hm s).
  destruct (m s) as [[e|a'] s']; simpl in Hm; [done|].
  injection Hm as ->. apply Hk.
Qed.

Lemma yields_bind_raise {A B} (m : st S A) (k : A -> st S B) e :
  yields m (inl e) -> yields (sbind m k) (inl e).
Proof.
  intros Hm s. unfold sbind. specialize (Hm s).
  destruct (m s) as [[e'|a'] s']; simpl in Hm; [|done].
  by injection Hm as ->.
Qed.

Lemma yields_inj {A} (m : st S A) r1 r2 (s : S) :
  yields m r1 -> yields m r2 -> r1 = r2.
Proof. intros H1 H2. by rewrite <-(H1 s), <-(H2 s). Qed.

Lemma never_sret {A} e (a : A) : never (S := S) e (sret a).
Proof. by intros s. Qed.

Lemma never_sraise {A} e e' : e <> e' -> never e (@sraise S A e').
Proof. intros Hne s [= ->]. done. Qed.

Lemma never_lift {A} e (r : result A) :
  r <> inl e -> never (S := S) e (lift r).
Proof. by intros Hr s. Qed.

Lemma never_bind {A B} e (m : st S A) (k : A -> st S B) :
  never e m -> (forall a, never e (k a)) -> never e (sbind m k).
Proof.
  intros Hm Hk s. unfold sbind. specialize (Hm s).
  destruct (m s) as [[e'|a'] s']; simpl in *; [|apply Hk].
  intros [= ->]. by apply Hm.
Qed.

Lemma never_for {A X} e (xs : list X) (body : X -> A -> st S A) acc :
  (forall x a, never e (body x a)) -> never e (for_ xs body acc).
Proof.
  intros Hbody. revert acc.
  induction xs as [|x xs IH]; intros acc; simpl.
  - apply never_sret.
  - apply never_bind; [apply Hbody | intros a; apply IH].
Qed.

(** A loop whose body cannot fail is a fold. *)
Lemma yields_for {A X} (xs : list X)
  (body : X -> A -> st S A) (step : X -> A -> A) acc :
  (forall x a, x ∈ xs -> yields (body x a) (inr (step x a))) ->
  yields (for_ xs body acc) (inr (foldl (fun a x => step x a) acc xs)).
Proof.
  revert acc. induction xs as [|x xs IH]; intros acc Hbody; simpl.
  - apply yields_sret.
  - eapply yields_bind.
    + apply Hbody. left.
    + apply IH. intros y a Hy. apply Hbody. by right.
Qed.

End Outcome.

Lemma yields_record {A} (b : built) (a : A) : yields (record b a) (inr a).
Proof. by intros s. Qed.

Lemma never_record {A} e (b : built) (a : A) : never e (record b a).
Proof. by intros s. Qed.

Lemma yields_new_Linear i o b :
  yields (new_Linear (Int i) o b) (inr (mkLinear i o b)).
Proof. apply yields_record. Qed.

Lemma never_new_Linear e i o b : e <> TypeError -> never e (new_Linear i o b).
Proof.
  intros He. destruct i; simpl.
  - apply never_record.
  - by apply never_sraise.
Qed.

Lemma dropout_rate_bool (q : Q) :
  Qle_bool 0 q && Qle_bool q 1 = true <-> dropout_rate q.
Proof.
  unfold dropout_rate. by rewrite andb_true_iff, !Qle_bool_iff.
Qed.

Lemma new_Dropout_ok q log :
  dropout_rate q ->
  new_Dropout q log = (inr (mkDropout q), log ++ [BDropout (mkDropout q)]).
Proof.
  intros Hq. unfold new_Dropout.
  by rewrite (proj2 (dropout_rate_bool q) Hq).
Qed.

Lemma new_Dropout_raise q log :
  ~ dropout_rate q -> new_Dropout q log = (inl ValueError, log).
Proof.
  intros Hq. unfold new_Dropout.
  destruct (Qle_bool 0 q && Qle_bool q 1) eqn:Hb; [|done].
  by apply dropout_rate_bool in Hb.
Qed.

Lemma yields_new_Dropout q :
  dropout_rate q -> yields (new_Dropout q) (inr (mkDropout q)).
Proof. intros Hq log. by rewrite new_Dropout_ok. Qed.

Lemma never_new_Dropout e q : e <> ValueError -> never e (new_Dropout q).
Proof.
  intros He log. unfold new_Dropout.
  destruct (Qle_bool 0 q && Qle_bool q 1); [done|].
  intros [= <-]. done.
Qed.

Lemma never_new_Dropout_rate e q : dropout_rate q -> never e (new_Dropout q).
Proof. intros Hq log. by rewrite new_Dropout_ok. Qed.

Lemma getitem_not e {A} (l : list A) i : e <> IndexError -> getitem l i <> inl e.
Proof. intros He. unfold getitem. destruct (l !! i); [done|]. intros [= <-]. done. Qed.

Lemma getlast_not e {A} (l : list A) : e <> IndexError -> getlast l <> inl e.
Proof. intros He. unfold getlast. destruct (last l); [done|]. intros [= <-]. done. Qed.

Lemma getitem_lookup {A} (l : list A) i a : l !! i = Some a -> getitem l i = inr a.
Proof. intros Hl. unfold getitem. by rewrite Hl. Qed.

(** Steps through a constructor that cannot raise the exception at hand. *)
Ltac never_step :=
  match goal with
  | |- never _ (sbind _ _) => apply never_bind; [|intros ?]
  | |- never _ (sret _) => apply never_sret
  | |- never _ (record _ _) => apply never_record
  | |- never _ (new_BatchNorm1d _) => apply never_record
  | |- never _ (new_Dropout _) =>
      first [ by apply never_new_Dropout_rate
            | apply never_new_Dropout; discriminate ]
  | |- never _ new_LeakyReLU => apply never_record
  | |- never _ (new_Embedding _ _ _) => apply never_record
  | |- never _ (new_Linear _ _ _) => apply never_new_Linear; discriminate
  | |- never _ (lift (getitem _ _)) =>
      apply never_lift, getitem_not; discriminate
  | |- never _ (lift (getlast _)) =>
      apply never_lift, getlast_not; discriminate
  | |- never _ (for_ _ _ _) => apply never_for; intros ? ?
  | |- never _ (if ?c then _ else _) => destruct c
  | |- never _ (match ?c with _ => _ end) => destruct c
  end.

Lemma BasicBlock_init_never e inp out dropout resize :
  e <> TypeError -> e <> ValueError \/ dropout_rate dropout ->
  never e (BasicBlock.__init__ inp out dropout resize).
Proof.
  intros He Hd. unfold BasicBlock.__init__.
  repeat first
    [ by apply never_new_Linear
    | by (destruct Hd; [by apply never_new_Dropout
                       |by apply never_new_Dropout_rate])
    | never_step ].
Qed.

Lemma DenseResnet_init_never e input_dim blocks_dims dropout :
  e <> TypeError -> e <> IndexError ->
  e <> ValueError \/ dropout_rate dropout ->
  never e (DenseResnet.__init__ input_dim blocks_dims dropout).
Proof.
  intros He1 He2 Hd. unfold DenseResnet.__init__, DenseResnet.add_block.
  repeat first
    [ by apply BasicBlock_init_never
    | by apply never_new_Linear
    | by apply never_lift, getitem_not
    | never_step ].
Qed.

Lemma MLP_init_never e d_hidden act dropout bn bn_last lin_first :
  e <> TypeError -> e <> IndexError ->
  never e (MLP.__init__ d_hidden act dropout bn bn_last lin_first).
Proof.
  intros He1 He2. unfold MLP.__init__, MLP.dense_layer.
  repeat first
    [ by apply never_new_Linear
    | by apply never_lift, getitem_not
    | never_step ].
Qed.

Lemma add_embed_layer_never e x layers :
  never e (TabResnet.add_embed_layer x layers).
Proof.
  destruct x as [[col val] dim]. unfold TabResnet.add_embed_layer.
  repeat never_step.
Qed.

(** ** TabResnet: the check on [blocks_dims] *)

Lemma TabResnet_init_short (a : TabResnet.args) (log : list built) :
  length (TabResnet.blocks_dims a) < 2 ->
  TabResnet.__init__ a log = (inl ValueError, log).
Proof.
  intros Hlen. unfold TabResnet.__init__, TabResnet.check_blocks_dims.
  unfold sbind at 1. unfold lift. by rewrite decide_True.
Qed.

Lemma never_new_ModuleDict {M} e (d : gmap string M) :
  e <> KeyError -> never e (new_ModuleDict d).
Proof.
  intros He log. unfold new_ModuleDict.
  destruct (forallb _ _); [done|]. intros [= <-]. done.
Qed.

Lemma TabResnet_init_never (a : TabResnet.args) :
  2 <= length (TabResnet.blocks_dims a) ->
  dropout_rate (TabResnet.embed_dropout a) ->
  dropout_rate (TabResnet.blocks_dropout a) ->
  never ValueError (TabResnet.__init__ a).
Proof.
  intros Hlen Hemb Hblocks.
  unfold TabResnet.__init__, TabResnet.check_blocks_dims.
  apply never_bind.
  { apply never_lift. rewrite decide_False by lia. done. }
  intros _.
  repeat first
    [ by (apply DenseResnet_init_never; [done|done|by right])
    | by apply MLP_init_never
    | by apply never_new_ModuleDict
    | apply add_embed_layer_never
    | never_step ].
Qed.

(** C3.  A [blocks_dims] of fewer than two elements makes the constructor
    of [TabResnet] raise [ValueError], and it does so with no layer built
    (the record of built layers is as it was); a [blocks_dims] of two or
    more elements, and no other, passes the check.  With settings that the
    layers accept, nothing later in the constructor raises [ValueError]:
    the constructor then raises it exactly for the short lists. *)
Theorem TabResnet_init_blocks_dims (a : TabResnet.args) (log : list built) :
  (length (TabResnet.blocks_dims a) < 2 ->
     TabResnet.__init__ a log = (inl ValueError, log))
  /\ (2 <= length (TabResnet.blocks_dims a) <->
        TabResnet.check_blocks_dims (TabResnet.blocks_dims a) = inr tt)
  /\ (TabResnet_settings a ->
        ((TabResnet.__init__ a log).1 = inl ValueError
         <-> length (TabResnet.blocks_dims a) < 2)).
Proof.
  pose proof (TabResnet_init_short a log) as Hlt.
  split; [done|]. split.
  - unfold TabResnet.check_blocks_dims. case_decide; split; (done || lia).
  - intros (Hemb & Hblocks & _). split; [|intros H; by rewrite Hlt].
    intros Heq.
    destruct (decide (length (TabResnet.blocks_dims a) < 2)) as [|Hn]; [done|].
    exfalso.
    by apply (TabResnet_init_never a ltac:(lia) Hemb Hblocks log).
Qed.

(** A list of two widths passes the check, and the constructor still
    raises [ValueError] when a later layer refuses its arguments. *)
Example TabResnet_init_dropout_rate :
  (TabResnet.__init__
     {| TabResnet.embed_input := [("a", 4, 8)];
        TabResnet.column_idx := {["a" := 0]};
        TabResnet.blocks_dims := [16; 4];
        TabResnet.blocks_dropout := 0%Q;
        TabResnet.mlp_hidden_dims := None;
        TabResnet.mlp_activation := "relu";
        TabResnet.mlp_dropout := 0%Q;
        TabResnet.mlp_batchnorm := false;
        TabResnet.mlp_batchnorm_last := false;
        TabResnet.mlp_linear_first := false;
        TabResnet.embed_dropout := (3 # 2)%Q;
        TabResnet.continuous_cols := None;
        TabResnet.batchnorm_cont := false;
        TabResnet.concat_cont_first := true |} []).1
  = inl ValueError.
Proof. vm_compute. reflexivity. Qed.

(** ** QueryKeySelfAttention: the check on the number of heads *)

Lemma QueryKeySelfAttention_init_cases
  (input_dim : Z) use_bias dropout (n_heads : Z) log :
  (QueryKeySelfAttention.__init__ input_dim use_bias dropout n_heads log).1 =
  if decide (n_heads = 0)%Z then inl ZeroDivisionError
  else if decide (input_dim `mod` n_heads = 0)%Z then
    if decide (0 <= input_dim)%Z then
      if Qle_bool 0 dropout && Qle_bool dropout 1 then
        inr (QueryKeySelfAttention.mk (input_dim `div` n_heads) n_heads
               (mkLinear (Z.to_nat input_dim) (Z.to_nat (input_dim * 2))
                  use_bias)
               (mkDropout dropout) None)
      else inl ValueError
    else inl RuntimeError
  else inl AssertionError.
Proof.
  unfold QueryKeySelfAttention.__init__, int_mod, int_floordiv, assert_.
  destruct (decide (n_heads = 0)%Z) as [Hz|Hz]; [done|].
  unfold sbind at 1. unfold lift at 1. simpl.
  unfold sbind at 1. unfold lift at 1.
  destruct (decide (input_dim `mod` n_heads = 0)%Z) as [Hm|Hm].
  2:{ by rewrite bool_decide_eq_false_2. }
  rewrite bool_decide_eq_true_2 by done. cbv beta iota.
  unfold sbind at 1. unfold lift at 1. cbv beta iota.
  unfold new_Linear_int, new_Dropout.
  destruct (decide (0 <= input_dim)%Z) as [Hpos|Hneg].
  - rewrite decide_True by lia. unfold sbind at 1. simpl.
    unfold sbind at 1.
    by destruct (Qle_bool 0 dropout && Qle_bool dropout 1).
  - rewrite decide_False by lia. done.
Qed.

(** C4, as the code has it.  For Python integers [input_dim] and
    [n_heads]: with zero heads the constructor of [QueryKeySelfAttention]
    raises [ZeroDivisionError], from the [%] of the assertion, and only
    then; it raises [AssertionError] exactly when [n_heads] is not zero and
    [input_dim % n_heads] is not zero; otherwise the assertion passes, and
    the constructor returns an object whose [head_dim] is
    [input_dim // n_heads] when the layers accept their arguments, a size
    that is not negative and a dropout rate between 0 and 1. *)
Theorem QueryKeySelfAttention_init_divisible
  (input_dim : Z) (use_bias : bool) (dropout : Q) (n_heads : Z)
  (log : list built) :
  let r :=
    (QueryKeySelfAttention.__init__ input_dim use_bias dropout n_heads log).1
  in
  (r = inl ZeroDivisionError <-> n_heads = 0%Z)
  /\ (r = inl AssertionError <->
        n_heads <> 0%Z /\ (input_dim `mod` n_heads)%Z <> 0%Z)
  /\ (n_heads <> 0%Z -> (input_dim `mod` n_heads)%Z = 0%Z ->
        (0 <= input_dim)%Z -> dropout_rate dropout ->
        exists m, r = inr m)
  /\ (forall m, r = inr m ->
        n_heads <> 0%Z /\ (input_dim `mod` n_heads)%Z = 0%Z
        /\ QueryKeySelfAttention.head_dim m = (input_dim `div` n_heads)%Z
        /\ QueryKeySelfAttention.n_heads m = n_heads).
Proof.
  intros r. subst r. rewrite QueryKeySelfAttention_init_cases.
  destruct (decide (n_heads = 0)%Z) as [Hz|Hz].
  { split; [done|]. split; [split; [done|by intros [? _]]|].
    split; [done|]. by intros m. }
  destruct (decide (input_dim `mod` n_heads = 0)%Z) as [Hm|Hm].
  2:{ split; [done|]. split; [done|]. split; [done|]. by intros m. }
  destruct (decide (0 <= input_dim)%Z) as [Hpos|Hneg].
  2:{ split; [done|]. split; [split; [done|by intros [_ ?]]|].
      split; [done|]. by intros m. }
  destruct (Qle_bool 0 dropout && Qle_bool dropout 1) eqn:Hrate.
  - split; [done|]. split; [split; [done|by intros [_ ?]]|].
    split; [eauto|]. by intros m [= <-].
  - split; [done|]. split; [split; [done|by intros [_ ?]]|].
    split; [|by intros m].
    intros _ _ _ Hd. apply dropout_rate_bool in Hd. congruence.
Qed.

(** C4 as stated fails when [n_heads] is zero: no [input_dim] other than
    zero is divisible by zero, yet the constructor does not end in an
    [AssertionError]. *)
Lemma QueryKeySelfAttention_init_zero_heads :
  ~ (forall input_dim use_bias dropout n_heads log,
       (QueryKeySelfAttention.__init__ input_dim use_bias dropout n_heads
          log).1 = inl AssertionError
       <-> ~ (n_heads | input_dim)%Z).
Proof.
  intros Hall.
  destruct (Hall 8%Z false 0%Q 0%Z []) as [_ Hfail].
  assert (Hnd : ~ (0 | 8)%Z) by (intros [k Hk]; lia).
  specialize (Hfail Hnd). discriminate Hfail.
Qed.

(** ** TabTransformer: the check on continuous-only feature sets *)

Lemma TransformerEncoder_init_never e input_dim n_heads bias p1 p2 act :
  e <> ZeroDivisionError -> e <> AssertionError ->
  never e (TransformerEncoder.__init__ input_dim n_heads bias p1 p2 act).
Proof.
  intros He1 He2. unfold TransformerEncoder.__init__, mod_, assert_.
  apply never_bind.
  { apply never_lift. case_decide; [|done]. intros [= <-]. done. }
  intros r. apply never_bind; [|intros ?; apply never_sret].
  apply never_lift. destruct (bool_decide _); [done|]. intros [= <-]. done.
Qed.

(** C5.  The constructor of [TabTransformer] raises [ValueError] exactly
    when there is at least one continuous column, no categorical column
    and [embed_continuous] is [False]; it raises it before any transformer
    block or MLP layer is built. *)
Theorem TabTransformer_init_only_continuous
  (a : TabTransformer.args) (log : list built) :
  let n_cat := TabTransformer.len_or_0 (TabTransformer.cat_embed_input a) in
  let n_cont := TabTransformer.len_or_0 (TabTransformer.continuous_cols a) in
  let rejected :=
    1 <= n_cont /\ n_cat = 0 /\ TabTransformer.embed_continuous a = false in
  (rejected <-> (TabTransformer.__init__ a log).1 = inl ValueError)
  /\ (rejected <-> TabTransformer.__init__ a log = (inl ValueError, log)).
Proof.
  intros n_cat n_cont rejected.
  set (self :=
    {| TabTransformer.base :=
         BaseTabularModelWithAttention.mk (TabTransformer.column_idx a)
           (TabTransformer.cat_embed_input a)
           (TabTransformer.cat_embed_activation a)
           (TabTransformer.continuous_cols a)
           (TabTransformer.embed_continuous a) (TabTransformer.input_dim a);
       TabTransformer.self_args := a;
       TabTransformer.with_cls_token :=
         bool_decide (is_Some (TabTransformer.column_idx a !! "cls_token"));
       TabTransformer.n_cat := n_cat; TabTransformer.n_cont := n_cont |}).
  assert (Hiff : rejected <-> TabTransformer.only_continuous self = true).
  { unfold rejected, TabTransformer.only_continuous,
      TabTransformer.embed_continuous_of. simpl.
    rewrite !andb_true_iff, !negb_true_iff, bool_decide_eq_true,
      bool_decide_eq_false.
    destruct (TabTransformer.embed_continuous a); split;
      intros [[H1 H2] H3] || intros (H1 & H2 & H3); repeat split;
      try done; lia. }
  assert (Hyes : TabTransformer.only_continuous self = true ->
                 TabTransformer.__init__ a log = (inl ValueError, log)).
  { intros Hc. unfold TabTransformer.__init__,
      BaseTabularModelWithAttention.__init__,
      TabTransformer.check_only_continuous.
    unfold sbind at 1. unfold sret at 1. fold n_cat n_cont. fold self.
    unfold sbind at 1. unfold lift at 1. by rewrite Hc. }
  assert (Hno : TabTransformer.only_continuous self = false ->
                (TabTransformer.__init__ a log).1 <> inl ValueError).
  { intros Hc. unfold TabTransformer.__init__,
      BaseTabularModelWithAttention.__init__,
      TabTransformer.check_only_continuous.
    unfold sbind at 1. unfold sret at 1. fold n_cat n_cont. fold self.
    unfold sbind at 1. unfold lift at 1. rewrite Hc. unfold ret.
    cbv beta iota. revert log Hyes. intros log _. revert log.
    match goal with |- forall log, (?m log).1 <> _ =>
      change (never ValueError m) end.
    unfold TabTransformer.add_block.
    repeat first
      [ by apply MLP_init_never
      | by apply TransformerEncoder_init_never
      | never_step ]. }
  split.
  - rewrite Hiff. split; [intros Hc; by rewrite Hyes|].
    intros Heq. destruct (TabTransformer.only_continuous self); [done|].
    by destruct Hno.
  - rewrite Hiff. split; [done|].
    intros Heq. destruct (TabTransformer.only_continuous self); [done|].
    destruct Hno; [done|]. by rewrite Heq.
Qed.

(** ** BasicBlock: the residual connection *)

Section StoreFacts.
Context {T : Type}.
Implicit Types (h : @Store.heap T) (r : Store.ref) (v : T).

Lemma fresh_ok (f : T -> result T) r h v v' :
  h !! r = Some v -> f v = inr v' ->
  Store.fresh f r h = (inr (length h), h ++ [v']).
Proof.
  intros Hr Hf. unfold Store.fresh, Store.load, Store.alloc, sbind, lift.
  by rewrite Hr, Hf.
Qed.

Lemma fresh_raise (f : T -> result T) r h v e :
  h !! r = Some v -> f v = inl e -> Store.fresh f r h = (inl e, h).
Proof.
  intros Hr Hf. unfold Store.fresh, Store.load, Store.alloc, sbind, lift.
  by rewrite Hr, Hf.
Qed.

Lemma inplace_ok (f : T -> T) r h v :
  h !! r = Some v -> Store.inplace f r h = (inr r, <[r := f v]> h).
Proof.
  intros Hr. unfold Store.inplace, Store.load, Store.store, sbind, sret.
  by rewrite Hr.
Qed.

Lemma iadd_ok (f : T -> T -> result T) out other h a b s :
  h !! out = Some a -> h !! other = Some b -> f a b = inr s ->
  Store.iadd_ f out other h = (inr out, <[out := s]> h).
Proof.
  intros Ha Hb Hf.
  unfold Store.iadd_, Store.load, Store.store, sbind, sret, lift.
  by rewrite Ha, Hb, Hf.
Qed.

Lemma iadd_raise (f : T -> T -> result T) out other h a b e :
  h !! out = Some a -> h !! other = Some b -> f a b = inl e ->
  Store.iadd_ f out other h = (inl e, h).
Proof.
  intros Ha Hb Hf.
  unfold Store.iadd_, Store.load, Store.store, sbind, sret, lift.
  by rewrite Ha, Hb, Hf.
Qed.

(** The tensor allocated last, and overwriting it. *)
Lemma lookup_last_cell h v : (h ++ [v]) !! length h = Some v.
Proof. by rewrite lookup_app_r, Nat.sub_diag. Qed.

Lemma insert_last_cell h v v' : <[length h := v']> (h ++ [v]) = h ++ [v'].
Proof. by rewrite insert_app_r_alt, Nat.sub_diag. Qed.

End StoreFacts.

Section Residual.
Context {T : Type} `{TensorOps T}.
Implicit Types (h : @Store.heap T) (r : Store.ref) (v : T).

Lemma agrees_fresh h0 (f : T -> result T) (k : Store.ref -> st Store.heap Store.ref)
  (spec : T -> result T) h r v :
  h !! r = Some v ->
  (forall v', f v = inr v' -> agrees h0 (spec v') (k (length h) (h ++ [v']))) ->
  agrees h0 (bind (f v) spec) (sbind (Store.fresh f r) k h).
Proof.
  intros Hr Hk. unfold sbind. destruct (f v) as [e|v'] eqn:Ef.
  - rewrite (fresh_raise _ _ _ _ _ Hr Ef). by eexists.
  - rewrite (fresh_ok _ _ _ _ _ Hr Ef). by apply Hk.
Qed.

Lemma agrees_inplace h0 (f : T -> T) (k : Store.ref -> st Store.heap Store.ref)
  (spec : result T) h r v :
  h !! r = Some v ->
  agrees h0 spec (k r (<[r := f v]> h)) ->
  agrees h0 spec (sbind (Store.inplace f r) k h).
Proof. intros Hr Hk. unfold sbind. by rewrite (inplace_ok _ _ _ _ Hr). Qed.

Lemma agrees_iadd h0 (f : T -> T -> result T)
  (k : Store.ref -> st Store.heap Store.ref) (spec : T -> result T)
  h out other a b :
  h !! out = Some a -> h !! other = Some b ->
  (forall s, f a b = inr s -> agrees h0 (spec s) (k out (<[out := s]> h))) ->
  agrees h0 (bind (f a b) spec) (sbind (Store.iadd_ f out other) k h).
Proof.
  intros Ha Hb Hk. unfold sbind. destruct (f a b) as [e|s] eqn:Ef.
  - rewrite (iadd_raise _ _ _ _ _ _ _ Ha Hb Ef). by eexists.
  - rewrite (iadd_ok _ _ _ _ _ _ _ Ha Hb Ef). by apply Hk.
Qed.

Lemma agrees_sret h0 h r v :
  h !! r = Some v -> (forall i, i < length h0 -> h !! i = h0 !! i) ->
  agrees h0 (ret v) (sret r h).
Proof. intros Hr Hf. exists r, h. by repeat split. Qed.

Lemma bind_assoc {A B C} (m : result A) (f : A -> result B)
  (g : B -> result C) :
  bind (bind m f) g = bind m (fun a => bind (f a) g).
Proof. by destruct m. Qed.

(** The tail of [forward], from the second linear layer on, started with
    the output [vout] of the first stage in the last cell of the store. *)
Lemma BasicBlock_forward_tail (self : BasicBlock.t) h0 hm x vx vout :
  (forall i, i < length h0 -> hm !! i = h0 !! i) ->
  length h0 <= length hm ->
  h0 !! x = Some vx ->
  agrees h0
    (let* out := t_linear (BasicBlock.lin2 self) vout in
     let* out := t_batch_norm1d (BasicBlock.bn2 self) out in
     let* identity := BasicBlock.identity_of self vx in
     let* out := t_iadd out identity in
     ret (t_leaky_relu out))
    ((let+ out := Store.fresh (t_linear (BasicBlock.lin2 self)) (length hm) in
      let+ out := Store.fresh (t_batch_norm1d (BasicBlock.bn2 self)) out in
      let+ identity :=
        (match BasicBlock.resize self with
         | Some r => Store.fresh (call_sequential call_layer r) x
         | None => sret x
         end) in
      let+ out := Store.iadd_ t_iadd out identity in
      let+ out := Store.inplace t_leaky_relu out in
      sret out) (hm ++ [vout])).
Proof.
  intros Hframe Hlen Hx.
  assert (Hxlt : x < length h0) by (by apply lookup_lt_Some in Hx).
  assert (Hxm : hm !! x = Some vx) by (by rewrite Hframe).
  apply agrees_fresh; [apply lookup_last_cell|]. intros v4 _.
  apply agrees_fresh; [apply lookup_last_cell|]. intros v5 _.
  set (h5 := (hm ++ [vout]) ++ [v4]).
  assert (Hh5 : forall i, i < length h0 -> h5 !! i = h0 !! i).
  { intros i Hi. unfold h5. rewrite !lookup_app_l; [by apply Hframe|lia|].
    rewrite length_app. lia. }
  assert (Hlen5 : length h0 <= length h5).
  { unfold h5. rewrite !length_app. lia. }
  clearbody h5.
  unfold BasicBlock.identity_of.
  destruct (BasicBlock.resize self) as [rs|].
  - apply agrees_fresh.
    { rewrite lookup_app_l by lia. by rewrite Hh5. }
    intros vid _.
    eapply agrees_iadd.
    { rewrite lookup_app_l by (rewrite length_app; simpl; lia).
      apply lookup_last_cell. }
    { apply lookup_last_cell. }
    intros s _.
    rewrite insert_app_l by (rewrite length_app; simpl; lia).
    rewrite insert_last_cell.
    eapply agrees_inplace.
    { rewrite lookup_app_l by (rewrite length_app; simpl; lia).
      apply lookup_last_cell. }
    rewrite insert_app_l by (rewrite length_app; simpl; lia).
    rewrite insert_last_cell.
    apply agrees_sret.
    + rewrite lookup_app_l by (rewrite length_app; simpl; lia).
      apply lookup_last_cell.
    + intros i Hi. rewrite !lookup_app_l; [by apply Hh5|lia|].
      rewrite length_app. lia.
  - unfold sbind at 1. unfold sret at 1.
    change (bind (ret vx) ?k) with (k vx). cbv beta.
    eapply agrees_iadd.
    { apply lookup_last_cell. }
    { rewrite lookup_app_l by lia. by rewrite Hh5. }
    intros s _. rewrite insert_last_cell.
    eapply agrees_inplace; [apply lookup_last_cell|].
    rewrite insert_last_cell.
    apply agrees_sret; [apply lookup_last_cell|].
    intros i Hi. rewrite lookup_app_l by lia. by apply Hh5.
Qed.

End Residual.

(** C6.  Called on a tensor [x] that holds [vx], [BasicBlock.forward]
    returns a tensor that holds [leaky_relu(T(x) + identity)]: [T] the two
    linear and batch-norm stages with the optional dropout after the
    first, [identity] the value of [x] itself without a resize module and
    [resize(x)] with one.  The in-place operations of the block leave every
    tensor that existed before the call, [x] included, as it was.  When a
    layer of that expression raises, [forward] raises the same. *)
Theorem BasicBlock_forward_residual {T : Type} `{TensorOps T}
  (self : BasicBlock.t) (h : Store.heap) (x : Store.ref) (vx : T) :
  h !! x = Some vx ->
  match BasicBlock.residual self vx with
  | inr v =>
      exists r h', BasicBlock.forward self x h = (inr r, h')
                   /\ h' !! r = Some v
                   /\ forall i, i < length h -> h' !! i = h !! i
  | inl e => exists h', BasicBlock.forward self x h = (inl e, h')
  end.
Proof.
  intros Hx.
  change (agrees h (BasicBlock.residual self vx)
            (BasicBlock.forward self x h)).
  unfold BasicBlock.forward, BasicBlock.residual, BasicBlock.transform.
  rewrite !bind_assoc.
  apply agrees_fresh; [done|]. intros v1 _. cbv beta.
  rewrite !bind_assoc.
  apply agrees_fresh; [apply lookup_last_cell|]. intros v2 _. cbv beta zeta.
  eapply agrees_inplace; [apply lookup_last_cell|].
  rewrite insert_last_cell.
  rewrite !bind_assoc.
  set (h2 := h ++ [v1]).
  assert (Hh2 : forall i, i < length h -> h2 !! i = h !! i).
  { intros i Hi. unfold h2. by rewrite lookup_app_l. }
  assert (Hlen2 : length h <= length h2).
  { unfold h2. rewrite length_app. lia. }
  clearbody h2.
  destruct (BasicBlock.dropout self).
  - apply agrees_fresh; [apply lookup_last_cell|]. intros v3 _. cbv beta.
    rewrite !bind_assoc.
    apply BasicBlock_forward_tail; [|rewrite length_app; lia|done].
    intros i Hi. rewrite lookup_app_l by lia. by apply Hh2.
  - unfold sbind at 1. unfold sret at 1.
    change (bind (ret ?v) ?k) with (k v). cbv beta.
    rewrite !bind_assoc.
    by apply BasicBlock_forward_tail.
Qed.

Lemma BasicBlock_forward_residual_example :
  exists r h',
    BasicBlock.forward (T := shape) example_block 0 [[4; 3]] = (inr r, h')
    /\ h' !! r = Some [4; 2]
    /\ forall i, i < length [[4; 3]] -> h' !! i = [[4; 3]] !! i.
Proof.
  exact (BasicBlock_forward_residual example_block [[4; 3]] 0 [4; 3] eq_refl).
Defined.

(** ** Shapes through the attention layers *)

Lemma broadcast_axis_refl x : broadcast_axis x x = Some x.
Proof. unfold broadcast_axis. by rewrite decide_True. Qed.

Lemma broadcast_axis_1_l x : broadcast_axis 1 x = Some x.
Proof.
  unfold broadcast_axis. destruct (decide (1 = x)) as [<-|]; [done|].
  by rewrite decide_True.
Qed.


Lemma split_last_app (pre : shape) k : split_last (pre ++ [k]) = Some (pre, k).
Proof.
  unfold split_last. rewrite reverse_app. simpl.
  by rewrite reverse_involutive.
Qed.

Lemma linear_last (l : Linear) (pre : shape) :
  Shape.linear l (pre ++ [in_features l]) = inr (pre ++ [out_features l]).
Proof.
  unfold Shape.linear. rewrite split_last_app. by rewrite decide_True.
Qed.

Lemma linear_2d (l : Linear) n :
  Shape.linear l [n; in_features l] = inr [n; out_features l].
Proof. apply (linear_last l [n]). Qed.

Lemma linear_3d (l : Linear) b s :
  Shape.linear l [b; s; in_features l] = inr [b; s; out_features l].
Proof. apply (linear_last l [b; s]). Qed.

Lemma chunk2_even (pre : shape) d :
  chunk2 (pre ++ [d * 2]) = inr [pre ++ [d]; pre ++ [d]].
Proof.
  unfold chunk2. rewrite split_last_app. cbv zeta.
  assert (Hsize : (d * 2 + 1) `div` 2 = d).
  { rewrite Nat.add_comm. rewrite Nat.div_add by lia. simpl. lia. }
  rewrite Hsize.
  destruct (decide (d * 2 = 0)) as [Hz|Hz].
  - by replace d with 0 by lia.
  - rewrite decide_False by lia. by replace (d * 2 - d) with d by lia.
Qed.

Lemma ContextAttention_init_ok input_dim dropout sum_along_seq log :
  dropout_rate dropout ->
  (ContextAttention.__init__ input_dim dropout sum_along_seq log).1
  = inr (ContextAttention.mk (mkLinear input_dim input_dim true)
           (mkLinear input_dim 1 false) (mkDropout dropout) sum_along_seq).
Proof.
  intros Hd. unfold ContextAttention.__init__.
  unfold sbind at 1. cbn [new_Linear record].
  unfold sbind at 1. cbn [record].
  unfold sbind at 1. by rewrite new_Dropout_ok.
Qed.

Lemma mul_weights batch seq input_dim :
  Shape.mul [batch; seq; 1] [batch; seq; input_dim]
  = inr [batch; seq; input_dim].
Proof.
  unfold Shape.mul, broadcast. simpl.
  by rewrite broadcast_axis_1_l, !broadcast_axis_refl.
Qed.

Section Weighted.
Context {T : Type} `{AttnOps T}.

(** [forward] against the layer in the words of its description: it
    returns the combination and keeps the weights without their last
    axis, and it raises where one of the two does. *)
Lemma ContextAttention_forward_combination (self : ContextAttention.t)
  (X : T) :
  ContextAttention.forward self X
  = (let* w := ContextAttention.attention self X in
     let* kept := a_squeeze 2 w in
     let* out := ContextAttention.combination self X in
     ret (out, kept)).
Proof.
  unfold ContextAttention.forward, ContextAttention.combination,
    ContextAttention.weighted, ContextAttention.attention.
  destruct (a_linear (ContextAttention.inp_proj self) X) as [e|projected];
    [done|]. cbn [bind ret].
  destruct (a_linear (ContextAttention.context self) (a_tanh projected))
    as [e|scores]; [done|]. cbn [bind ret].
  destruct (a_softmax 1 scores) as [e|w]; [done|]. cbn [bind ret].
  destruct (a_squeeze 2 w) as [e|kept]; [done|]. cbn [bind ret].
  destruct (a_mul (a_dropout (ContextAttention.dropout self) w) X)
    as [e|wx]; cbn [bind ret].
  - by destruct (ContextAttention.sum_along_seq self).
  - destruct (ContextAttention.sum_along_seq self); [|done].
    by destruct (a_sum 1 wx).
Qed.

End Weighted.

(** C8.  A [ContextAttention] built for [input_dim], with a dropout rate
    that the layer accepts, returns the attention-weighted combination of
    its input, for any reading of the tensor operations: the input
    multiplied by the attention weights, summed along the sequence axis
    when [sum_along_seq] is set and as it is when not; the weights it
    keeps are the attention weights without their last axis.  On a tensor
    of shape [(batch, seq, input_dim)] the result has shape
    [(batch, input_dim)] when summed and [(batch, seq, input_dim)] when
    not, and the kept weights have shape [(batch, seq)]. *)
Theorem ContextAttention_forward_weighted
  (input_dim : nat) (dropout : Q) (sum_along_seq : bool) (log : list built) :
  dropout_rate dropout ->
  exists self,
    (ContextAttention.__init__ input_dim dropout sum_along_seq log).1
      = inr self
    /\ (forall (T : Type) (ops : AttnOps T) (X : T),
          ContextAttention.forward self X
          = (let* w := ContextAttention.attention self X in
             let* kept := a_squeeze 2 w in
             let* out := ContextAttention.combination self X in
             ret (out, kept)))
    /\ (forall (T : Type) (ops : AttnOps T) (X out kept : T),
          ContextAttention.forward self X = inr (out, kept) ->
          exists w wx,
            ContextAttention.attention self X = inr w
            /\ a_mul (a_dropout (mkDropout dropout) w) X = inr wx
            /\ (if sum_along_seq then a_sum 1 wx else ret wx) = inr out
            /\ a_squeeze 2 w = inr kept)
    /\ (forall batch seq,
          ContextAttention.forward self [batch; seq; input_dim]
          = inr (if sum_along_seq then [batch; input_dim]
                 else [batch; seq; input_dim], [batch; seq])).
Proof.
  intros Hd. eexists. split; [by apply ContextAttention_init_ok|].
  split; [intros T ops X; apply ContextAttention_forward_combination|].
  split.
  - intros T ops X out kept.
    rewrite ContextAttention_forward_combination.
    unfold ContextAttention.combination, ContextAttention.weighted.
    destruct (ContextAttention.attention _ X) as [e|w]; [done|].
    cbn [bind ret ContextAttention.dropout ContextAttention.sum_along_seq].
    destruct (a_squeeze 2 w) as [e|kept'] eqn:Hkept; [done|].
    cbn [bind ret].
    destruct (a_mul (a_dropout (mkDropout dropout) w) X) as [e|wx] eqn:Hwx;
      [done|].
    cbn [bind ret].
    destruct (if sum_along_seq then a_sum 1 wx else ret wx) as [e|out']
      eqn:Hout; cbn [bind ret]; [done|].
    unfold ret. intros [= <- <-]. by exists w, wx.
  - intros batch seq. unfold ContextAttention.forward.
    cbn [ContextAttention.inp_proj ContextAttention.context
         ContextAttention.sum_along_seq ContextAttention.dropout
         a_linear a_tanh a_softmax a_squeeze a_dropout a_mul a_sum
         shape_attn_ops].
    rewrite (linear_3d (mkLinear input_dim input_dim true)). cbn [bind ret].
    rewrite (linear_3d (mkLinear input_dim 1 false)).
    cbn [bind ret out_features]. unfold softmax, squeeze, sum.
    cbn [length lookup list_lookup]. rewrite decide_True by lia.
    cbn [bind ret delete list_delete]. rewrite mul_weights.
    destruct sum_along_seq; [|done].
    cbn [bind ret length]. by rewrite decide_True by lia.
Qed.

Lemma ContextAttention_forward_weighted_example :
  exists self,
    (ContextAttention.__init__ 8 (1 # 10) true []).1 = inr self
    /\ (forall (T : Type) (ops : AttnOps T) (X : T),
          ContextAttention.forward self X
          = (let* w := ContextAttention.attention self X in
             let* kept := a_squeeze 2 w in
             let* out := ContextAttention.combination self X in
             ret (out, kept)))
    /\ (forall (T : Type) (ops : AttnOps T) (X out kept : T),
          ContextAttention.forward self X = inr (out, kept) ->
          exists w wx,
            ContextAttention.attention self X = inr w
            /\ a_mul (a_dropout (mkDropout (1 # 10)) w) X = inr wx
            /\ (if true then a_sum 1 wx else ret wx) = inr out
            /\ a_squeeze 2 w = inr kept)
    /\ (forall batch seq,
          ContextAttention.forward self [batch; seq; 8]
          = inr (if true then [batch; 8] else [batch; seq; 8],
                 [batch; seq])).
Proof.
  apply (ContextAttention_forward_weighted 8 (1 # 10) true []).
  split; discriminate.
Defined.





(** ** Loops that register modules under numbered names *)

Lemma add_module_fresh {M} (s : Sequential M) name (m : M) :
  name ∉ s.*1 -> add_module s name m = s ++ [(name, m)].
Proof.
  induction s as [|[n m'] s IH]; intros Hfresh; simpl; [done|].
  simpl in Hfresh. apply not_elem_of_cons in Hfresh as [Hne Hfresh].
  rewrite decide_False by done. by rewrite IH.
Qed.

Lemma numbered_name_inj prefix (i j : nat) :
  prefix +:+ pretty i = prefix +:+ pretty j -> i = j.
Proof. intros Heq. apply String.app_inj in Heq. by apply (inj pretty). Qed.

Section NumberedLoop.
Context {M : Type} (prefix : string) (off lo hi : nat).
Context (body : nat -> Sequential M -> ctor (Sequential M)) (item : nat -> M).

Hypothesis body_adds : forall i acc,
  lo <= i < hi ->
  yields (body i acc)
    (inr (add_module acc (prefix +:+ pretty (i - off)) (item i))).

Lemma numbered_loop len : forall k acc,
  off <= k -> lo <= k -> k + len <= hi ->
  (forall j, k <= j -> prefix +:+ pretty (j - off) ∉ acc.*1) ->
  yields (for_ (seq k len) body acc) (inr (acc ++ (numbered prefix off item <$> seq k len))).
Proof.
  induction len as [|len IH]; intros k acc Hoff Hlo Hhi Hfresh;
    cbn [seq for_].
  - rewrite fmap_nil, app_nil_r. apply yields_sret.
  - eapply yields_bind; [apply body_adds; lia|].
    rewrite add_module_fresh by (apply Hfresh; lia).
    rewrite fmap_cons.
    assert (Heq : acc ++ numbered prefix off item k :: (numbered prefix off item <$> seq (S k) len)
                  = (acc ++ [numbered prefix off item k]) ++ (numbered prefix off item <$> seq (S k) len))
      by (by rewrite <-app_assoc).
    rewrite Heq. apply IH; [lia..|].
    intros j Hj. rewrite fmap_app. simpl.
    rewrite not_elem_of_app. split; [apply Hfresh; lia|].
    rewrite list_elem_of_singleton. intros Hname.
    apply numbered_name_inj in Hname. lia.
Qed.

End NumberedLoop.

(** ** DenseResnet: what the constructor builds *)

(** A block builds its dropout layer only for a rate above zero: every
    rate up to one is accepted, and no other. *)
Lemma block_dropout_rate (dropout : Q) :
  (dropout <= 1)%Q -> Qgtb dropout 0 = true -> dropout_rate dropout.
Proof.
  intros Hle Hgt. split; [|done].
  unfold Qgtb in Hgt. apply negb_true_iff in Hgt.
  destruct (Qlt_le_dec 0 dropout) as [Hlt|Hle0]; [by apply Qlt_le_weak|].
  apply Qle_bool_iff in Hle0. congruence.
Qed.

Lemma block_dropout_above (dropout : Q) :
  ~ (dropout <= 1)%Q -> Qgtb dropout 0 = true /\ ~ dropout_rate dropout.
Proof.
  intros Hgt. split; [|by intros [_ ?]].
  unfold Qgtb. apply negb_true_iff.
  destruct (Qle_bool dropout 0) eqn:Hb; [|done].
  apply Qle_bool_iff in Hb. destruct Hgt.
  apply (Qle_trans _ 0); [done|discriminate].
Qed.

Lemma BasicBlock_init_yields inp out dropout resize :
  (dropout <= 1)%Q ->
  yields (BasicBlock.__init__ inp out dropout resize)
    (inr (built_block inp out dropout resize)).
Proof.
  intros Hd. unfold BasicBlock.__init__, built_block.
  eapply yields_bind; [apply yields_new_Linear|].
  eapply yields_bind; [apply yields_record|].
  eapply yields_bind; [apply yields_record|].
  destruct (Qgtb dropout 0) eqn:Hgt.
  - eapply yields_bind.
    { eapply yields_bind; [|apply yields_sret].
      by apply yields_new_Dropout, block_dropout_rate. }
    eapply yields_bind; [apply yields_new_Linear|].
    eapply yields_bind; [apply yields_record|]. apply yields_sret.
  - eapply yields_bind; [apply yields_sret|].
    eapply yields_bind; [apply yields_new_Linear|].
    eapply yields_bind; [apply yields_record|]. apply yields_sret.
Qed.

Lemma yields_sraise {S A} (e : exn) : yields (@sraise S A e) (inl e).
Proof. by intros s. Qed.

Lemma BasicBlock_init_raises inp out dropout resize :
  ~ (dropout <= 1)%Q ->
  yields (BasicBlock.__init__ inp out dropout resize) (inl ValueError).
Proof.
  intros Hd. apply block_dropout_above in Hd as [Hgt Hrate].
  unfold BasicBlock.__init__. rewrite Hgt.
  eapply yields_bind; [apply yields_new_Linear|].
  eapply yields_bind; [apply yields_record|].
  eapply yields_bind; [apply yields_record|].
  apply yields_bind_raise, yields_bind_raise.
  intros log. by rewrite new_Dropout_raise.
Qed.

Lemma add_block_yields dims dropout i acc :
  (dropout <= 1)%Q ->
  1 <= i < length dims ->
  yields (DenseResnet.add_block dims dropout i acc)
    (inr (add_module acc ("block_" +:+ pretty (i - 1))
            (block_at dims dropout i))).
Proof.
  intros Hd Hi. unfold DenseResnet.add_block, block_at, resize_for.
  assert (Hprev : dims !! (i - 1) = Some (dims !!! (i - 1))).
  { apply list_lookup_lookup_total_lt. lia. }
  assert (Hcur : dims !! i = Some (dims !!! i)).
  { apply list_lookup_lookup_total_lt. lia. }
  rewrite (getitem_lookup _ _ _ Hprev), (getitem_lookup _ _ _ Hcur).
  eapply yields_bind; [apply yields_lift|].
  eapply yields_bind; [apply yields_lift|].
  destruct (decide (dims !!! (i - 1) ≠ dims !!! i)).
  - eapply yields_bind.
    { eapply yields_bind; [apply yields_new_Linear|].
      eapply yields_bind; [apply yields_record|]. apply yields_sret. }
    eapply yields_bind; [by apply BasicBlock_init_yields|]. apply yields_sret.
  - eapply yields_bind; [apply yields_sret|].
    eapply yields_bind; [by apply BasicBlock_init_yields|]. apply yields_sret.
Qed.

Lemma add_block_raises dims dropout i acc :
  ~ (dropout <= 1)%Q ->
  1 <= i < length dims ->
  yields (DenseResnet.add_block dims dropout i acc) (inl ValueError).
Proof.
  intros Hd Hi. unfold DenseResnet.add_block.
  assert (Hprev : dims !! (i - 1) = Some (dims !!! (i - 1))).
  { apply list_lookup_lookup_total_lt. lia. }
  assert (Hcur : dims !! i = Some (dims !!! i)).
  { apply list_lookup_lookup_total_lt. lia. }
  rewrite (getitem_lookup _ _ _ Hprev), (getitem_lookup _ _ _ Hcur).
  eapply yields_bind; [apply yields_lift|].
  eapply yields_bind; [apply yields_lift|].
  destruct (decide (dims !!! (i - 1) ≠ dims !!! i)).
  - eapply yields_bind.
    { eapply yields_bind; [apply yields_new_Linear|].
      eapply yields_bind; [apply yields_record|]. apply yields_sret. }
    by apply yields_bind_raise, BasicBlock_init_raises.
  - eapply yields_bind; [apply yields_sret|].
    by apply yields_bind_raise, BasicBlock_init_raises.
Qed.

Lemma stem_names d b0 (j : nat) : "block_" +:+ pretty j ∉ (stem d b0).*1.
Proof.
  unfold stem. destruct (decide (d ≠ b0)); simpl.
  - rewrite !not_elem_of_cons. repeat split; try discriminate.
    apply not_elem_of_nil.
  - apply not_elem_of_nil.
Qed.

(** The input layers of the residual network: built from an integer
    size, not needed for a size that equals the first width, and refused
    for a float that does not. *)
Lemma DenseResnet_stem_yields (inp : num) (b0 : nat) :
  (forall v, inp = Float v -> v = b0) ->
  yields
    (if decide (num_val inp ≠ b0) then
       let+ l := new_Linear inp b0 true in
       let+ b := new_BatchNorm1d b0 in
       sret [("lin1", DenseResnet.Prim (ALinear l));
             ("bn1", DenseResnet.Prim (ABatchNorm1d b))]
     else sret [])
    (inr (stem (num_val inp) b0)).
Proof.
  intros Hinp. unfold stem.
  destruct (decide (num_val inp ≠ b0)) as [Hne|Heq]; [|apply yields_sret].
  destruct inp as [d|v]; cbn [num_val] in *.
  - eapply yields_bind; [apply yields_new_Linear|].
    eapply yields_bind; [apply yields_record|]. apply yields_sret.
  - by destruct Hne, (Hinp v).
Qed.

Lemma DenseResnet_init_num (inp : num) dims dropout :
  1 <= length dims ->
  (dropout <= 1)%Q ->
  (forall v, inp = Float v -> v = dims !!! 0) ->
  yields (DenseResnet.__init__ inp dims dropout)
    (inr (DenseResnet.mk inp dims dropout
            (built_dense_resnet (num_val inp) dims dropout))).
Proof.
  intros Hlen Hd Hinp. unfold DenseResnet.__init__, built_dense_resnet.
  assert (H0 : dims !! 0 = Some (dims !!! 0)).
  { apply list_lookup_lookup_total_lt. lia. }
  rewrite (getitem_lookup _ _ _ H0).
  eapply yields_bind; [apply yields_lift|].
  eapply yields_bind; [by apply DenseResnet_stem_yields|].
  eapply yields_bind; [|apply yields_sret].
  unfold range.
  apply (numbered_loop "block_" 1 1 (length dims)); [|lia..|].
  - intros i acc Hi. by apply add_block_yields.
  - intros j _. apply stem_names.
Qed.

Lemma DenseResnet_init_yields d dims dropout :
  1 <= length dims ->
  (dropout <= 1)%Q ->
  yields (DenseResnet.__init__ (Int d) dims dropout)
    (inr (DenseResnet.mk (Int d) dims dropout
            (built_dense_resnet d dims dropout))).
Proof.
  intros Hlen Hd. by apply (DenseResnet_init_num (Int d)).
Qed.

(** The residual network on a float, which [np.sum] returns for a model
    without categorical columns. *)
Lemma DenseResnet_init_float_raises v dims dropout :
  1 <= length dims -> v <> dims !!! 0 ->
  yields (DenseResnet.__init__ (Float v) dims dropout) (inl TypeError).
Proof.
  intros Hlen Hv. unfold DenseResnet.__init__.
  rewrite (getitem_lookup dims 0 (dims !!! 0))
    by (apply list_lookup_lookup_total_lt; lia).
  eapply yields_bind; [apply yields_lift|].
  apply yields_bind_raise. cbn [num_val]. rewrite decide_True by done.
  apply yields_bind_raise. apply yields_sraise.
Qed.

(** With two widths or more there is a block to build, and the dropout
    rate of the blocks has to be one that the layer accepts. *)
Lemma DenseResnet_init_raises (inp : num) dims dropout :
  2 <= length dims ->
  ~ (dropout <= 1)%Q ->
  (forall v, inp = Float v -> v = dims !!! 0) ->
  yields (DenseResnet.__init__ inp dims dropout) (inl ValueError).
Proof.
  intros Hlen Hd Hinp. unfold DenseResnet.__init__.
  rewrite (getitem_lookup dims 0 (dims !!! 0))
    by (apply list_lookup_lookup_total_lt; lia).
  eapply yields_bind; [apply yields_lift|].
  eapply yields_bind; [by apply DenseResnet_stem_yields|].
  apply yields_bind_raise. unfold range.
  destruct (length dims - 1) as [|len] eqn:Hn; [lia|].
  cbn [seq for_]. apply yields_bind_raise.
  apply add_block_raises; [done|lia].
Qed.

Lemma omap_fmap_Some {A B C} (f : B -> option C) (g : A -> B) (h : A -> C)
  (l : list A) :
  (forall x, f (g x) = Some (h x)) -> omap f (g <$> l) = h <$> l.
Proof.
  intros Hfg. induction l as [|x l IH]; [done|].
  csimpl. by rewrite Hfg, IH.
Qed.

Lemma blocks_of_built d dims dropout :
  blocks_of (built_dense_resnet d dims dropout)
  = (fun i => built_block (dims !!! (i - 1)) (dims !!! i) dropout
                (resize_for (dims !!! (i - 1)) (dims !!! i)))
    <$> seq 1 (length dims - 1).
Proof.
  unfold blocks_of, built_dense_resnet. rewrite omap_app.
  assert (Hstem : omap (fun nm : string * DenseResnet.module =>
                          match nm.2 with
                          | DenseResnet.Block b => Some b
                          | DenseResnet.Prim _ => None
                          end) (stem d (dims !!! 0)) = []).
  { unfold stem. by destruct (decide (d ≠ dims !!! 0)). }
  rewrite Hstem. simpl. by apply omap_fmap_Some.
Qed.

(** C9.  [DenseResnet] does not validate [blocks_dims]: for a list of
    [n >= 1] widths, an integer [input_dim] and a dropout rate that the
    layer accepts, its constructor returns, with exactly [n - 1] blocks;
    block [i] is built for the widths [blocks_dims[i]] and
    [blocks_dims[i+1]] and has a resize module, a linear layer followed by
    a batch norm, exactly when the two differ.
    With the single width [input_dim] it holds no module at all, and its
    forward pass returns its input. *)
Theorem DenseResnet_init_blocks
  (input_dim : nat) (blocks_dims : list nat) (dropout : Q)
  (log : list built) :
  1 <= length blocks_dims ->
  dropout_rate dropout ->
  exists self,
    (DenseResnet.__init__ (Int input_dim) blocks_dims dropout log).1
      = inr self
    /\ length (blocks_of (DenseResnet.dense_resnet self))
       = length blocks_dims - 1
    /\ (forall i b,
          blocks_of (DenseResnet.dense_resnet self) !! i = Some b ->
          exists inp out,
            blocks_dims !! i = Some inp /\ blocks_dims !! (i + 1) = Some out
            /\ BasicBlock.lin1 b = mkLinear inp out true
            /\ BasicBlock.bn1 b = mkBatchNorm1d out
            /\ BasicBlock.lin2 b = mkLinear out out true
            /\ BasicBlock.bn2 b = mkBatchNorm1d out
            /\ (inp = out -> BasicBlock.resize b = None)
            /\ (inp <> out ->
                  BasicBlock.resize b
                  = Some [("0", ALinear (mkLinear inp out true));
                          ("1", ABatchNorm1d (mkBatchNorm1d out))]))
    /\ (blocks_dims = [input_dim] ->
          DenseResnet.dense_resnet self = []
          /\ forall (T : Type) (ops : TensorOps T) (X : T),
               DenseResnet.forward self X = inr X).
Proof.
  intros Hlen [_ Hd]. eexists.
  split; [by apply DenseResnet_init_yields|].
  simpl DenseResnet.dense_resnet. rewrite blocks_of_built.
  split; [|split].
  - by rewrite length_fmap, length_seq.
  - intros i b Hb. rewrite list_lookup_fmap in Hb.
    destruct (seq 1 (length blocks_dims - 1) !! i) as [j|] eqn:Hj; [|done].
    apply lookup_seq in Hj as [-> Hi]. injection Hb as <-.
    replace (i + 1) with (S i) by lia.
    exists (blocks_dims !!! i), (blocks_dims !!! S i).
    split; [apply list_lookup_lookup_total_lt; lia|].
    split; [apply list_lookup_lookup_total_lt; lia|].
    simpl. rewrite Nat.sub_0_r. unfold resize_for. split_and!; try done.
    + intros Heq. by rewrite decide_False by (by intros ?).
    + intros Hne. by rewrite decide_True.
  - intros ->. unfold built_dense_resnet, stem. simpl.
    rewrite decide_False by (by intros ?). done.
Qed.

Lemma DenseResnet_init_blocks_example :
  exists self,
    (DenseResnet.__init__ (Int 8) [16; 16; 4] (1 # 10) []).1 = inr self
    /\ length (blocks_of (DenseResnet.dense_resnet self))
       = length [16; 16; 4] - 1
    /\ (forall i b,
          blocks_of (DenseResnet.dense_resnet self) !! i = Some b ->
          exists inp out,
            [16; 16; 4] !! i = Some inp /\ [16; 16; 4] !! (i + 1) = Some out
            /\ BasicBlock.lin1 b = mkLinear inp out true
            /\ BasicBlock.bn1 b = mkBatchNorm1d out
            /\ BasicBlock.lin2 b = mkLinear out out true
            /\ BasicBlock.bn2 b = mkBatchNorm1d out
            /\ (inp = out -> BasicBlock.resize b = None)
            /\ (inp <> out ->
                  BasicBlock.resize b
                  = Some [("0", ALinear (mkLinear inp out true));
                          ("1", ABatchNorm1d (mkBatchNorm1d out))]))
    /\ ([16; 16; 4] = [8] ->
          DenseResnet.dense_resnet self = []
          /\ forall (T : Type) (ops : TensorOps T) (X : T),
               DenseResnet.forward self X = inr X).
Proof.
  apply (DenseResnet_init_blocks 8 [16; 16; 4] (1 # 10) []);
    [simpl; lia|split; discriminate].
Defined.

(** The blocks of that network: the first keeps the width 16 and has no
    resize module, the second goes to the width 4 and has one. *)
Example DenseResnet_init_blocks_resize :
  exists self,
    (DenseResnet.__init__ (Int 8) [16; 16; 4] (1 # 10) []).1 = inr self
    /\ BasicBlock.resize <$> blocks_of (DenseResnet.dense_resnet self)
       = [None;
          Some [("0", ALinear (mkLinear 16 4 true));
                ("1", ABatchNorm1d (mkBatchNorm1d 4))]].
Proof. eexists. split; vm_compute; reflexivity. Qed.

(** A dropout rate above one is refused when the first block is built. *)
Example DenseResnet_init_dropout_rate :
  (DenseResnet.__init__ (Int 8) [8; 8] (3 # 2) []).1 = inl ValueError.
Proof. vm_compute. reflexivity. Qed.

(** ** Shapes through the residual network and the MLP *)

Lemma batch_norm1d_2d (b : BatchNorm1d) n :
  n <> 1 ->
  Shape.batch_norm1d b [n; num_features b] = inr [n; num_features b].
Proof.
  intros Hn. unfold Shape.batch_norm1d.
  rewrite decide_False by done. by rewrite decide_True.
Qed.

Lemma batch_norm1d_one_row (b : BatchNorm1d) c :
  Shape.batch_norm1d b [1; c] = inl ValueError.
Proof. unfold Shape.batch_norm1d. by rewrite decide_True. Qed.

Lemma linear_mk_2d i o b n : Shape.linear (mkLinear i o b) [n; i] = inr [n; o].
Proof. apply (linear_2d (mkLinear i o b)). Qed.

Lemma batch_norm1d_mk_2d c n :
  n <> 1 -> Shape.batch_norm1d (mkBatchNorm1d c) [n; c] = inr [n; c].
Proof. apply (batch_norm1d_2d (mkBatchNorm1d c)). Qed.

Lemma broadcast_rev_refl (s : shape) : broadcast_rev s s = Some s.
Proof.
  induction s as [|x s IH]; [done|]. simpl.
  by rewrite broadcast_axis_refl, IH.
Qed.

Lemma iadd_same (s : shape) : Shape.iadd s s = inr s.
Proof.
  unfold Shape.iadd, broadcast. rewrite broadcast_rev_refl. simpl.
  rewrite reverse_involutive. by rewrite decide_True.
Qed.

Lemma call_sequential_app {M T} (call : M -> T -> result T)
  (s1 s2 : Sequential M) (x y : T) :
  call_sequential call s1 x = inr y ->
  call_sequential call (s1 ++ s2) x = call_sequential call s2 y.
Proof.
  revert x. induction s1 as [|[n m] s1 IH]; intros x Hx; simpl in *.
  - by injection Hx as ->.
  - destruct (call m x) as [e|z]; simpl in *; [done|]. by apply IH.
Qed.

(** A block built for the widths [prev] and [cur] takes [(n, prev)] to
    [(n, cur)]. *)
Lemma residual_shape prev cur dropout n :
  n <> 1 ->
  BasicBlock.residual
    (built_block prev cur dropout (resize_for prev cur)) [n; prev]
  = inr [n; cur].
Proof.
  intros Hn. unfold BasicBlock.residual, BasicBlock.transform, BasicBlock.identity_of,
    BasicBlock.call_dp, built_block, resize_for.
  cbn [BasicBlock.lin1 BasicBlock.bn1 BasicBlock.dropout BasicBlock.dp
       BasicBlock.lin2 BasicBlock.bn2 BasicBlock.resize t_linear
       t_batch_norm1d t_leaky_relu t_dropout t_iadd shape_ops].
  rewrite (linear_2d (mkLinear prev cur true)). cbn [bind out_features].
  rewrite (batch_norm1d_2d (mkBatchNorm1d cur)) by done.
  cbn [bind num_features].
  assert (Hdp : (if Qgtb dropout 0
                 then match (if Qgtb dropout 0
                             then Some (mkDropout dropout) else None) with
                      | Some d => ret [n; cur]
                      | None => raise AttributeError
                      end
                 else ret [n; cur]) = inr [n; cur]).
  { by destruct (Qgtb dropout 0). }
  rewrite Hdp. cbn [bind].
  rewrite (linear_2d (mkLinear cur cur true)). cbn [bind out_features].
  rewrite (batch_norm1d_2d (mkBatchNorm1d cur)) by done.
  cbn [bind num_features].
  destruct (decide (prev ≠ cur)) as [Hne|Heq].
  - cbn [call_sequential call_layer t_linear t_batch_norm1d shape_ops].
    rewrite (linear_2d (mkLinear prev cur true)). cbn [bind out_features].
    rewrite (batch_norm1d_2d (mkBatchNorm1d cur)) by done.
    cbn [bind ret num_features]. by rewrite iadd_same.
  - apply dec_stable in Heq. subst cur. cbn [bind ret].
    by rewrite iadd_same.
Qed.

Lemma blocks_forward dims dropout n len : forall k,
  n <> 1 -> 1 <= k -> k + len <= length dims ->
  call_sequential (T := shape) DenseResnet.call_module
    (numbered "block_" 1 (block_at dims dropout) <$> seq k len)
    [n; dims !!! (k - 1)]
  = inr [n; dims !!! (k + len - 1)].
Proof.
  induction len as [|len IH]; intros k Hn Hk Hlen; cbn [seq].
  - rewrite fmap_nil. simpl. by replace (k + 0 - 1) with (k - 1) by lia.
  - rewrite fmap_cons. cbn [call_sequential numbered snd].
    unfold block_at at 1. cbn [DenseResnet.call_module].
    rewrite residual_shape by done. cbn [bind].
    replace (dims !!! k) with (dims !!! (S k - 1))
      by (by rewrite Nat.sub_succ, Nat.sub_0_r).
    rewrite IH by (done || lia). by replace (S k + len - 1) with (k + S len - 1) by lia.
Qed.

Lemma stem_forward d b0 n :
  n <> 1 ->
  call_sequential (T := shape) DenseResnet.call_module (stem d b0) [n; d]
  = inr [n; b0].
Proof.
  intros Hn. unfold stem. destruct (decide (d ≠ b0)) as [Hne|Heq].
  - cbn [call_sequential DenseResnet.call_module call_layer t_linear
         t_batch_norm1d shape_ops].
    rewrite (linear_2d (mkLinear d b0 true)). cbn [bind out_features].
    by rewrite (batch_norm1d_2d (mkBatchNorm1d b0)).
  - apply dec_stable in Heq. by subst.
Qed.

(** The residual network takes [(n, input_dim)] to [(n, blocks_dims[-1])]. *)
Lemma DenseResnet_forward_shape d dims dropout n :
  n <> 1 ->
  1 <= length dims ->
  call_sequential (T := shape) DenseResnet.call_module
    (built_dense_resnet d dims dropout) [n; d]
  = inr [n; dims !!! (length dims - 1)].
Proof.
  intros Hn Hlen. unfold built_dense_resnet.
  rewrite (call_sequential_app _ _ _ _ _ (stem_forward d (dims !!! 0) n Hn)).
  replace (dims !!! 0) with (dims !!! (1 - 1)) by done.
  rewrite blocks_forward by (done || lia).
  by replace (1 + (length dims - 1) - 1) with (length dims - 1) by lia.
Qed.

Lemma getlast_lookup_total (l : list nat) :
  1 <= length l -> getlast l = inr (l !!! (length l - 1)).
Proof.
  intros Hlen. unfold getlast. rewrite last_lookup.
  replace (pred (length l)) with (length l - 1) by lia.
  by rewrite (list_lookup_lookup_total_lt l (length l - 1)) by lia.
Qed.

Lemma MLP_init_yields d_hidden act dropout bn bn_last lin_first :
  yields (MLP.__init__ d_hidden act dropout bn bn_last lin_first)
    (inr (MLP.mk d_hidden (built_mlp d_hidden bn bn_last lin_first))).
Proof.
  unfold MLP.__init__, built_mlp, range.
  eapply yields_bind; [|apply yields_sret].
  destruct (decide (length d_hidden = 0)) as [Hz|Hz].
  { rewrite Hz. simpl. apply yields_sret. }
  match goal with |- yields _ (inr ?l) => change l with ([] ++ l) end.
  apply (numbered_loop "dense_layer_" 1 1 (length d_hidden)); [|lia..|].
  - intros i acc Hi. unfold MLP.dense_layer, built_dense.
    rewrite (getitem_lookup d_hidden (i - 1) (d_hidden !!! (i - 1)))
      by (apply list_lookup_lookup_total_lt; lia).
    rewrite (getitem_lookup d_hidden i (d_hidden !!! i))
      by (apply list_lookup_lookup_total_lt; lia).
    eapply yields_bind; [apply yields_lift|].
    eapply yields_bind; [apply yields_lift|].
    eapply yields_bind; [apply yields_new_Linear|].
    destruct (MLP.normalised d_hidden bn bn_last i).
    + eapply yields_bind; [|apply yields_sret].
      eapply yields_bind; [apply yields_record|]. apply yields_sret.
    + eapply yields_bind; [apply yields_sret|]. apply yields_sret.
  - intros j _. apply not_elem_of_nil.
Qed.

(** A dense layer takes [(n, d_hidden[i-1])] to [(n, d_hidden[i])]. *)
Lemma call_dense_built d_hidden bn bn_last lin_first i n :
  n <> 1 ->
  MLP.call_dense (built_dense d_hidden bn bn_last lin_first i)
    [n; d_hidden !!! (i - 1)]
  = inr [n; d_hidden !!! i].
Proof.
  intros Hn. unfold MLP.call_dense, built_dense.
  cbn [MLP.linear_first MLP.lin MLP.bn].
  destruct lin_first.
  - rewrite linear_mk_2d. cbn [bind ret].
    destruct (MLP.normalised d_hidden bn bn_last i); [|done].
    by apply batch_norm1d_mk_2d.
  - destruct (MLP.normalised d_hidden bn bn_last i); cbn [MLP.call_bn].
    + rewrite batch_norm1d_mk_2d by done. cbn [bind ret].
      apply linear_mk_2d.
    + cbn [bind ret]. apply linear_mk_2d.
Qed.

Lemma mlp_forward d_hidden bn bn_last lin_first n len : forall k,
  n <> 1 -> 1 <= k -> k + len <= length d_hidden ->
  call_sequential MLP.call_dense
    (numbered "dense_layer_" 1 (built_dense d_hidden bn bn_last lin_first)
     <$> seq k len)
    [n; d_hidden !!! (k - 1)]
  = inr [n; d_hidden !!! (k + len - 1)].
Proof.
  induction len as [|len IH]; intros k Hn Hk Hlen; cbn [seq].
  - rewrite fmap_nil. simpl. by replace (k + 0 - 1) with (k - 1) by lia.
  - rewrite fmap_cons. cbn [call_sequential numbered snd].
    rewrite call_dense_built by done. cbn [bind].
    replace (d_hidden !!! k) with (d_hidden !!! (S k - 1))
      by (by rewrite Nat.sub_succ, Nat.sub_0_r).
    rewrite IH by (done || lia).
    by replace (S k + len - 1) with (k + S len - 1) by lia.
Qed.

(** The MLP takes [(n, d_hidden[0])] to [(n, d_hidden[-1])]. *)
Lemma MLP_forward_shape d_hidden bn bn_last lin_first n :
  n <> 1 ->
  1 <= length d_hidden ->
  MLP.forward (MLP.mk d_hidden (built_mlp d_hidden bn bn_last lin_first))
    [n; d_hidden !!! 0]
  = inr [n; d_hidden !!! (length d_hidden - 1)].
Proof.
  intros Hn Hlen. unfold MLP.forward, built_mlp. cbn [MLP.mlp].
  replace (d_hidden !!! 0) with (d_hidden !!! (1 - 1)) by done.
  rewrite mlp_forward by (done || lia).
  by replace (1 + (length d_hidden - 1) - 1) with (length d_hidden - 1) by lia.
Qed.

(** ** TabResnet: what the constructor builds *)

Lemma add_embed_layer_yields e m :
  yields (TabResnet.add_embed_layer e m)
    (inr (<[embed_key e := embed_layer_of e]> m)).
Proof.
  destruct e as [[col val] dim]. unfold TabResnet.add_embed_layer.
  eapply yields_bind; [apply yields_record|]. apply yields_sret.
Qed.

Lemma embed_layers_other (l : list (string * nat * nat)) :
  forall (m : gmap string Embedding) k,
  k ∉ embed_key <$> l ->
  foldl (fun m e => <[embed_key e := embed_layer_of e]> m) m l !! k = m !! k.
Proof.
  induction l as [|e l IH]; intros m k Hk; [done|].
  rewrite fmap_cons in Hk. apply not_elem_of_cons in Hk as [Hne Hk].
  simpl. rewrite IH by done. by rewrite lookup_insert_ne.
Qed.

Lemma embed_layers_lookup (l : list (string * nat * nat)) :
  forall (m : gmap string Embedding) e,
  NoDup (embed_key <$> l) -> e ∈ l ->
  foldl (fun m e => <[embed_key e := embed_layer_of e]> m) m l
    !! embed_key e = Some (embed_layer_of e).
Proof.
  induction l as [|e' l IH]; intros m e Hnd He; [by apply elem_of_nil in He|].
  rewrite fmap_cons in Hnd. apply NoDup_cons in Hnd as [Hfresh Hnd].
  apply elem_of_cons in He as [->|He]; simpl.
  - rewrite embed_layers_other by done. apply lookup_insert_eq.
  - by apply IH.
Qed.

(** Every layer of the dict comes from a declared column. *)
Lemma embed_layers_origin (l : list (string * nat * nat)) :
  forall (m : gmap string Embedding) k layer,
  foldl (fun m e => <[embed_key e := embed_layer_of e]> m) m l !! k
    = Some layer ->
  m !! k = Some layer
  \/ exists e, e ∈ l /\ k = embed_key e /\ layer = embed_layer_of e.
Proof.
  induction l as [|e l IH]; intros m k layer Hk; [by left|].
  simpl in Hk. apply IH in Hk as [Hk|(e' & He' & -> & ->)].
  - destruct (decide (embed_key e = k)) as [<-|Hne].
    + rewrite lookup_insert_eq in Hk. injection Hk as <-.
      right. exists e. split; [left|done].
    + rewrite lookup_insert_ne in Hk by done. by left.
  - right. exists e'. split; [by right|done].
Qed.

Lemma embed_key_NoDup (l : list (string * nat * nat)) :
  NoDup (map (fun e => e.1.1) l) -> NoDup (embed_key <$> l).
Proof.
  induction l as [|e l IH]; intros Hnd; [constructor|].
  simpl in Hnd. apply NoDup_cons in Hnd as [Hfresh Hnd].
  rewrite fmap_cons. apply NoDup_cons. split; [|by apply IH].
  intros Hin. apply Hfresh.
  apply list_elem_of_fmap in Hin as (e' & Heq & He').
  unfold embed_key in Heq. apply String.app_inj in Heq.
  apply list_elem_of_In, in_map_iff. exists e'.
  split; [done|]. by apply list_elem_of_In.
Qed.

(** The keys that [nn.ModuleDict] is given. *)
Lemma forallb_keys {M} (f : string -> bool) (m : gmap string M) :
  forallb f (map_to_list m).*1 = true
  <-> forall k v, m !! k = Some v -> f k = true.
Proof.
  rewrite forallb_forall. split.
  - intros Hall k v Hk. apply Hall, list_elem_of_In, list_elem_of_fmap.
    exists (k, v). split; [done|]. by apply elem_of_map_to_list.
  - intros Hall k Hk.
    apply list_elem_of_In, list_elem_of_fmap in Hk as ([k' v] & -> & Hkv).
    apply elem_of_map_to_list in Hkv. by apply (Hall k' v).
Qed.

Lemma contains_embed_key (e : string * nat * nat) :
  contains "."%char (embed_key e) = contains "."%char e.1.1.
Proof. reflexivity. Qed.

Lemma embed_layers_declared (l : list (string * nat * nat)) :
  forall (m : gmap string Embedding) e,
  e ∈ l ->
  is_Some (foldl (fun m e => <[embed_key e := embed_layer_of e]> m) m l
             !! embed_key e).
Proof.
  induction l as [|e' l IH]; intros m e He; [by apply elem_of_nil in He|].
  apply elem_of_cons in He as [->|He]; cbn [foldl]; [|by apply IH].
  destruct (decide (embed_key e' ∈ embed_key <$> l)) as [Hin|Hout].
  - apply list_elem_of_fmap in Hin as (e'' & -> & He'').
    by apply IH.
  - rewrite embed_layers_other by done. rewrite lookup_insert_eq. by eexists.
Qed.

Lemma ModuleDict_names (l : list (string * nat * nat)) :
  forallb (fun k => negb (contains "."%char k))
    (map_to_list (built_embed_layers l)).*1 = true
  <-> Forall (fun e => contains "."%char e.1.1 = false) l.
Proof.
  rewrite forallb_keys, Forall_forall. split.
  - intros Hall e He.
    destruct (embed_layers_declared l ∅ e He) as [layer Hlayer].
    specialize (Hall _ _ Hlayer). rewrite contains_embed_key in Hall.
    by apply negb_true_iff in Hall.
  - intros Hall k layer Hk.
    apply embed_layers_origin in Hk as [Hk|(e & He & -> & _)];
      [by rewrite lookup_empty in Hk|].
    rewrite contains_embed_key. apply negb_true_iff. by apply Hall.
Qed.

Lemma new_ModuleDict_yields (l : list (string * nat * nat)) :
  Forall (fun e => contains "."%char e.1.1 = false) l ->
  yields (new_ModuleDict (built_embed_layers l))
    (inr (built_embed_layers l)).
Proof.
  intros Hl log. unfold new_ModuleDict.
  by rewrite (proj2 (ModuleDict_names l) Hl).
Qed.

Lemma new_ModuleDict_raises (l : list (string * nat * nat)) :
  ~ Forall (fun e => contains "."%char e.1.1 = false) l ->
  yields (new_ModuleDict (built_embed_layers l)) (inl KeyError).
Proof.
  intros Hl log. unfold new_ModuleDict.
  destruct (forallb _ _) eqn:Hb; [|done].
  by apply ModuleDict_names in Hb.
Qed.

(** The value that is handed to [DenseResnet] as its [input_dim]: an
    integer when there are categorical columns, else a float. *)
Lemma TabResnet_input_num (a : TabResnet.args) :
  (if TabResnet.concat_cont_first a
   then num_add (np_sum (map (fun embed => embed.2) (TabResnet.embed_input a)))
          (cont_inp_dim a)
   else np_sum (map (fun embed => embed.2) (TabResnet.embed_input a)))
  = match TabResnet.embed_input a with
    | [] => Float (cont_first_dim a)
    | _ => Int (resnet_input_dim a)
    end.
Proof.
  unfold np_sum, resnet_input_dim, emb_inp_dim, cont_first_dim.
  destruct (TabResnet.embed_input a) as [|e l];
    by destruct (TabResnet.concat_cont_first a).
Qed.

(** The steps of the constructor up to the residual network, when none of
    them raises. *)
Ltac TabResnet_init_front a Hlen :=
  unfold TabResnet.__init__, TabResnet.check_blocks_dims;
  rewrite decide_False by lia;
  (eapply yields_bind; [apply yields_lift|]);
  (eapply yields_bind;
     [apply yields_for; intros ? ? _; apply add_embed_layer_yields|]);
  fold (built_embed_layers (TabResnet.embed_input a)).

Ltac TabResnet_init_cont a Hlen :=
  (eapply yields_bind with (a := (cont_inp_dim a, built_norm a));
     [unfold cont_inp_dim, built_norm;
      destruct (TabResnet.continuous_cols a) as [cols|];
        [|apply yields_sret];
      destruct (TabResnet.batchnorm_cont a); [|apply yields_sret];
      (eapply yields_bind; [apply yields_record|]); apply yields_sret|]);
  rewrite getlast_lookup_total by lia;
  (eapply yields_bind; [apply yields_lift|]);
  cbv zeta; cbn [fst snd]; rewrite TabResnet_input_num.

Lemma TabResnet_init_names_raise (a : TabResnet.args) :
  2 <= length (TabResnet.blocks_dims a) ->
  ~ TabResnet_names a ->
  yields (TabResnet.__init__ a) (inl KeyError).
Proof.
  intros Hlen Hnames. TabResnet_init_front a Hlen.
  by apply yields_bind_raise, new_ModuleDict_raises.
Qed.

Lemma TabResnet_init_rate_raise (a : TabResnet.args) :
  2 <= length (TabResnet.blocks_dims a) ->
  TabResnet_names a ->
  ~ dropout_rate (TabResnet.embed_dropout a) ->
  yields (TabResnet.__init__ a) (inl ValueError).
Proof.
  intros Hlen Hnames Hrate. TabResnet_init_front a Hlen.
  eapply yields_bind; [by apply new_ModuleDict_yields|].
  apply yields_bind_raise. intros log. by rewrite new_Dropout_raise.
Qed.

Lemma TabResnet_init_type_error (a : TabResnet.args) :
  2 <= length (TabResnet.blocks_dims a) ->
  dropout_rate (TabResnet.embed_dropout a) ->
  TabResnet.embed_input a = [] ->
  TabResnet.blocks_dims a !! 0 <> Some (cont_first_dim a) ->
  yields (TabResnet.__init__ a) (inl TypeError).
Proof.
  intros Hlen Hrate Hemb Hw. TabResnet_init_front a Hlen.
  eapply yields_bind.
  { apply new_ModuleDict_yields. rewrite Hemb. constructor. }
  eapply yields_bind; [by apply yields_new_Dropout|].
  TabResnet_init_cont a Hlen. rewrite Hemb.
  apply yields_bind_raise, DenseResnet_init_float_raises; [lia|].
  intros Heq. apply Hw. rewrite Heq.
  apply list_lookup_lookup_total_lt. lia.
Qed.

Lemma TabResnet_input_fits (a : TabResnet.args) :
  TabResnet.embed_input a <> []
  \/ TabResnet.blocks_dims a !! 0 = Some (cont_first_dim a) ->
  forall v,
    match TabResnet.embed_input a with
    | [] => Float (cont_first_dim a)
    | _ => Int (resnet_input_dim a)
    end = Float v ->
    v = TabResnet.blocks_dims a !!! 0.
Proof.
  intros Hfit v Hv. destruct (TabResnet.embed_input a) as [|e l]; [|done].
  injection Hv as <-. destruct Hfit as [?|Hw]; [done|].
  symmetry. by apply list_lookup_total_correct.
Qed.

Lemma TabResnet_init_blocks_raise (a : TabResnet.args) :
  2 <= length (TabResnet.blocks_dims a) ->
  TabResnet_names a ->
  dropout_rate (TabResnet.embed_dropout a) ->
  TabResnet.embed_input a <> []
  \/ TabResnet.blocks_dims a !! 0 = Some (cont_first_dim a) ->
  ~ (TabResnet.blocks_dropout a <= 1)%Q ->
  yields (TabResnet.__init__ a) (inl ValueError).
Proof.
  intros Hlen Hnames Hrate Hfit Hblocks. TabResnet_init_front a Hlen.
  eapply yields_bind; [by apply new_ModuleDict_yields|].
  eapply yields_bind; [by apply yields_new_Dropout|].
  TabResnet_init_cont a Hlen.
  apply yields_bind_raise, DenseResnet_init_raises; [done|done|].
  by apply TabResnet_input_fits.
Qed.

(** The model that the constructor returns. *)
Lemma TabResnet_init_returns (a : TabResnet.args) :
  2 <= length (TabResnet.blocks_dims a) ->
  TabResnet_names a ->
  dropout_rate (TabResnet.embed_dropout a) ->
  TabResnet.embed_input a <> []
  \/ TabResnet.blocks_dims a !! 0 = Some (cont_first_dim a) ->
  (TabResnet.blocks_dropout a <= 1)%Q ->
  exists self,
    yields (TabResnet.__init__ a) (inr self)
    /\ TabResnet.self_args self = a
    /\ TabResnet.embed_layers self
       = built_embed_layers (TabResnet.embed_input a)
    /\ (TabResnet.embed_input a <> [] -> self = built_TabResnet a).
Proof.
  intros Hlen Hnames Hrate Hfit Hblocks.
  set (inp := match TabResnet.embed_input a with
              | [] => Float (cont_first_dim a)
              | _ => Int (resnet_input_dim a)
              end).
  exists {| TabResnet.self_args := a;
            TabResnet.embed_layers :=
              built_embed_layers (TabResnet.embed_input a);
            TabResnet.embedding_dropout :=
              mkDropout (TabResnet.embed_dropout a);
            TabResnet.norm := built_norm a;
            TabResnet.tab_resnet :=
              DenseResnet.mk inp (TabResnet.blocks_dims a)
                (TabResnet.blocks_dropout a)
                (built_dense_resnet (num_val inp) (TabResnet.blocks_dims a)
                   (TabResnet.blocks_dropout a));
            TabResnet.tab_resnet_mlp :=
              TabResnet.tab_resnet_mlp (built_TabResnet a);
            TabResnet.output_dim := TabResnet.output_dim (built_TabResnet a) |}.
  split; [|split; [done|split; [done|]]].
  2:{ intros Hemb. unfold inp, built_TabResnet.
      by destruct (TabResnet.embed_input a). }
  TabResnet_init_front a Hlen.
  eapply yields_bind; [by apply new_ModuleDict_yields|].
  eapply yields_bind; [by apply yields_new_Dropout|].
  TabResnet_init_cont a Hlen. fold inp.
  eapply yields_bind.
  { apply DenseResnet_init_num; [lia|done|]. by apply TabResnet_input_fits. }
  fold (last_block_dim a). fold (resnet_output_dim a).
  unfold built_TabResnet. cbn [TabResnet.tab_resnet_mlp TabResnet.output_dim].
  destruct (TabResnet.mlp_hidden_dims a) as [hidden|].
  - eapply yields_bind.
    { eapply yields_bind; [apply MLP_init_yields|].
      change ([resnet_output_dim a] ++ hidden)
        with (resnet_output_dim a :: hidden).
      rewrite getlast_lookup_total by (simpl; lia).
      eapply yields_bind; [apply yields_lift|]. apply yields_sret. }
    cbn [fst snd length]. rewrite Nat.sub_succ, Nat.sub_0_r.
    apply yields_sret.
  - eapply yields_bind; [apply yields_sret|]. apply yields_sret.
Qed.

Lemma TabResnet_init_yields (a : TabResnet.args) :
  2 <= length (TabResnet.blocks_dims a) ->
  TabResnet_names a ->
  dropout_rate (TabResnet.embed_dropout a) ->
  (TabResnet.blocks_dropout a <= 1)%Q ->
  TabResnet.embed_input a <> [] ->
  yields (TabResnet.__init__ a) (inr (built_TabResnet a)).
Proof.
  intros Hlen Hnames Hrate Hblocks Hemb.
  destruct (TabResnet_init_returns a Hlen Hnames Hrate (or_introl Hemb)
              Hblocks) as (self & Hself & _ & _ & Hbuilt).
  by rewrite <-(Hbuilt Hemb).
Qed.

(** What a constructor call that returned says of its arguments, and what
    it returned. *)
Lemma TabResnet_init_inv (a : TabResnet.args) log self :
  (TabResnet.__init__ a log).1 = inr self ->
  2 <= length (TabResnet.blocks_dims a)
  /\ TabResnet_names a
  /\ dropout_rate (TabResnet.embed_dropout a)
  /\ (TabResnet.embed_input a <> []
      \/ TabResnet.blocks_dims a !! 0 = Some (cont_first_dim a))
  /\ (TabResnet.blocks_dropout a <= 1)%Q
  /\ TabResnet.self_args self = a
  /\ TabResnet.embed_layers self
     = built_embed_layers (TabResnet.embed_input a)
  /\ (TabResnet.embed_input a <> [] -> self = built_TabResnet a).
Proof.
  intros Hinit.
  assert (Hlen : 2 <= length (TabResnet.blocks_dims a)).
  { destruct (decide (length (TabResnet.blocks_dims a) < 2)) as [Hlt|]; [|lia].
    by rewrite (TabResnet_init_short a log Hlt) in Hinit. }
  assert (Hnames : TabResnet_names a).
  { destruct (decide (TabResnet_names a)) as [|Hno]; [done|].
    by rewrite (TabResnet_init_names_raise a Hlen Hno log) in Hinit. }
  assert (Hrate : dropout_rate (TabResnet.embed_dropout a)).
  { destruct (Qle_bool 0 (TabResnet.embed_dropout a)
              && Qle_bool (TabResnet.embed_dropout a) 1) eqn:Hb;
      [by apply dropout_rate_bool|].
    assert (Hno : ~ dropout_rate (TabResnet.embed_dropout a)).
    { intros Hd. apply dropout_rate_bool in Hd. congruence. }
    by rewrite (TabResnet_init_rate_raise a Hlen Hnames Hno log) in Hinit. }
  assert (Hfit : TabResnet.embed_input a <> []
                 \/ TabResnet.blocks_dims a !! 0 = Some (cont_first_dim a)).
  { destruct (decide (TabResnet.embed_input a = [])) as [Hemb|]; [|by left].
    destruct (decide (TabResnet.blocks_dims a !! 0
                      = Some (cont_first_dim a))) as [|Hw]; [by right|].
    by rewrite (TabResnet_init_type_error a Hlen Hrate Hemb Hw log)
      in Hinit. }
  assert (Hblocks : (TabResnet.blocks_dropout a <= 1)%Q).
  { destruct (Qlt_le_dec 1 (TabResnet.blocks_dropout a)) as [Hgt|]; [|done].
    apply Qlt_not_le in Hgt.
    by rewrite (TabResnet_init_blocks_raise a Hlen Hnames Hrate Hfit Hgt log)
      in Hinit. }
  destruct (TabResnet_init_returns a Hlen Hnames Hrate Hfit Hblocks)
    as (self' & Hself & Hargs & Hlayers & Hbuilt).
  rewrite (Hself log) in Hinit. injection Hinit as <-. done.
Qed.

(** ** TabResnet: the shape of the output *)

Lemma cat1_from_widths n (l : list (string * nat * nat)) : forall acc,
  cat1_from [n; acc] ((fun e => [n; e.2]) <$> l)
  = inr [n; acc + sum_list (map (fun e => e.2) l)].
Proof.
  induction l as [|e l IH]; intros acc.
  - rewrite fmap_nil. simpl. by rewrite Nat.add_0_r.
  - rewrite fmap_cons. cbn [cat1_from cat1_two].
    rewrite decide_True by done. cbn [bind ret]. rewrite IH.
    simpl. by rewrite Nat.add_assoc.
Qed.

Lemma cat1_widths n (l : list (string * nat * nat)) :
  l <> [] ->
  cat1 ((fun e => [n; e.2]) <$> l)
  = inr [n; sum_list (map (fun e => e.2) l)].
Proof.
  destruct l as [|e l]; [done|]. intros _.
  rewrite fmap_cons. cbn [cat1]. by rewrite cat1_from_widths.
Qed.

Lemma cat1_pair n c1 c2 : cat1 [[n; c1]; [n; c2]] = inr [n; c1 + c2].
Proof. simpl. by rewrite decide_True. Qed.

Lemma long_length v : length (Tensor.long v) = length v.
Proof. unfold Tensor.long. apply length_map. Qed.

(** The embedding of a declared column of an input that holds category
    codes. *)
Lemma embed_column_shape (a : TabResnet.args) (X : Tensor.t) e :
  NoDup (embed_key <$> TabResnet.embed_input a) ->
  e ∈ TabResnet.embed_input a ->
  Valid.has_codes (TabResnet.column_idx a) X e ->
  TabResnet.embed_column (built_TabResnet a) X e
  = inr [Tensor.nrows X; e.2].
Proof.
  intros Hnd He Hcodes. unfold TabResnet.embed_column.
  destruct e as [[col val] dim]. cbn [TabResnet.embed_layers built_TabResnet
    TabResnet.self_args].
  unfold dict_get at 1. unfold built_embed_layers.
  rewrite (embed_layers_lookup _ ∅ (col, val, dim) Hnd He). cbn [bind ret].
  unfold Valid.has_codes in Hcodes. cbn [fst snd] in Hcodes.
  unfold dict_get.
  destruct (TabResnet.column_idx a !! col) as [j|]; [|done].
  destruct Hcodes as [Hj Hrows]. cbn [bind ret].
  unfold Tensor.column. rewrite decide_True by done. cbn [bind ret].
  unfold Tensor.embedding, embed_layer_of. cbn [num_embeddings embedding_dim
    fst snd].
  rewrite decide_True.
  - by rewrite long_length, length_map.
  - unfold Tensor.long. rewrite Forall_forall. intros z Hz.
    apply list_elem_of_In, in_map_iff in Hz as (q & <- & Hq).
    apply in_map_iff in Hq as (r & <- & Hr).
    rewrite Forall_forall in Hrows. apply Hrows. by apply list_elem_of_In.
Qed.

Lemma embed_columns_shape (a : TabResnet.args) (X : Tensor.t)
  (l : list (string * nat * nat)) :
  NoDup (embed_key <$> TabResnet.embed_input a) ->
  l ⊆ TabResnet.embed_input a ->
  Forall (Valid.has_codes (TabResnet.column_idx a) X) l ->
  comprehension (TabResnet.embed_column (built_TabResnet a) X) l
  = inr ((fun e => [Tensor.nrows X; e.2]) <$> l).
Proof.
  intros Hnd. induction l as [|e l IH]; intros Hsub Hcodes; [done|].
  apply Forall_cons in Hcodes as [He Hcodes].
  cbn [comprehension].
  rewrite embed_column_shape; [|done|apply Hsub; left|done].
  cbn [bind ret]. rewrite IH; [done| |done].
  intros x Hx. apply Hsub. by right.
Qed.

Lemma cont_idx_shape (column_idx : gmap string nat) (X : Tensor.t)
  (cols : list string) :
  Forall (Valid.has_column column_idx X) cols ->
  exists js, comprehension (dict_get column_idx) cols = inr js
             /\ length js = length cols
             /\ Forall (fun j => j < Tensor.ncols X) js.
Proof.
  induction cols as [|col cols IH]; intros Hcols.
  - exists []. by repeat split.
  - apply Forall_cons in Hcols as [Hcol Hcols].
    destruct (IH Hcols) as (js & Hjs & Hlen & Hlt).
    unfold Valid.has_column in Hcol. cbn [comprehension].
    unfold dict_get at 1.
    destruct (column_idx !! col) as [j|]; [|done].
    exists (j :: js). cbn [bind ret]. rewrite Hjs. cbn [bind ret].
    split; [done|]. split; [by rewrite !length_cons, Hlen|].
    by apply Forall_cons.
Qed.

(** The continuous columns, selected and normalised. *)
Lemma x_cont_shape (a : TabResnet.args) (X : Tensor.t) cols :
  Tensor.nrows X <> 1 ->
  TabResnet.continuous_cols a = Some cols ->
  Forall (Valid.has_column (TabResnet.column_idx a) X) cols ->
  (let* cont_idx :=
     comprehension (dict_get (TabResnet.column_idx a)) cols in
   let* x_cont := Tensor.columns X cont_idx in
   if TabResnet.batchnorm_cont a then
     let* n := TabResnet.getattr (built_norm a) in
     Shape.batch_norm1d n x_cont
   else ret x_cont)
  = inr [Tensor.nrows X; length cols].
Proof.
  intros Hn Hcols Hhas.
  destruct (cont_idx_shape _ _ _ Hhas) as (js & -> & Hlen & Hlt).
  cbn [bind ret]. unfold Tensor.columns. rewrite decide_True by done.
  cbn [bind ret]. rewrite Hlen. unfold built_norm. rewrite Hcols.
  destruct (TabResnet.batchnorm_cont a); [|done].
  cbn [TabResnet.getattr bind ret]. by apply batch_norm1d_mk_2d.
Qed.

Lemma bind_ok {A B} (m : result A) (k : A -> result B) v r :
  m = inr v -> k v = r -> bind m k = r.
Proof. by intros -> <-. Qed.

Lemma built_TabResnet_forward (a : TabResnet.args) (X : Tensor.t) :
  2 <= length (TabResnet.blocks_dims a) ->
  Valid.TabResnet_args a ->
  Valid.TabResnet_input a X ->
  Tensor.nrows X <> 1 ->
  TabResnet.forward (built_TabResnet a) X
  = inr [Tensor.nrows X; TabResnet.output_dim (built_TabResnet a)].
Proof.
  intros Hlen [Hemb Hnd] (Hwf & Hcodes & Hcont) Hn.
  apply embed_key_NoDup in Hnd.
  unfold TabResnet.forward. cbv zeta.
  change (TabResnet.self_args (built_TabResnet a)) with a.
  rewrite embed_columns_shape by done. cbn [bind ret].
  rewrite cat1_widths by done. cbn [bind ret].
  fold (emb_inp_dim a).
  change (t_dropout (TabResnet.embedding_dropout (built_TabResnet a))
            [Tensor.nrows X; emb_inp_dim a])
    with [Tensor.nrows X; emb_inp_dim a].
  assert (Hresnet : forall n, n <> 1 ->
    DenseResnet.forward (TabResnet.tab_resnet (built_TabResnet a))
      [n; resnet_input_dim a] = inr [n; last_block_dim a]).
  { intros n Hn1. unfold DenseResnet.forward.
    cbn [TabResnet.tab_resnet built_TabResnet DenseResnet.dense_resnet].
    apply DenseResnet_forward_shape; [done|lia]. }
  apply (bind_ok _ _ [Tensor.nrows X; resnet_output_dim a]).
  - unfold resnet_output_dim, cont_inp_dim.
    unfold resnet_input_dim, cont_inp_dim in Hresnet.
    destruct (TabResnet.continuous_cols a) as [cols|] eqn:Hcols.
    + cbn [default] in *.
      pose proof (x_cont_shape a X cols Hn Hcols Hcont) as Hx.
      cbn [TabResnet.norm built_TabResnet].
      destruct (comprehension (dict_get (TabResnet.column_idx a)) cols)
        as [e|cont_idx]; [done|]. cbn [bind ret] in *.
      destruct (Tensor.columns X cont_idx) as [e|x_cont]; [done|].
      cbn [bind ret] in *. rewrite Hx. cbn [bind ret].
      destruct (TabResnet.concat_cont_first a).
      * rewrite cat1_pair. cbn [bind ret]. by apply Hresnet.
      * rewrite Hresnet by done. cbn [bind ret]. rewrite cat1_pair.
        by rewrite Nat.add_comm.
    + cbn [default length] in *.
      destruct (TabResnet.concat_cont_first a).
      * rewrite Nat.add_0_r in Hresnet. by apply Hresnet.
      * by apply Hresnet.
  - cbn [TabResnet.tab_resnet_mlp TabResnet.output_dim built_TabResnet].
    destruct (TabResnet.mlp_hidden_dims a) as [hidden|]; [|done].
    cbn [TabResnet.getattr bind ret].
    change [Tensor.nrows X; resnet_output_dim a]
      with [Tensor.nrows X; (resnet_output_dim a :: hidden) !!! 0].
    rewrite MLP_forward_shape by (done || (simpl; lia)).
    cbn [length]. by rewrite Nat.sub_succ, Nat.sub_0_r.
Qed.

Lemma lookup_total_last (x : nat) (l : list nat) :
  (x :: l) !!! length l = default x (last l).
Proof.
  revert x. induction l as [|y l IH]; intros x; [done|].
  cbn [length]. rewrite lookup_total_cons_ne_0 by done. cbn [pred].
  rewrite IH. rewrite last_cons. by destruct (last l).
Qed.

(** C1, as the code has it.  For a [TabResnet] whose construction
    succeeded, with at least one categorical column and every categorical
    column declared once, and an input with [N] rows, more than one, that
    has the declared columns, the categorical ones holding category codes,
    [forward] returns a tensor of shape [(N, output_dim)].  The attribute
    [output_dim] is the last of the configured MLP widths when an MLP is
    configured (the width leaving the residual network when that list is
    empty); otherwise it is [blocks_dims[-1]] when [concat_cont_first] is
    set and the number of continuous columns plus [blocks_dims[-1]] when
    it is not. *)
Theorem TabResnet_forward_shape
  (a : TabResnet.args) (log : list built) (self : TabResnet.t)
  (X : Tensor.t) :
  (TabResnet.__init__ a log).1 = inr self ->
  Valid.TabResnet_args a ->
  Valid.TabResnet_input a X ->
  1 < Tensor.nrows X ->
  exists last_dim,
    2 <= length (TabResnet.blocks_dims a)
    /\ last (TabResnet.blocks_dims a) = Some last_dim
    /\ TabResnet.output_dim self
       = (let n_cont := length (default [] (TabResnet.continuous_cols a)) in
          let resnet_out :=
            if TabResnet.concat_cont_first a then last_dim
            else n_cont + last_dim in
          match TabResnet.mlp_hidden_dims a with
          | Some hidden => default resnet_out (last hidden)
          | None => resnet_out
          end)
    /\ TabResnet.forward self X
       = inr [Tensor.nrows X; TabResnet.output_dim self].
Proof.
  intros Hinit Hargs Hinput Hrows.
  apply TabResnet_init_inv in Hinit
    as (Hlen & _ & _ & _ & _ & _ & _ & Hself).
  rewrite (Hself (proj1 Hargs)). exists (last_block_dim a).
  split; [done|]. split.
  { unfold last_block_dim. rewrite last_lookup.
    replace (pred (length (TabResnet.blocks_dims a)))
      with (length (TabResnet.blocks_dims a) - 1) by lia.
    apply list_lookup_lookup_total_lt. lia. }
  split; [|apply built_TabResnet_forward; (done || lia)].
  cbn [TabResnet.output_dim built_TabResnet]. cbv zeta.
  fold (cont_inp_dim a). fold (resnet_output_dim a).
  destruct (TabResnet.mlp_hidden_dims a) as [hidden|]; [|done].
  apply lookup_total_last.
Qed.

Lemma example_args_valid : Valid.TabResnet_args example_args.
Proof.
  split; [done|]. simpl.
  apply NoDup_cons. split; [|apply NoDup_singleton].
  rewrite list_elem_of_singleton. discriminate.
Qed.

Lemma example_input_valid : Valid.TabResnet_input example_args example_input.
Proof.
  split; [|split].
  - repeat constructor.
  - repeat constructor; try (simpl; lia);
      vm_compute; first [reflexivity | intros ?; discriminate].
  - repeat constructor.
Qed.

Lemma example_args_init :
  (TabResnet.__init__ example_args []).1 = inr (built_TabResnet example_args).
Proof.
  apply TabResnet_init_yields; [simpl; lia| |split; discriminate|discriminate
                               |done].
  repeat constructor.
Qed.

Lemma TabResnet_forward_shape_example :
  exists last_dim,
    2 <= length (TabResnet.blocks_dims example_args)
    /\ last (TabResnet.blocks_dims example_args) = Some last_dim
    /\ TabResnet.output_dim (built_TabResnet example_args)
       = (let n_cont :=
            length (default [] (TabResnet.continuous_cols example_args)) in
          let resnet_out :=
            if TabResnet.concat_cont_first example_args then last_dim
            else n_cont + last_dim in
          match TabResnet.mlp_hidden_dims example_args with
          | Some hidden => default resnet_out (last hidden)
          | None => resnet_out
          end)
    /\ TabResnet.forward (built_TabResnet example_args) example_input
       = inr [Tensor.nrows example_input;
              TabResnet.output_dim (built_TabResnet example_args)].
Proof.
  apply (TabResnet_forward_shape example_args [] (built_TabResnet example_args)
           example_input).
  - apply example_args_init.
  - apply example_args_valid.
  - apply example_input_valid.
  - vm_compute. lia.
Defined.

(** C1 as stated fails in two ways.  A configuration with two block
    widths and continuous columns only is accepted by the constructor, and
    [forward] then has no embedding to concatenate, whatever the input.
    And the model of [example_args], called on one row that has every
    column and holds valid codes, raises [ValueError]: after construction
    the batch normalisation is in training mode, and wants more than one
    value per channel. *)
Lemma TabResnet_forward_shape_fails :
  (exists self,
     (TabResnet.__init__ example_args_continuous []).1 = inr self
     /\ forall X, TabResnet.forward self X = inl RuntimeError)
  /\ (exists self,
        (TabResnet.__init__ example_args []).1 = inr self
        /\ Valid.TabResnet_input example_args example_row
        /\ TabResnet.forward self example_row = inl ValueError).
Proof.
  split.
  - eexists. split; [vm_compute; reflexivity|]. intros X. reflexivity.
  - exists (built_TabResnet example_args).
    split; [apply example_args_init|]. split; [|vm_compute; reflexivity].
    split; [|split].
    + repeat constructor.
    + repeat constructor; try (simpl; lia);
        vm_compute; first [reflexivity | intros ?; discriminate].
    + repeat constructor.
Qed.

Example TabResnet_forward_example :
  TabResnet.forward (built_TabResnet example_args) example_input = inr [2; 4].
Proof. vm_compute. reflexivity. Qed.

(** ** TabResnet: the embedding layers *)

Lemma sbind_inv {S A B} (m : st S A) (k : A -> st S B) s b :
  (sbind m k s).1 = inr b ->
  exists a s', m s = (inr a, s') /\ (k a s').1 = inr b.
Proof.
  unfold sbind. destruct (m s) as [[e|a] s']; [done|]. by exists a, s'.
Qed.

Lemma TabResnet_init_embed_layers (a : TabResnet.args) log self :
  (TabResnet.__init__ a log).1 = inr self ->
  TabResnet.embed_layers self = built_embed_layers (TabResnet.embed_input a)
  /\ TabResnet.self_args self = a.
Proof.
  intros H.
  by apply TabResnet_init_inv in H as (_ & _ & _ & _ & _ & ? & ? & _).
Qed.

Lemma zeros_length d : length (EmbeddingTable.zeros d) = d.
Proof. apply length_replicate. Qed.

Section PaddedTable.
Context (val dim : nat).
Let layer := mkEmbedding (val + 1) dim (Some 0).

Lemma weight_length init :
  length (EmbeddingTable.weight layer init) = val + 1.
Proof. unfold EmbeddingTable.weight. by rewrite length_fmap, length_seq. Qed.

Lemma weight_lookup init i :
  i < val + 1 ->
  EmbeddingTable.weight layer init !! i
  = Some (if decide (i = 0) then EmbeddingTable.zeros dim else init i).
Proof.
  intros Hi. unfold EmbeddingTable.weight.
  rewrite list_lookup_fmap, lookup_seq_lt by done. simpl.
  unfold EmbeddingTable.is_padding. simpl.
  destruct (decide (i = 0)) as [->|Hne]; [done|].
  rewrite bool_decide_eq_false_2; [done|]. intros [= <-]. done.
Qed.

Lemma step_lookup update (w : EmbeddingTable.table) i :
  EmbeddingTable.step layer update w !! i
  = (fun row => if decide (i = 0) then row else update i row) <$> w !! i.
Proof.
  unfold EmbeddingTable.step. rewrite list_lookup_imap.
  destruct (w !! i) as [row|]; [|done]. simpl.
  unfold EmbeddingTable.is_padding. simpl.
  destruct (decide (i = 0)) as [->|Hne]; [done|].
  rewrite bool_decide_eq_false_2; [done|]. intros [= <-]. done.
Qed.

End PaddedTable.

(** C10.  Every embedding layer that the constructor of [TabResnet] puts
    in [embed_layers] belongs to a declared column [(col, val, dim)]: it
    has [val + 1] rows of width [dim] and its padding index is [0].  Row
    [0] of its table is the zero vector, at construction and after a
    training step; the codes [0] to [val] are the ones that the table
    accepts, and the codes [1] to [val] select the rows that are
    trained. *)
Theorem TabResnet_embed_layers_padding
  (a : TabResnet.args) (log : list built) (self : TabResnet.t)
  (key : string) (layer : Embedding) :
  (TabResnet.__init__ a log).1 = inr self ->
  TabResnet.embed_layers self !! key = Some layer ->
  exists col val dim,
    (col, val, dim) ∈ TabResnet.embed_input a
    /\ key = "emb_layer_" +:+ col
    /\ layer = mkEmbedding (val + 1) dim (Some 0)
    /\ (forall init, length (EmbeddingTable.weight layer init) = val + 1)
    /\ (forall init,
          EmbeddingTable.lookup (EmbeddingTable.weight layer init) 0
          = inr (EmbeddingTable.zeros dim))
    /\ (forall init update,
          EmbeddingTable.lookup
            (EmbeddingTable.step layer update
               (EmbeddingTable.weight layer init)) 0
          = inr (EmbeddingTable.zeros dim))
    /\ (forall init code,
          (exists row,
             EmbeddingTable.lookup (EmbeddingTable.weight layer init) code
             = inr row)
          <-> (0 <= code <= Z.of_nat val)%Z)
    /\ (forall init code,
          (1 <= code <= Z.of_nat val)%Z ->
          EmbeddingTable.lookup (EmbeddingTable.weight layer init) code
          = inr (init (Z.to_nat code))).
Proof.
  intros Hinit Hkey.
  apply TabResnet_init_embed_layers in Hinit as [Hlayers _].
  rewrite Hlayers in Hkey. unfold built_embed_layers in Hkey.
  apply embed_layers_origin in Hkey as [Hkey|(e & He & -> & ->)];
    [by rewrite lookup_empty in Hkey|].
  destruct e as [[col val] dim]. exists col, val, dim.
  unfold embed_key, embed_layer_of. cbn [fst snd].
  split; [done|]. split; [done|]. split; [done|].
  split; [apply weight_length|].
  assert (Hlook : forall init code,
    (0 <= code <= Z.of_nat val)%Z ->
    EmbeddingTable.lookup
      (EmbeddingTable.weight (mkEmbedding (val + 1) dim (Some 0)) init) code
    = inr (if decide (Z.to_nat code = 0) then EmbeddingTable.zeros dim
           else init (Z.to_nat code))).
  { intros init code Hcode. unfold EmbeddingTable.lookup.
    rewrite decide_True by lia. unfold getitem.
    by rewrite weight_lookup by lia. }
  split; [intros init; by rewrite Hlook by lia|].
  split.
  { intros init update. unfold EmbeddingTable.lookup.
    rewrite decide_True by lia. unfold getitem.
    rewrite step_lookup, weight_lookup by lia. done. }
  split.
  - intros init code. split.
    + intros [row Hrow]. unfold EmbeddingTable.lookup in Hrow.
      destruct (decide (0 <= code)%Z) as [Hnn|]; [|done].
      unfold getitem in Hrow.
      destruct (EmbeddingTable.weight _ init !! Z.to_nat code) as [r|] eqn:Hr;
        [|done].
      apply lookup_lt_Some in Hr. rewrite weight_length in Hr. lia.
    + intros Hcode. rewrite Hlook by done. eauto.
  - intros init code Hcode. rewrite Hlook by lia.
    by rewrite decide_False by lia.
Qed.

Lemma TabResnet_embed_layers_padding_example :
  exists col val dim,
    (col, val, dim) ∈ TabResnet.embed_input example_args
    /\ "emb_layer_b" = "emb_layer_" +:+ col
    /\ mkEmbedding 5 8 (Some 0) = mkEmbedding (val + 1) dim (Some 0)
    /\ (forall init,
          length (EmbeddingTable.weight (mkEmbedding 5 8 (Some 0)) init)
          = val + 1)
    /\ (forall init,
          EmbeddingTable.lookup
            (EmbeddingTable.weight (mkEmbedding 5 8 (Some 0)) init) 0
          = inr (EmbeddingTable.zeros dim))
    /\ (forall init update,
          EmbeddingTable.lookup
            (EmbeddingTable.step (mkEmbedding 5 8 (Some 0)) update
               (EmbeddingTable.weight (mkEmbedding 5 8 (Some 0)) init)) 0
          = inr (EmbeddingTable.zeros dim))
    /\ (forall init code,
          (exists row,
             EmbeddingTable.lookup
               (EmbeddingTable.weight (mkEmbedding 5 8 (Some 0)) init) code
             = inr row)
          <-> (0 <= code <= Z.of_nat val)%Z)
    /\ (forall init code,
          (1 <= code <= Z.of_nat val)%Z ->
          EmbeddingTable.lookup
            (EmbeddingTable.weight (mkEmbedding 5 8 (Some 0)) init) code
          = inr (init (Z.to_nat code))).
Proof.
  apply (TabResnet_embed_layers_padding example_args []
           (built_TabResnet example_args) "emb_layer_b"
           (mkEmbedding 5 8 (Some 0))).
  - apply example_args_init.
  - vm_compute. reflexivity.
Defined.

(** ** TabTransformer: the shape of the output *)


Lemma add_module_values {M} (P : M -> Prop) (s : Sequential M) name m :
  Forall (fun nm => P nm.2) s -> P m ->
  Forall (fun nm => P nm.2) (add_module s name m).
Proof.
  intros Hs Hm. induction Hs as [|[n m'] s Hnm Hs IH]; simpl.
  - by repeat constructor.
  - destruct (decide (n = name)); constructor; done.
Qed.

Lemma sbind_inv_eq {S A B} (m : st S A) (k : A -> st S B) s b s2 :
  sbind m k s = (inr b, s2) ->
  exists a s1, m s = (inr a, s1) /\ k a s1 = (inr b, s2).
Proof.
  unfold sbind. destruct (m s) as [[e|a] s1]; [done|]. by exists a, s1.
Qed.

Lemma TransformerEncoder_init_width input_dim n_heads bias p1 p2 act s blk s' :
  TransformerEncoder.__init__ input_dim n_heads bias p1 p2 act s
    = (inr blk, s') ->
  TransformerEncoder.input_dim blk = input_dim.
Proof.
  unfold TransformerEncoder.__init__. intros H.
  apply sbind_inv_eq in H as (? & ? & _ & H).
  apply sbind_inv_eq in H as (? & ? & _ & H).
  by injection H as <- _.
Qed.

Lemma transformer_blocks_width (a : TabTransformer.args) (xs : list nat) :
  forall acc s blks,
  (for_ xs (TabTransformer.add_block a) acc s).1 = inr blks ->
  Forall (fun nm => TransformerEncoder.input_dim nm.2
                    = TabTransformer.input_dim a) acc ->
  Forall (fun nm => TransformerEncoder.input_dim nm.2
                    = TabTransformer.input_dim a) blks.
Proof.
  induction xs as [|x xs IH]; intros acc s blks Hrun Hacc; simpl in Hrun.
  - by injection Hrun as <-.
  - apply sbind_inv in Hrun as (acc' & s' & Hstep & Hrun).
    apply (IH _ _ _ Hrun).
    unfold TabTransformer.add_block in Hstep.
    apply sbind_inv_eq in Hstep as (blk & s'' & Hblk & Hret).
    injection Hret as <- _.
    apply (add_module_values
             (fun b => TransformerEncoder.input_dim b
                       = TabTransformer.input_dim a)); [done|].
    by apply TransformerEncoder_init_width in Hblk.
Qed.

Lemma TabTransformer_init_inv (a : TabTransformer.args) log self :
  (TabTransformer.__init__ a log).1 = inr self ->
  TabTransformer.self_attrs self = built_attrs a
  /\ Forall (fun nm => TransformerEncoder.input_dim nm.2
                       = TabTransformer.input_dim a)
       (TabTransformer.transformer_blks self)
  /\ TabTransformer.transformer_mlp self
     = MLP.mk (mlp_dims a)
         (built_mlp (mlp_dims a) (TabTransformer.mlp_batchnorm a)
            (TabTransformer.mlp_batchnorm_last a)
            (TabTransformer.mlp_linear_first a))
  /\ last (mlp_dims a) = Some (TabTransformer.output_dim self).
Proof.
  unfold TabTransformer.__init__. intros H.
  apply sbind_inv in H as (base & s1 & Hbase & H).
  unfold BaseTabularModelWithAttention.__init__, sret in Hbase.
  injection Hbase as <- <-. fold (built_attrs a) in H.
  apply sbind_inv in H as (? & s2 & _ & H).
  apply sbind_inv in H as (blks & s3 & Hblks & H).
  fold (mlp_dims a) in H.
  apply sbind_inv in H as (mlp & s4 & Hmlp & H).
  apply sbind_inv in H as (out & s5 & Hout & H).
  injection H as <-. cbn [TabTransformer.self_attrs
    TabTransformer.transformer_blks TabTransformer.transformer_mlp
    TabTransformer.output_dim].
  split; [done|]. split.
  { eapply (transformer_blocks_width a _ [] s2); [by rewrite Hblks|].
    constructor. }
  split.
  { pose proof (MLP_init_yields (mlp_dims a) (TabTransformer.mlp_activation a)
                  (TabTransformer.mlp_dropout a)
                  (TabTransformer.mlp_batchnorm a)
                  (TabTransformer.mlp_batchnorm_last a)
                  (TabTransformer.mlp_linear_first a) s3) as Hy.
    rewrite Hmlp in Hy. by injection Hy. }
  unfold lift, getlast in Hout.
  destruct (last (mlp_dims a)) as [d|]; [|done]. by injection Hout as <- _.
Qed.











Lemma example_transformer_init :
  (TabTransformer.__init__ example_transformer_args []).1
  = inr example_transformer.
Proof. vm_compute. reflexivity. Qed.




Example TabTransformer_forward_example :
  TabTransformer.forward example_transformer example_input = inr [2; 34].
Proof. vm_compute. reflexivity. Qed.

(** Continuous columns alone, not embedded, are rejected. *)
Example TabTransformer_init_only_continuous_example :
  TabTransformer.__init__
    {| TabTransformer.column_idx := {["e" := 0]};
       TabTransformer.cat_embed_input := None;
       TabTransformer.cat_embed_activation := None;
       TabTransformer.continuous_cols := Some ["e"];
       TabTransformer.embed_continuous := false;
       TabTransformer.input_dim := 8;
       TabTransformer.n_heads := 2;
       TabTransformer.use_qkv_bias := false;
       TabTransformer.n_blocks := 2;
       TabTransformer.attn_dropout := 0%Q;
       TabTransformer.ff_dropout := 0%Q;
       TabTransformer.transformer_activation := "gelu";
       TabTransformer.mlp_hidden_dims := None;
       TabTransformer.mlp_activation := "relu";
       TabTransformer.mlp_dropout := 0%Q;
       TabTransformer.mlp_batchnorm := false;
       TabTransformer.mlp_batchnorm_last := false;
       TabTransformer.mlp_linear_first := true |} []
  = (inl ValueError, []).
Proof. vm_compute. reflexivity. Qed.

(** The constructor of [QueryKeySelfAttention] on eight inputs: two heads,
    three heads, no head. *)
Example QueryKeySelfAttention_init_examples :
  (QueryKeySelfAttention.__init__ 8 false 0%Q 2 []).1
    = inr (QueryKeySelfAttention.mk 4 2 (mkLinear 8 16 false) (mkDropout 0)
             None)
  /\ (QueryKeySelfAttention.__init__ 8 false 0%Q 3 []).1 = inl AssertionError
  /\ (QueryKeySelfAttention.__init__ 8 false 0%Q 0 []).1
     = inl ZeroDivisionError.
Proof. by repeat split. Qed.

(** A column declared twice with two widths: the later layer serves both
    entries, the widths no longer add up to what the residual network was
    built for, and [forward] raises. *)
Example TabResnet_forward_duplicate_column :
  let a :=
    {| TabResnet.embed_input := [("a", 4, 8); ("a", 4, 4)];
       TabResnet.column_idx := {["a" := 0]};
       TabResnet.blocks_dims := [12; 4];
       TabResnet.blocks_dropout := 0%Q;
       TabResnet.mlp_hidden_dims := None;
       TabResnet.mlp_activation := "relu";
       TabResnet.mlp_dropout := 0%Q;
       TabResnet.mlp_batchnorm := false;
       TabResnet.mlp_batchnorm_last := false;
       TabResnet.mlp_linear_first := false;
       TabResnet.embed_dropout := 0%Q;
       TabResnet.continuous_cols := None;
       TabResnet.batchnorm_cont := false;
       TabResnet.concat_cont_first := true |} in
  exists self,
    (TabResnet.__init__ a []).1 = inr self
    /\ TabResnet.forward self
         {| Tensor.rows := [[1%Q]; [2%Q]]; Tensor.ncols := 1 |}
       = inl RuntimeError.
Proof. eexists. split; vm_compute; reflexivity. Qed.

(** A residual network from eight inputs over the widths 16, 16 and 4: the
    two input layers, then two blocks, the second with a resize module. *)
Example DenseResnet_init_example :
  exists self,
    (DenseResnet.__init__ (Int 8) [16; 16; 4] 0%Q []).1 = inr self
    /\ (DenseResnet.dense_resnet self).*1
       = ["lin1"; "bn1"; "block_0"; "block_1"]
    /\ BasicBlock.resize <$> blocks_of (DenseResnet.dense_resnet self)
       = [None;
          Some [("0", ALinear (mkLinear 16 4 true));
                ("1", ABatchNorm1d (mkBatchNorm1d 4))]]
    /\ DenseResnet.forward self [5; 8] = inr [5; 4].
Proof. eexists. repeat split; vm_compute; reflexivity. Qed.

(** Without a width to index, the constructor of [DenseResnet] raises
    from the list access, not from a check of its own. *)
Example DenseResnet_init_empty :
  DenseResnet.__init__ (Int 8) [] 0%Q [] = (inl IndexError, []).
Proof. reflexivity. Qed.

(** Without categorical columns the widths sum to a float: the
    constructor of [TabResnet] raises when the residual network needs an
    input layer, and [forward] has nothing to concatenate when it does
    not. *)
Example TabResnet_no_categorical_columns :
  let a (blocks_dims : list nat) :=
    {| TabResnet.embed_input := [];
       TabResnet.column_idx := {["e" := 0]};
       TabResnet.blocks_dims := blocks_dims;
       TabResnet.blocks_dropout := 0%Q;
       TabResnet.mlp_hidden_dims := None;
       TabResnet.mlp_activation := "relu";
       TabResnet.mlp_dropout := 0%Q;
       TabResnet.mlp_batchnorm := false;
       TabResnet.mlp_batchnorm_last := false;
       TabResnet.mlp_linear_first := false;
       TabResnet.embed_dropout := 0%Q;
       TabResnet.continuous_cols := Some ["e"];
       TabResnet.batchnorm_cont := false;
       TabResnet.concat_cont_first := true |} in
  (TabResnet.__init__ (a [16; 4]) []).1 = inl TypeError
  /\ exists self,
       (TabResnet.__init__ (a [1; 4]) []).1 = inr self
       /\ TabResnet.forward self
            {| Tensor.rows := [[1%Q]; [2%Q]]; Tensor.ncols := 1 |}
          = inl RuntimeError.
Proof.
  split; [vm_compute; reflexivity|].
  eexists. split; vm_compute; reflexivity.
Qed.

(** * Further properties of the code *)

(** ** The attention layers on inputs they are not built for *)

Lemma shape_last_cases (s : shape) :
  s = [] \/ exists pre k, s = pre ++ [k].
Proof.
  induction s as [|x s IH] using rev_ind; [by left|].
  right. by exists s, x.
Qed.

Lemma linear_wrong_width (l : Linear) (s : shape) :
  (forall pre, s <> pre ++ [in_features l]) ->
  Shape.linear l s = inl RuntimeError.
Proof.
  intros Hs. unfold Shape.linear.
  destruct (shape_last_cases s) as [->|(pre & k & ->)]; [done|].
  rewrite split_last_app. rewrite decide_False; [done|].
  intros ->. by apply (Hs pre).
Qed.

Lemma linear_mk_last i o b (pre : shape) :
  Shape.linear (mkLinear i o b) (pre ++ [i]) = inr (pre ++ [o]).
Proof. apply (linear_last (mkLinear i o b)). Qed.

Lemma linear_mk_1d i o b : Shape.linear (mkLinear i o b) [i] = inr [o].
Proof. apply (linear_mk_last i o b []). Qed.

Lemma linear_mk_wrong_width i o b (s : shape) :
  (forall pre, s <> pre ++ [i]) ->
  Shape.linear (mkLinear i o b) s = inl RuntimeError.
Proof. apply (linear_wrong_width (mkLinear i o b)). Qed.

(** X1.  A [ContextAttention] built for [input_dim], with a dropout
    rate that the layer accepts, raises [RuntimeError] on every tensor
    whose last axis is not [input_dim], and [IndexError] on a tensor of one
    or two axes whose last axis is [input_dim]: without a sequence axis
    there is no axis [1] for the softmax, or no axis [2] to squeeze. *)
Theorem ContextAttention_forward_rejects
  (input_dim : nat) (dropout : Q) (sum_along_seq : bool) (log : list built) :
  dropout_rate dropout ->
  exists self,
    (ContextAttention.__init__ input_dim dropout sum_along_seq log).1
      = inr self
    /\ (forall X, (forall pre, X <> pre ++ [input_dim]) ->
                  ContextAttention.forward self X = inl RuntimeError)
    /\ ContextAttention.forward self [input_dim] = inl IndexError
    /\ (forall batch,
          ContextAttention.forward self [batch; input_dim] = inl IndexError).
Proof.
  intros Hd. eexists. split; [by apply ContextAttention_init_ok|].
  unfold ContextAttention.forward. cbn [ContextAttention.inp_proj
    ContextAttention.context ContextAttention.sum_along_seq
    a_linear a_tanh a_softmax a_squeeze shape_attn_ops].
  split; [|split].
  - intros X HX. by rewrite linear_mk_wrong_width.
  - rewrite linear_mk_1d. cbn [bind ret]. by rewrite linear_mk_1d.
  - intros batch. rewrite linear_mk_2d. cbn [bind ret].
    by rewrite linear_mk_2d.
Qed.

Lemma ContextAttention_forward_rejects_example :
  exists self,
    (ContextAttention.__init__ 8 (1 # 10) true []).1 = inr self
    /\ (forall X, (forall pre, X <> pre ++ [8]) ->
                  ContextAttention.forward self X = inl RuntimeError)
    /\ ContextAttention.forward self [8] = inl IndexError
    /\ (forall batch,
          ContextAttention.forward self [batch; 8] = inl IndexError).
Proof.
  apply (ContextAttention_forward_rejects 8 (1 # 10) true []).
  split; discriminate.
Defined.

(** X2.  A [QueryKeySelfAttention] whose construction succeeded raises
    [RuntimeError] on every tensor that is not of shape
    [(batch, seq, input_dim)]: from the projection when the last axis is
    not [input_dim], from the rearrangement into heads when the number of
    axes is not three. *)
Theorem QueryKeySelfAttention_forward_rejects
  (input_dim : nat) (use_bias : bool) (dropout : Q) (n_heads : nat)
  (log : list built) (self : QueryKeySelfAttention.t) (X : shape) :
  (QueryKeySelfAttention.__init__ (Z.of_nat input_dim) use_bias dropout
     (Z.of_nat n_heads) log).1
    = inr self ->
  (forall batch seq, X <> [batch; seq; input_dim]) ->
  QueryKeySelfAttention.forward self X = inl RuntimeError.
Proof.
  rewrite QueryKeySelfAttention_init_cases.
  destruct (decide (Z.of_nat n_heads = 0)%Z) as [Hz|Hz]; [done|].
  destruct (decide (Z.of_nat input_dim `mod` Z.of_nat n_heads = 0)%Z)
    as [Hm|Hm]; [|done].
  rewrite decide_True by lia.
  destruct (Qle_bool 0 dropout && Qle_bool dropout 1); [|done].
  intros [= <-] HX.
  unfold QueryKeySelfAttention.forward.
  cbn [QueryKeySelfAttention.qk_proj QueryKeySelfAttention.n_heads].
  rewrite Nat2Z.id.
  replace (Z.to_nat (Z.of_nat input_dim * 2)) with (input_dim * 2) by lia.
  destruct (shape_last_cases X) as [->|(pre & k & ->)]; [done|].
  destruct (decide (k = input_dim)) as [->|Hk].
  - rewrite linear_mk_last. cbn [bind ret].
    rewrite (chunk2_even pre input_dim). cbn [bind ret unpack2].
    destruct pre as [|b [|s [|c pre]]].
    + done.
    + done.
    + by destruct (HX b s).
    + destruct pre; done.
  - rewrite linear_mk_wrong_width; [done|].
    intros pre' Heq. apply app_inj_tail in Heq as [_ ->]. done.
Qed.

Lemma QueryKeySelfAttention_forward_rejects_example :
  QueryKeySelfAttention.forward
    (QueryKeySelfAttention.mk 4%Z 2%Z (mkLinear 8 16 false) (mkDropout 0)
       None)
    [5; 8]
  = inl RuntimeError.
Proof.
  apply (QueryKeySelfAttention_forward_rejects 8 false 0%Q 2 [] _ [5; 8]
           eq_refl).
  intros batch seq. discriminate.
Defined.

(** ** TabTransformer: the blocks, the widths of the MLP, and a model
       without columns *)

Lemma TransformerEncoder_init_inv input_dim n_heads bias p1 p2 act s blk s' :
  TransformerEncoder.__init__ input_dim n_heads bias p1 p2 act s
    = (inr blk, s') ->
  blk = TransformerEncoder.mk input_dim n_heads.
Proof.
  unfold TransformerEncoder.__init__. intros H.
  apply sbind_inv_eq in H as (? & ? & _ & H).
  apply sbind_inv_eq in H as (? & ? & _ & H).
  by injection H as <- _.
Qed.

Lemma transformer_blocks_built (a : TabTransformer.args) len :
  forall k acc s blks s',
  for_ (seq k len) (TabTransformer.add_block a) acc s = (inr blks, s') ->
  (forall j : nat, k <= j -> "transformer_block" +:+ pretty j ∉ acc.*1) ->
  blks = acc ++ ((fun i => ("transformer_block" +:+ pretty i,
                            TransformerEncoder.mk (TabTransformer.input_dim a)
                              (TabTransformer.n_heads a))) <$> seq k len).
Proof.
  induction len as [|len IH]; intros k acc s blks s' Hrun Hfresh;
    cbn [seq for_] in *.
  - rewrite fmap_nil, app_nil_r. by injection Hrun as <- _.
  - apply sbind_inv_eq in Hrun as (acc' & s1 & Hstep & Hrun).
    unfold TabTransformer.add_block in Hstep.
    apply sbind_inv_eq in Hstep as (blk & s2 & Hblk & Hret).
    apply TransformerEncoder_init_inv in Hblk as ->.
    injection Hret as <- _.
    rewrite add_module_fresh in Hrun by (apply Hfresh; lia).
    apply IH in Hrun.
    + rewrite Hrun, fmap_cons. by rewrite <-app_assoc.
    + intros j Hj. rewrite fmap_app. simpl.
      rewrite not_elem_of_app. split; [apply Hfresh; lia|].
      rewrite list_elem_of_singleton. intros Hname.
      apply numbered_name_inj in Hname. lia.
Qed.

(** X3.  A [TabTransformer] whose construction succeeded holds exactly
    [n_blocks] transformer blocks, registered in order under the names
    [transformer_block0], [transformer_block1], ...: the names differ, so
    that no block takes the place of another, and every block is built for
    the same [input_dim] and [n_heads]. *)
Theorem TabTransformer_init_blocks
  (a : TabTransformer.args) (log : list built) (self : TabTransformer.t) :
  (TabTransformer.__init__ a log).1 = inr self ->
  length (TabTransformer.transformer_blks self) = TabTransformer.n_blocks a
  /\ (forall i, i < TabTransformer.n_blocks a ->
        TabTransformer.transformer_blks self !! i
        = Some ("transformer_block" +:+ pretty i,
                TransformerEncoder.mk (TabTransformer.input_dim a)
                  (TabTransformer.n_heads a)))
  /\ NoDup (TabTransformer.transformer_blks self).*1.
Proof.
  unfold TabTransformer.__init__. intros H.
  apply sbind_inv in H as (base & s1 & _ & H).
  apply sbind_inv in H as (? & s2 & _ & H).
  apply sbind_inv in H as (blks & s3 & Hblks & H).
  apply sbind_inv in H as (mlp & s4 & _ & H).
  apply sbind_inv in H as (out & s5 & _ & H).
  injection H as <-. cbn [TabTransformer.transformer_blks].
  unfold range in Hblks. rewrite Nat.sub_0_r in Hblks.
  apply transformer_blocks_built in Hblks;
    [|intros j _; apply not_elem_of_nil].
  rewrite app_nil_l in Hblks. subst blks.
  split; [by rewrite length_fmap, length_seq|]. split.
  - intros i Hi. unfold Sequential.
    by rewrite list_lookup_fmap, lookup_seq_lt.
  - rewrite <-list_fmap_compose. apply NoDup_fmap_2; [|apply NoDup_seq].
    intros i j Hij. simpl in Hij. by apply numbered_name_inj in Hij.
Qed.

Lemma TabTransformer_init_blocks_example :
  length (TabTransformer.transformer_blks example_transformer)
  = TabTransformer.n_blocks example_transformer_args
  /\ (forall i, i < TabTransformer.n_blocks example_transformer_args ->
        TabTransformer.transformer_blks example_transformer !! i
        = Some ("transformer_block" +:+ pretty i,
                TransformerEncoder.mk
                  (TabTransformer.input_dim example_transformer_args)
                  (TabTransformer.n_heads example_transformer_args)))
  /\ NoDup (TabTransformer.transformer_blks example_transformer).*1.
Proof.
  exact (TabTransformer_init_blocks example_transformer_args [] _
           example_transformer_init).
Defined.

(** X4.  The widths of the final MLP of a [TabTransformer]: without
    [mlp_hidden_dims], be it [None] or an empty list, the MLP goes from
    the width [l] that [_compute_attn_output_dim] returns to [4 * l] and
    [2 * l], and [output_dim] is [2 * l]; with a non-empty list, the MLP
    goes from [l] through the listed widths and [output_dim] is the last
    of them. *)
Theorem TabTransformer_init_mlp_widths
  (a : TabTransformer.args) (log : list built) (self : TabTransformer.t) :
  (TabTransformer.__init__ a log).1 = inr self ->
  let l := TabTransformer._compute_attn_output_dim
             (TabTransformer.self_attrs self) in
  match TabTransformer.mlp_hidden_dims a with
  | Some (d :: ds) =>
      MLP.d_hidden (TabTransformer.transformer_mlp self) = l :: d :: ds
      /\ last (d :: ds) = Some (TabTransformer.output_dim self)
  | _ =>
      MLP.d_hidden (TabTransformer.transformer_mlp self) = [l; l * 4; l * 2]
      /\ TabTransformer.output_dim self = l * 2
  end.
Proof.
  intros Hinit l.
  apply TabTransformer_init_inv in Hinit as (Hattrs & _ & Hmlp & Hlast).
  subst l. rewrite Hattrs, Hmlp. cbn [MLP.d_hidden].
  unfold mlp_dims in *. cbv zeta in *.
  destruct (TabTransformer.mlp_hidden_dims a) as [[|d ds]|];
    cbn [TabTransformer.not_ default from_option id app] in *.
  - split; [done|]. cbn in Hlast. by injection Hlast.
  - split; [done|]. by rewrite last_cons_cons in Hlast.
  - split; [done|]. cbn in Hlast. by injection Hlast.
Qed.

Lemma TabTransformer_init_mlp_widths_example :
  MLP.d_hidden (TabTransformer.transformer_mlp example_transformer)
  = [17; 17 * 4; 17 * 2]
  /\ TabTransformer.output_dim example_transformer = 17 * 2.
Proof.
  exact (TabTransformer_init_mlp_widths example_transformer_args [] _
           example_transformer_init).
Defined.

(** X5.  A [TabTransformer] without categorical columns that does not
    embed its continuous columns passes the check of the constructor only
    when it has no continuous column either; its [forward] then raises
    [UnboundLocalError]: [x] is bound only when there are categorical
    embeddings. *)
Theorem TabTransformer_forward_unbound
  (a : TabTransformer.args) (log : list built) (self : TabTransformer.t)
  (X : Tensor.t) :
  (TabTransformer.__init__ a log).1 = inr self ->
  TabTransformer.cat_embed_input a = None ->
  TabTransformer.embed_continuous a = false ->
  TabTransformer.len_or_0 (TabTransformer.continuous_cols a) = 0
  /\ TabTransformer.forward self X = inl UnboundLocalError.
Proof.
  intros Hinit Hcat Hemb.
  assert (Hcont : TabTransformer.len_or_0
                    (TabTransformer.continuous_cols a) = 0);
    [|split; [done|]].
  - destruct (decide (TabTransformer.len_or_0
                        (TabTransformer.continuous_cols a) = 0)) as [|Hne];
      [done|].
    unfold TabTransformer.__init__ in Hinit.
    apply sbind_inv in Hinit as (base & s1 & Hbase & Hinit).
    unfold BasicBlock.__init__, BaseTabularModelWithAttention.__init__,
      sret in Hbase.
    injection Hbase as <- <-.
    apply sbind_inv in Hinit as (? & s2 & Hcheck & _).
    unfold TabTransformer.check_only_continuous,
      TabTransformer.only_continuous, TabTransformer.embed_continuous_of,
      lift in Hcheck.
    cbn [TabTransformer.n_cont TabTransformer.n_cat TabTransformer.base
         BaseTabularModelWithAttention.embed_continuous] in Hcheck.
    rewrite Hcat, Hemb in Hcheck. cbn [TabTransformer.len_or_0] in Hcheck.
    rewrite bool_decide_eq_true_2 in Hcheck by done.
    rewrite (bool_decide_eq_false_2 (0 ≠ 0)) in Hcheck by (by intros ?).
    done.
  - apply TabTransformer_init_inv in Hinit as (Hattrs & _).
    unfold TabTransformer.forward, TabTransformer.attn_output.
    rewrite Hattrs. cbv zeta.
    unfold TabTransformer.embed_continuous_of,
      BaseTabularModelWithAttention.cat_and_cont_embed.
    cbn [TabTransformer.base built_attrs
         BaseTabularModelWithAttention.embed_continuous
         BaseTabularModelWithAttention.cat_embed_input
         BaseTabularModelWithAttention.continuous_cols].
    rewrite Hemb, Hcat. cbn [negb bind ret].
    by destruct (TabTransformer.continuous_cols a) as [[|c cols]|].
Qed.

Lemma TabTransformer_forward_unbound_example :
  exists self,
    (TabTransformer.__init__ example_transformer_args_bare []).1 = inr self
    /\ TabTransformer.len_or_0
         (TabTransformer.continuous_cols example_transformer_args_bare) = 0
    /\ TabTransformer.forward self example_input = inl UnboundLocalError.
Proof.
  eexists. split; [vm_compute; reflexivity|].
  apply (TabTransformer_forward_unbound example_transformer_args_bare []);
    [vm_compute; reflexivity|done|done].
Defined.

(** ** BasicBlock: what the in-place operations can reach *)

Section Frame.
Context {T : Type}.
Implicit Types (h : @Store.heap T) (r : Store.ref) (v : T).









End Frame.


Section BlockFrame.
Context {T : Type} `{TensorOps T}.


End BlockFrame.


(** A block on a store of two tensors, called on the first one. *)
Example BasicBlock_forward_frame_example :
  let run := BasicBlock.forward (T := shape) example_block 0 [[4; 3]; [7]] in
  run.1 = inr 5 /\ run.2 !! 0 = Some [4; 3] /\ run.2 !! 1 = Some [7]
  /\ run.2 !! 5 = Some [4; 2] /\ length run.2 = 7.
Proof. vm_compute. by repeat split. Qed.

(** ** BasicBlock without a resize module *)

Section BlockRun.
Context {T : Type} `{TensorOps T}.

(** [forward] on the store against the value of the block. *)
Lemma BasicBlock_forward_run (self : BasicBlock.t) (h : @Store.heap T)
  (x : Store.ref) (vx : T) :
  h !! x = Some vx ->
  agrees h (BasicBlock.residual self vx) (BasicBlock.forward self x h).
Proof.
  intros Hx.
  unfold BasicBlock.forward, BasicBlock.residual, BasicBlock.transform.
  rewrite !bind_assoc.
  apply agrees_fresh; [done|]. intros v1 _. cbv beta.
  rewrite !bind_assoc.
  apply agrees_fresh; [apply lookup_last_cell|]. intros v2 _. cbv beta zeta.
  eapply agrees_inplace; [apply lookup_last_cell|].
  rewrite insert_last_cell, !bind_assoc.
  assert (Hframe : forall i, i < length h -> (h ++ [v1]) !! i = h !! i).
  { intros i Hi. by rewrite lookup_app_l. }
  assert (Hlen : length h <= length (h ++ [v1])).
  { rewrite length_app. lia. }
  destruct (BasicBlock.dropout self).
  - apply agrees_fresh; [apply lookup_last_cell|]. intros v3 _. cbv beta.
    rewrite !bind_assoc.
    apply BasicBlock_forward_tail; [|rewrite length_app; lia|done].
    intros i Hi. rewrite lookup_app_l by lia. by apply Hframe.
  - unfold sbind at 1. unfold sret at 1.
    change (bind (ret ?v) ?k) with (k v). cbv beta.
    rewrite !bind_assoc. by apply BasicBlock_forward_tail.
Qed.

End BlockRun.

Lemma iadd_2d n a b :
  Shape.iadd [n; a] [n; b]
  = if decide (b = a \/ b = 1) then inr [n; a] else inl RuntimeError.
Proof.
  unfold Shape.iadd, broadcast. cbn [reverse rev_append broadcast_rev].
  rewrite (broadcast_axis_refl n). unfold broadcast_axis.
  destruct (decide (a = b)) as [->|Hab].
  - cbn. rewrite decide_True by done. by rewrite decide_True by (by left).
  - destruct (decide (a = 1)) as [->|Ha].
    + cbn. rewrite decide_False by congruence.
      rewrite decide_False; [done|]. intros [?|?]; congruence.
    + destruct (decide (b = 1)) as [->|Hb].
      * cbn. rewrite decide_True by done. by rewrite decide_True by (by right).
      * cbn. rewrite decide_False; [done|]. intros [?|?]; congruence.
Qed.

(** X7.  A block built without a resize module adds its input as it is:
    called on a tensor of shape [(n, inp)], of more than one row as batch
    normalisation wants it, it returns a tensor of shape [(n, out)] when
    [inp = out], and also when [inp = 1], where the single column is
    broadcast; for every other pair of widths the addition raises
    [RuntimeError]. *)
Theorem BasicBlock_forward_no_resize
  (inp out : nat) (dropout : Q) (log : list built) (n : nat)
  (h : @Store.heap shape) (x : Store.ref) :
  dropout_rate dropout ->
  1 < n ->
  h !! x = Some [n; inp] ->
  exists self,
    (BasicBlock.__init__ inp out dropout None log).1 = inr self
    /\ let run := BasicBlock.forward self x h in
       if decide (inp = out \/ inp = 1) then
         exists r, run.1 = inr r /\ run.2 !! r = Some [n; out]
       else run.1 = inl RuntimeError.
Proof.
  intros [_ Hd] Hn Hx. exists (built_block inp out dropout None).
  split; [by apply BasicBlock_init_yields|]. cbv zeta.
  pose proof (BasicBlock_forward_run (built_block inp out dropout None)
                h x [n; inp] Hx) as Hrun.
  assert (Hval : BasicBlock.residual (T := shape)
                   (built_block inp out dropout None) [n; inp]
                 = if decide (inp = out \/ inp = 1) then inr [n; out]
                   else inl RuntimeError).
  { unfold BasicBlock.residual, BasicBlock.transform, BasicBlock.identity_of,
      BasicBlock.call_dp, built_block.
    cbn [BasicBlock.lin1 BasicBlock.bn1 BasicBlock.dropout BasicBlock.dp
         BasicBlock.lin2 BasicBlock.bn2 BasicBlock.resize t_linear
         t_batch_norm1d t_leaky_relu t_dropout t_iadd shape_ops].
    rewrite linear_mk_2d. cbn [bind ret].
    rewrite batch_norm1d_mk_2d by lia. cbn [bind ret].
    destruct (Qgtb dropout 0); cbn [bind ret];
      rewrite linear_mk_2d; cbn [bind ret];
      rewrite batch_norm1d_mk_2d by lia; cbn [bind ret];
      rewrite iadd_2d; by destruct (decide (inp = out \/ inp = 1)). }
  rewrite Hval in Hrun. unfold agrees in Hrun.
  destruct (decide (inp = out \/ inp = 1)).
  - destruct Hrun as (r & h' & -> & Hr & _). by exists r.
  - destruct Hrun as (h' & ->). done.
Qed.

Lemma BasicBlock_forward_no_resize_example :
  exists self,
    (BasicBlock.__init__ 3 2 0%Q None []).1 = inr self
    /\ let run := BasicBlock.forward self 0 [[4; 3]] in
       if decide (3 = 2 \/ 3 = 1) then
         exists r, run.1 = inr r /\ run.2 !! r = Some [4; 2]
       else run.1 = inl RuntimeError.
Proof.
  apply (BasicBlock_forward_no_resize 3 2 0%Q [] 4 [[4; 3]] 0);
    [split; discriminate|lia|reflexivity].
Defined.

(** ** DenseResnet: the modules it registers and the widths it accepts *)

Lemma built_dense_resnet_names d dims dropout :
  (built_dense_resnet d dims dropout).*1
  = (if decide (d ≠ dims !!! 0) then ["lin1"; "bn1"] else [])
    ++ ((fun i : nat => "block_" +:+ pretty i) <$> seq 0 (length dims - 1)).
Proof.
  unfold built_dense_resnet, stem. rewrite fmap_app. f_equal.
  { by destruct (decide (d ≠ dims !!! 0)). }
  rewrite <-list_fmap_compose.
  rewrite <-(fmap_add_seq 1 0), <-list_fmap_compose.
  apply list_fmap_ext. intros i j _. simpl. by rewrite Nat.sub_0_r.
Qed.

(** X8.  The modules of a [DenseResnet] over [n >= 1] widths, built with a
    dropout rate that the layer accepts, in order:
    [lin1] and [bn1] when [input_dim] differs from the first width, then
    [block_0] to [block_(n-2)].  The names differ from one another, so
    that no call of [add_module] replaces a module registered before. *)
Theorem DenseResnet_init_names
  (input_dim : nat) (blocks_dims : list nat) (dropout : Q)
  (log : list built) (first : nat) :
  dropout_rate dropout ->
  blocks_dims !! 0 = Some first ->
  exists self,
    (DenseResnet.__init__ (Int input_dim) blocks_dims dropout log).1
      = inr self
    /\ (DenseResnet.dense_resnet self).*1
       = (if decide (input_dim = first) then [] else ["lin1"; "bn1"])
         ++ ((fun i : nat => "block_" +:+ pretty i)
             <$> seq 0 (length blocks_dims - 1))
    /\ NoDup (DenseResnet.dense_resnet self).*1.
Proof.
  intros [_ Hd] Hfirst.
  assert (Hlen : 1 <= length blocks_dims).
  { apply lookup_lt_Some in Hfirst. lia. }
  assert (Hfirst' : blocks_dims !!! 0 = first).
  { by apply list_lookup_total_correct. }
  eexists. split; [by apply DenseResnet_init_yields|].
  cbn [DenseResnet.dense_resnet]. rewrite built_dense_resnet_names, Hfirst'.
  assert (Hstem : (if decide (input_dim ≠ first) then ["lin1"; "bn1"] else [])
                  = if decide (input_dim = first) then [] else ["lin1"; "bn1"]).
  { destruct (decide (input_dim = first)) as [->|Hne].
    - by rewrite decide_False by (by intros ?).
    - by rewrite decide_True. }
  rewrite Hstem. split; [done|].
  apply NoDup_app. split; [|split].
  - destruct (decide (input_dim = first)); [constructor|].
    apply NoDup_cons. split; [|apply NoDup_singleton].
    rewrite list_elem_of_singleton. discriminate.
  - intros name Hname Hblock.
    apply list_elem_of_fmap in Hblock as (i & -> & _).
    destruct (decide (input_dim = first)); [by apply elem_of_nil in Hname|].
    apply elem_of_cons in Hname as [Hname|Hname]; [discriminate|].
    apply list_elem_of_singleton in Hname. discriminate.
  - apply NoDup_fmap_2; [|apply NoDup_seq].
    intros i j Hij. by apply numbered_name_inj in Hij.
Qed.

Lemma DenseResnet_init_names_example :
  exists self,
    (DenseResnet.__init__ (Int 8) [16; 16; 4] 0%Q []).1 = inr self
    /\ (DenseResnet.dense_resnet self).*1
       = (if decide (8 = 16) then [] else ["lin1"; "bn1"])
         ++ ((fun i : nat => "block_" +:+ pretty i)
             <$> seq 0 (length [16; 16; 4] - 1))
    /\ NoDup (DenseResnet.dense_resnet self).*1.
Proof.
  apply (DenseResnet_init_names 8 [16; 16; 4] 0%Q [] 16);
    [split; discriminate|reflexivity].
Defined.

Lemma linear_mk_2d_wrong i o b n w :
  w <> i -> Shape.linear (mkLinear i o b) [n; w] = inl RuntimeError.
Proof.
  intros Hw. apply linear_mk_wrong_width. intros pre Heq.
  change [n; w] with ([n] ++ [w]) in Heq.
  apply app_inj_tail in Heq as [_ ->]. done.
Qed.

Lemma residual_wrong_width prev cur dropout resize n w :
  w <> prev ->
  BasicBlock.residual (T := shape) (built_block prev cur dropout resize)
    [n; w]
  = inl RuntimeError.
Proof.
  intros Hw. unfold BasicBlock.residual, BasicBlock.transform, built_block.
  cbn [BasicBlock.lin1 t_linear shape_ops].
  by rewrite linear_mk_2d_wrong.
Qed.

(** X9.  A [DenseResnet] built for [input_dim], with a dropout rate that
    the layer accepts, takes a tensor of shape [(n, input_dim)], of more
    than one row as batch normalisation wants it, to one of shape
    [(n, blocks_dims[-1])].  On a tensor of
    another width its first layer raises [RuntimeError] -- unless
    [blocks_dims] is the single width [input_dim]: the network then holds
    no layer and returns any tensor as it is. *)
Theorem DenseResnet_forward_widths
  (input_dim : nat) (blocks_dims : list nat) (dropout : Q)
  (log : list built) (last_dim : nat) :
  dropout_rate dropout ->
  last blocks_dims = Some last_dim ->
  exists self,
    (DenseResnet.__init__ (Int input_dim) blocks_dims dropout log).1
      = inr self
    /\ (forall n, 1 < n ->
          DenseResnet.forward self [n; input_dim] = inr [n; last_dim])
    /\ (forall n w, w <> input_dim ->
          DenseResnet.forward self [n; w]
          = if decide (blocks_dims = [input_dim]) then inr [n; w]
            else inl RuntimeError).
Proof.
  intros [_ Hd] Hlast.
  assert (Hlen : 1 <= length blocks_dims).
  { destruct blocks_dims; [done|]. simpl. lia. }
  assert (Hlast' : blocks_dims !!! (length blocks_dims - 1) = last_dim).
  { rewrite last_lookup in Hlast.
    replace (pred (length blocks_dims)) with (length blocks_dims - 1)
      in Hlast by lia.
    by apply list_lookup_total_correct. }
  eexists. split; [by apply DenseResnet_init_yields|].
  unfold DenseResnet.forward. cbn [DenseResnet.dense_resnet].
  split.
  { intros n Hn. rewrite DenseResnet_forward_shape by (done || lia).
    by rewrite Hlast'. }
  intros n w Hw. unfold built_dense_resnet, stem.
  destruct (decide (input_dim ≠ blocks_dims !!! 0)) as [Hne|Heq].
  - cbn [app call_sequential DenseResnet.call_module call_layer t_linear
         shape_ops].
    rewrite linear_mk_2d_wrong by done. cbn [bind].
    rewrite decide_False; [done|]. intros ->. by apply Hne.
  - apply dec_stable in Heq. rewrite app_nil_l.
    destruct blocks_dims as [|b0 [|b1 rest]]; [done| |].
    + cbn in Heq. subst b0. by rewrite decide_True.
    + cbn in Heq. subst b0.
      rewrite decide_False by discriminate.
      cbn [length Nat.sub seq]. rewrite fmap_cons.
      cbn [call_sequential numbered snd]. unfold block_at at 1.
      cbn [DenseResnet.call_module].
      by rewrite residual_wrong_width.
Qed.

Lemma DenseResnet_forward_widths_example :
  exists self,
    (DenseResnet.__init__ (Int 8) [16; 4] 0%Q []).1 = inr self
    /\ (forall n, 1 < n -> DenseResnet.forward self [n; 8] = inr [n; 4])
    /\ (forall n w, w <> 8 ->
          DenseResnet.forward self [n; w]
          = if decide ([16; 4] = [8]) then inr [n; w] else inl RuntimeError).
Proof.
  apply (DenseResnet_forward_widths 8 [16; 4] 0%Q [] 4);
    [split; discriminate|reflexivity].
Defined.

(** ** TabResnet: how construction ends *)

Local Ltac outcome_side :=
  try (intros [self Hself]; discriminate Hself);
  try (intros; split; [lia|]);
  try (intros;
       repeat match goal with
         | H : _ /\ _ |- _ => destruct H
         | H : _ \/ _ |- _ => destruct H
         end;
       first [done | lia | by left | by right | by eexists
             | by (split; [done|left]) | by (split; [done|right])]).

(** X10.  The four ways in which [TabResnet(...)] ends, for settings
    that the layers accept.  It raises [ValueError] exactly when
    [blocks_dims] has fewer than two widths.  With two widths or more, it
    raises [KeyError] exactly when the name of a categorical column holds
    a dot, which no key of a [ModuleDict] may; it raises [TypeError]
    exactly when there is no categorical column and the first width
    differs from the number of continuous columns fed to the residual
    network (none unless [concat_cont_first]): the sum of no embedding
    widths is a float, and the input layer cannot be built from it.  In
    every other case it returns a model. *)
Theorem TabResnet_init_outcome (a : TabResnet.args) (log : list built) :
  TabResnet_settings a ->
  let r := (TabResnet.__init__ a log).1 in
  let width := if TabResnet.concat_cont_first a then cont_inp_dim a else 0 in
  (r = inl ValueError <-> length (TabResnet.blocks_dims a) < 2)
  /\ (r = inl KeyError <->
        2 <= length (TabResnet.blocks_dims a)
        /\ ~ TabResnet_names a)
  /\ (r = inl TypeError <->
        2 <= length (TabResnet.blocks_dims a)
        /\ TabResnet.embed_input a = []
        /\ TabResnet.blocks_dims a !! 0 <> Some width)
  /\ ((exists self, r = inr self) <->
        2 <= length (TabResnet.blocks_dims a)
        /\ TabResnet_names a
        /\ (TabResnet.embed_input a <> []
            \/ TabResnet.blocks_dims a !! 0 = Some width)).
Proof.
  intros (Hrate & [_ Hblocks] & _). cbv zeta.
  fold (cont_first_dim a).
  destruct (decide (length (TabResnet.blocks_dims a) < 2)) as [Hshort|Hlen].
  { rewrite (TabResnet_init_short a log Hshort). cbn [fst].
    split_and!; split; try done; try lia; outcome_side. }
  assert (Hlen' : 2 <= length (TabResnet.blocks_dims a)) by lia.
  destruct (decide (TabResnet.embed_input a = [])) as [Hemb|Hemb].
  - assert (Hnames : TabResnet_names a).
    { unfold TabResnet_names. rewrite Hemb. constructor. }
    destruct (decide (TabResnet.blocks_dims a !! 0
                      = Some (cont_first_dim a))) as [Hw|Hw].
    + destruct (TabResnet_init_returns a Hlen' Hnames Hrate (or_intror Hw)
                  Hblocks) as (self & Hy & _).
      rewrite (Hy log).
      split_and!; split; try done; try lia; outcome_side.
    + rewrite (TabResnet_init_type_error a Hlen' Hrate Hemb Hw log).
      split_and!; split; try done; try lia; outcome_side.
  - destruct (Forall_dec (fun e : string * nat * nat =>
                            contains "."%char e.1.1 = false)
                (TabResnet.embed_input a)) as [Hnames|Hnames].
    + destruct (TabResnet_init_returns a Hlen' Hnames Hrate (or_introl Hemb)
                  Hblocks) as (self & Hy & _).
      rewrite (Hy log).
      split_and!; split; try done; try lia; outcome_side.
    + rewrite (TabResnet_init_names_raise a Hlen' Hnames log).
      split_and!; split; try done; try lia; outcome_side.
Qed.

Lemma example_args_settings : TabResnet_settings example_args.
Proof.
  repeat split; try discriminate.
  simpl. apply elem_of_cons. right. apply elem_of_cons. by left.
Qed.

Lemma TabResnet_init_outcome_example :
  let r := (TabResnet.__init__ example_args []).1 in
  let width :=
    if TabResnet.concat_cont_first example_args
    then cont_inp_dim example_args else 0 in
  (r = inl ValueError <-> length (TabResnet.blocks_dims example_args) < 2)
  /\ (r = inl KeyError <->
        2 <= length (TabResnet.blocks_dims example_args)
        /\ ~ TabResnet_names example_args)
  /\ (r = inl TypeError <->
        2 <= length (TabResnet.blocks_dims example_args)
        /\ TabResnet.embed_input example_args = []
        /\ TabResnet.blocks_dims example_args !! 0 <> Some width)
  /\ ((exists self, r = inr self) <->
        2 <= length (TabResnet.blocks_dims example_args)
        /\ TabResnet_names example_args
        /\ (TabResnet.embed_input example_args <> []
            \/ TabResnet.blocks_dims example_args !! 0 = Some width)).
Proof.
  apply (TabResnet_init_outcome example_args []).
  apply example_args_settings.
Defined.

(** A column name with a dot: the constructor raises from the module
    dictionary. *)
Example TabResnet_init_dotted_column :
  (TabResnet.__init__ example_args_dotted []).1 = inl KeyError.
Proof. vm_compute. reflexivity. Qed.

(** ** TabResnet: how [forward] ends *)

Lemma codes_in_table (X : Tensor.t) (j n : nat) :
  Forall (Tensor.in_table n)
    (Tensor.long (map (fun r => nth j r 0%Q) (Tensor.rows X)))
  <-> Forall (fun r => Tensor.in_table n (Tensor.trunc (nth j r 0%Q)))
        (Tensor.rows X).
Proof. unfold Tensor.long. by rewrite !List.Forall_map. Qed.

(** The embedding of one declared column: its shape, or the reason why
    there is none. *)
Lemma embed_column_cases (a : TabResnet.args) (X : Tensor.t) e :
  NoDup (embed_key <$> TabResnet.embed_input a) ->
  e ∈ TabResnet.embed_input a ->
  match TabResnet.embed_column (built_TabResnet a) X e with
  | inr s =>
      s = [Tensor.nrows X; e.2]
      /\ Valid.has_codes (TabResnet.column_idx a) X e
  | inl err =>
      ~ Valid.has_codes (TabResnet.column_idx a) X e
      /\ (err = KeyError /\ TabResnet.column_idx a !! e.1.1 = None
          \/ err = IndexError)
  end.
Proof.
  intros Hnd He. unfold TabResnet.embed_column, Valid.has_codes.
  destruct e as [[col val] dim]. cbn [TabResnet.embed_layers built_TabResnet
    TabResnet.self_args fst snd].
  unfold dict_get at 1. unfold built_embed_layers.
  rewrite (embed_layers_lookup _ ∅ (col, val, dim) Hnd He). cbn [bind ret].
  unfold dict_get.
  destruct (TabResnet.column_idx a !! col) as [j|]; cbn [bind ret raise];
    [|split; [tauto|by left]].
  unfold Tensor.column.
  destruct (decide (j < Tensor.ncols X)) as [Hj|Hj]; cbn [bind ret raise];
    [|split; [tauto|by right]].
  unfold Tensor.embedding, embed_layer_of. cbn [num_embeddings embedding_dim
    fst snd].
  destruct (decide (Forall (Tensor.in_table (val + 1))
      (Tensor.long (map (fun r => nth j r 0%Q) (Tensor.rows X)))))
    as [Hc|Hc]; cbn [ret raise].
  - split; [by rewrite long_length, length_map|].
    split; [done|]. by apply codes_in_table.
  - split; [|by right]. intros [_ H]. by apply Hc, codes_in_table.
Qed.

Lemma embed_columns_cases (a : TabResnet.args) (X : Tensor.t)
  (l : list (string * nat * nat)) :
  NoDup (embed_key <$> TabResnet.embed_input a) ->
  l ⊆ TabResnet.embed_input a ->
  match comprehension (TabResnet.embed_column (built_TabResnet a) X) l with
  | inr ss =>
      ss = (fun e => [Tensor.nrows X; e.2]) <$> l
      /\ Forall (Valid.has_codes (TabResnet.column_idx a) X) l
  | inl err =>
      ~ Forall (Valid.has_codes (TabResnet.column_idx a) X) l
      /\ (err = KeyError
          /\ (exists e, e ∈ l /\ TabResnet.column_idx a !! e.1.1 = None)
          \/ err = IndexError)
  end.
Proof.
  intros Hnd. induction l as [|e l IH]; intros Hsub; [by split|].
  cbn [comprehension].
  pose proof (embed_column_cases a X e Hnd (Hsub e ltac:(left))) as He.
  destruct (TabResnet.embed_column (built_TabResnet a) X e) as [err|s];
    cbn [bind ret].
  - destruct He as [Hno Herr]. split.
    + intros H. by apply Forall_cons in H as [? _].
    + destruct Herr as [[-> Hmiss]| ->]; [left|by right].
      split; [done|]. exists e. split; [left|done].
  - destruct He as [-> Hcodes].
    assert (Hl : l ⊆ TabResnet.embed_input a).
    { intros x Hx. apply Hsub. by right. }
    specialize (IH Hl).
    destruct (comprehension (TabResnet.embed_column (built_TabResnet a) X) l)
      as [err|ss]; cbn [bind ret].
    + destruct IH as [Hno Herr]. split.
      * intros H. by apply Forall_cons in H as [_ ?].
      * destruct Herr as [[-> (e' & He' & Hmiss)]| ->]; [left|by right].
        split; [done|]. exists e'. split; [by right|done].
    + destruct IH as [-> Hall]. split; [by rewrite fmap_cons|].
      by apply Forall_cons.
Qed.

(** The indices of the continuous columns. *)
Lemma cont_idx_cases (column_idx : gmap string nat) (cols : list string) :
  match comprehension (dict_get column_idx) cols with
  | inr js => Forall2 (fun c j => column_idx !! c = Some j) cols js
  | inl err =>
      err = KeyError /\ exists c, c ∈ cols /\ column_idx !! c = None
  end.
Proof.
  induction cols as [|c cols IH]; [constructor|].
  cbn [comprehension]. unfold dict_get at 1.
  destruct (column_idx !! c) as [j|] eqn:Hc; cbn [bind ret raise].
  - destruct (comprehension (dict_get column_idx) cols) as [err|js];
      cbn [bind ret].
    + destruct IH as [-> (c' & Hc' & Hmiss)]. split; [done|].
      exists c'. split; [by right|done].
    + by constructor.
  - split; [done|]. exists c. split; [left|done].
Qed.

Lemma columns_cases (column_idx : gmap string nat) (X : Tensor.t)
  (cols : list string) (js : list nat) :
  Forall2 (fun c j => column_idx !! c = Some j) cols js ->
  match Tensor.columns X js with
  | inr s =>
      s = [Tensor.nrows X; length cols]
      /\ Forall (Valid.has_column column_idx X) cols
  | inl err =>
      err = IndexError /\ ~ Forall (Valid.has_column column_idx X) cols
  end.
Proof.
  intros H2. unfold Tensor.columns.
  assert (Hiff : Forall (fun j => j < Tensor.ncols X) js
                 <-> Forall (Valid.has_column column_idx X) cols).
  { induction H2 as [|c j cols js Hc H2 IH]; [by split|].
    assert (Hcol : Valid.has_column column_idx X c <-> j < Tensor.ncols X).
    { unfold Valid.has_column. by rewrite Hc. }
    by rewrite !Forall_cons, IH, Hcol. }
  destruct (decide (Forall (fun j => j < Tensor.ncols X) js)) as [Hjs|Hjs];
    cbn [ret raise].
  - split; [|by apply Hiff]. by rewrite (Forall2_length _ _ _ H2).
  - split; [done|]. intros H. by apply Hjs, Hiff.
Qed.

Lemma cat1_nil : cat1 [] = inl RuntimeError.
Proof. reflexivity. Qed.

(** X11.  How [forward] of a constructed [TabResnet] ends, for columns
    declared once and a rectangular input of more than one row, as batch
    normalisation wants it.  When it returns, the input has
    every declared column, the categorical ones with codes inside their
    tables, and the result has one row per row of the input and
    [output_dim] columns.  It raises [RuntimeError] only for a model
    without categorical columns, [KeyError] only when a declared column is
    missing from [column_idx], [IndexError] only when the input is not
    one the model is meant for, and nothing else. *)
Theorem TabResnet_forward_outcome
  (a : TabResnet.args) (log : list built) (self : TabResnet.t)
  (X : Tensor.t) :
  (TabResnet.__init__ a log).1 = inr self ->
  NoDup (map (fun e => e.1.1) (TabResnet.embed_input a)) ->
  Tensor.wf X ->
  1 < Tensor.nrows X ->
  match TabResnet.forward self X with
  | inr out =>
      out = [Tensor.nrows X; TabResnet.output_dim self]
      /\ TabResnet.embed_input a <> []
      /\ Valid.TabResnet_input a X
  | inl RuntimeError => TabResnet.embed_input a = []
  | inl KeyError =>
      TabResnet.embed_input a <> []
      /\ exists col,
           col ∈ map (fun e => e.1.1) (TabResnet.embed_input a)
                 ++ default [] (TabResnet.continuous_cols a)
           /\ TabResnet.column_idx a !! col = None
  | inl IndexError =>
      TabResnet.embed_input a <> [] /\ ~ Valid.TabResnet_input a X
  | inl _ => False
  end.
Proof.
  intros Hinit Hnames Hwf Hrows.
  apply TabResnet_init_inv in Hinit
    as (Hlen & _ & _ & _ & _ & Hargs & _ & Hbuilt).
  destruct (decide (TabResnet.embed_input a = [])) as [Hemb|Hemb].
  { unfold TabResnet.forward. cbv zeta. rewrite Hargs, Hemb.
    cbn [comprehension bind ret]. by rewrite cat1_nil. }
  specialize (Hbuilt Hemb). subst self. clear Hargs.
  pose proof (embed_key_NoDup _ Hnames) as Hnd.
  pose proof (embed_columns_cases a X (TabResnet.embed_input a) Hnd
                ltac:(done)) as Hcat.
  destruct (comprehension (TabResnet.embed_column (built_TabResnet a) X)
              (TabResnet.embed_input a)) as [err|ss] eqn:Hcomp.
  { unfold TabResnet.forward. cbv zeta.
    change (TabResnet.self_args (built_TabResnet a)) with a.
    rewrite Hcomp. cbn [bind].
    destruct Hcat as [Hno [[-> (e & He & Hmiss)]| ->]].
    - split; [done|]. exists e.1.1. split; [|done].
      apply elem_of_app. left.
      apply list_elem_of_In, (in_map (fun e => e.1.1)).
      by apply list_elem_of_In.
    - split; [done|]. intros (_ & Hcodes & _). by apply Hno. }
  destruct Hcat as [-> Hcodes].
  destruct (TabResnet.continuous_cols a) as [cols|] eqn:Hcols.
  2:{ rewrite built_TabResnet_forward; [|done|done| |lia].
      - split; [done|]. split; [done|]. split; [done|]. split; [done|].
        rewrite Hcols. constructor.
      - split; [done|]. split; [done|]. rewrite Hcols. constructor. }
  pose proof (cont_idx_cases (TabResnet.column_idx a) cols) as Hidx.
  destruct (comprehension (dict_get (TabResnet.column_idx a)) cols)
    as [err|js] eqn:Hjs.
  { unfold TabResnet.forward. cbv zeta.
    change (TabResnet.self_args (built_TabResnet a)) with a.
    rewrite Hcomp. cbn [bind ret]. rewrite cat1_widths by done.
    cbn [bind ret]. rewrite Hcols, Hjs. cbn [bind].
    destruct Hidx as [-> (c & Hc & Hmiss)].
    split; [done|]. exists c. split; [|done].
    apply elem_of_app. by right. }
  pose proof (columns_cases (TabResnet.column_idx a) X cols js Hidx) as Hsel.
  destruct (Tensor.columns X js) as [err|s] eqn:Hs.
  { unfold TabResnet.forward. cbv zeta.
    change (TabResnet.self_args (built_TabResnet a)) with a.
    rewrite Hcomp. cbn [bind ret]. rewrite cat1_widths by done.
    cbn [bind ret]. rewrite Hcols, Hjs. cbn [bind ret]. rewrite Hs.
    cbn [bind]. destruct Hsel as [-> Hno].
    split; [done|]. intros (_ & _ & Hcont). apply Hno.
    by rewrite Hcols in Hcont. }
  destruct Hsel as [_ Hcont].
  assert (Hinput : Valid.TabResnet_input a X).
  { split; [done|]. split; [done|]. by rewrite Hcols. }
  rewrite built_TabResnet_forward by (done || lia). done.
Qed.

Lemma TabResnet_forward_outcome_example :
  match TabResnet.forward (built_TabResnet example_args) example_input with
  | inr out =>
      out = [Tensor.nrows example_input;
             TabResnet.output_dim (built_TabResnet example_args)]
      /\ TabResnet.embed_input example_args <> []
      /\ Valid.TabResnet_input example_args example_input
  | inl RuntimeError => TabResnet.embed_input example_args = []
  | inl KeyError =>
      TabResnet.embed_input example_args <> []
      /\ exists col,
           col ∈ map (fun e => e.1.1) (TabResnet.embed_input example_args)
                 ++ default [] (TabResnet.continuous_cols example_args)
           /\ TabResnet.column_idx example_args !! col = None
  | inl IndexError =>
      TabResnet.embed_input example_args <> []
      /\ ~ Valid.TabResnet_input example_args example_input
  | inl _ => False
  end.
Proof.
  apply (TabResnet_forward_outcome example_args []).
  - apply example_args_init.
  - apply example_args_valid.
  - apply example_input_valid.
  - vm_compute. lia.
Defined.

(** ** TabResnet: a column declared more than once *)

Lemma embed_key_inj (e : string * nat * nat) (col : string) :
  embed_key e = "emb_layer_" +:+ col <-> e.1.1 = col.
Proof.
  unfold embed_key. split; [|by intros ->].
  intros H. by apply String.app_inj in H.
Qed.

Lemma embed_layers_last (l : list (string * nat * nat)) (col : string) :
  forall m : gmap string Embedding,
  foldl (fun m e => <[embed_key e := embed_layer_of e]> m) m l
    !! ("emb_layer_" +:+ col)
  = match last (filter (fun e => e.1.1 = col) l) with
    | Some e => Some (embed_layer_of e)
    | None => m !! ("emb_layer_" +:+ col)
    end.
Proof.
  induction l as [|e l IH]; intros m; [done|].
  cbn [foldl]. rewrite IH, filter_cons.
  destruct (decide (e.1.1 = col)) as [He|He].
  - rewrite last_cons.
    destruct (last (filter (fun e => e.1.1 = col) l)); [done|].
    apply embed_key_inj in He. rewrite <- He. apply lookup_insert_eq.
  - destruct (last (filter (fun e => e.1.1 = col) l)); [done|].
    apply lookup_insert_ne. by rewrite embed_key_inj.
Qed.

(** X12.  [embed_layers] holds one layer per declared column name, under
    the key ["emb_layer_" + col], and no layer for another name.  For a
    name declared more than once, the layer is that of the last
    declaration: the earlier ones leave no trace in the dict. *)
Theorem TabResnet_embed_layers_last
  (a : TabResnet.args) (log : list built) (self : TabResnet.t)
  (col : string) :
  (TabResnet.__init__ a log).1 = inr self ->
  TabResnet.embed_layers self !! ("emb_layer_" +:+ col)
  = (fun e => mkEmbedding (e.1.2 + 1) e.2 (Some 0))
      <$> last (filter (fun e => e.1.1 = col) (TabResnet.embed_input a))
  /\ (is_Some (TabResnet.embed_layers self !! ("emb_layer_" +:+ col))
      <-> col ∈ map (fun e => e.1.1) (TabResnet.embed_input a)).
Proof.
  intros Hinit. apply TabResnet_init_embed_layers in Hinit as [-> _].
  unfold built_embed_layers. rewrite embed_layers_last, lookup_empty.
  split.
  { by destruct (last (filter (fun e => e.1.1 = col)
                         (TabResnet.embed_input a))). }
  destruct (last (filter (fun e => e.1.1 = col) (TabResnet.embed_input a)))
    as [e|] eqn:Hlast.
  - split; [intros _|by eexists].
    apply last_Some_elem_of, list_elem_of_filter in Hlast as [<- He].
    apply list_elem_of_In, (in_map (fun e => e.1.1)).
    by apply list_elem_of_In.
  - apply last_None in Hlast. split; [by intros [? ?]|].
    intros Hin. apply list_elem_of_In, in_map_iff in Hin as (e & He & Hin).
    assert (Hf : e ∈ filter (fun e => e.1.1 = col) (TabResnet.embed_input a)).
    { apply list_elem_of_filter. split; [done|]. by apply list_elem_of_In. }
    rewrite Hlast in Hf. by apply elem_of_nil in Hf.
Qed.

Lemma TabResnet_embed_layers_last_example :
  TabResnet.embed_layers (built_TabResnet example_args_twice)
    !! ("emb_layer_" +:+ "a")
  = (fun e => mkEmbedding (e.1.2 + 1) e.2 (Some 0))
      <$> last (filter (fun e => e.1.1 = "a")
                  (TabResnet.embed_input example_args_twice))
  /\ (is_Some (TabResnet.embed_layers (built_TabResnet example_args_twice)
                 !! ("emb_layer_" +:+ "a"))
      <-> "a" ∈ map (fun e => e.1.1)
                  (TabResnet.embed_input example_args_twice)).
Proof.
  apply (TabResnet_embed_layers_last example_args_twice []).
  vm_compute. reflexivity.
Defined.

(** The column [a], declared with four values and then with nine, has
    the table of ten rows. *)
Example TabResnet_embed_layers_twice :
  TabResnet.embed_layers (built_TabResnet example_args_twice)
    !! "emb_layer_a" = Some (mkEmbedding 10 2 (Some 0)).
Proof. vm_compute. reflexivity. Qed.
